(** * open-author-clock: the time resolver and the quote fitter of [script.js]

    A shallow embedding of the parts of [src/script.js] and [src/config.js]
    that resolve the time of day, look the quote of the minute up, cut it to
    the three-line budget, mark the time token and schedule the refreshes.

    Modelling choices.
    - A JavaScript string is a [string]: a sequence of code units drawn
      from an alphabet of 256, which [Js.codeUnit] names: the ASCII and
      Latin-1 ranges U+0000..U+00FF, with U+0130 (capital I with dot above)
      and U+0307 (combining dot above) in the places of the two control
      characters U+009E and U+009F.  U+0130 is the one character that
      [toLowerCase] makes longer, so that a position found in a lower-cased
      text need not be the same position of the text itself; every other
      unit is lower-cased in place.  The three characters outside ASCII
      that the page writes itself (the bullet, the degree sign and the
      dash of the source line) stand in literals that are appended and
      compared as wholes only.
    - A JavaScript number that holds an index, a length or a field of a
      [Date] is a [Z]; [-1] is the "not found" answer of [indexOf].
    - [async] functions run in a state-and-exception monad over a [World]:
      the module variable [quotes], the document, the registered timers and
      the counters of the oracles (system clock, time service, dataset). *)

From Stdlib Require Import ZArith List String Ascii Bool Lia DecimalString.
Import ListNotations.

Local Open Scope string_scope.
Local Open Scope Z_scope.

(** ** JavaScript string primitives *)

Module Js.

Definition len (s : string) : Z := Z.of_nat (String.length s).

Fixpoint take (n : nat) (s : string) : string :=
  match n, s with
  | S n', String c s' => String c (take n' s')
  | _, _ => EmptyString
  end.

Fixpoint drop (n : nat) (s : string) : string :=
  match n, s with
  | S n', String _ s' => drop n' s'
  | _, _ => s
  end.

(** [Math.min(Math.max(x, 0), len)]: how [substring], [indexOf] and
    [lastIndexOf] bring a position into the string. *)
Definition clampTo (s : string) (x : Z) : Z := Z.min (Z.max x 0) (len s).

(** [s.substring(a, b)]: both ends clamped, swapped when [a > b]. *)
Definition substring (s : string) (a b : Z) : string :=
  let a' := clampTo s a in
  let b' := clampTo s b in
  let lo := Z.min a' b' in
  let hi := Z.max a' b' in
  take (Z.to_nat (hi - lo)) (drop (Z.to_nat lo) s).

(** The two units of the alphabet that lie outside U+0000..U+00FF. *)
Definition dottedCapitalI : ascii := ascii_of_nat 158.
Definition combiningDotAbove : ascii := ascii_of_nat 159.

(** The UTF-16 code unit a unit of the model stands for. *)
Definition codeUnit (c : ascii) : Z :=
  if Ascii.eqb c dottedCapitalI then 304        (* U+0130 *)
  else if Ascii.eqb c combiningDotAbove then 775 (* U+0307 *)
  else Z.of_nat (nat_of_ascii c).

(** The unit [u] occurs in [s]. *)
Fixpoint hasUnit (u : ascii) (s : string) : bool :=
  match s with
  | EmptyString => false
  | String c s' => Ascii.eqb c u || hasUnit u s'
  end.

(** [toLowerCase] on a unit whose lower case is one unit: A-Z and the
    Latin-1 capitals (all of 192..222 but the multiplication sign 215) move
    up by 32. *)
Definition toLowerUnit (c : ascii) : ascii :=
  let n := nat_of_ascii c in
  if ((65 <=? n) && (n <=? 90))%nat
     || ((192 <=? n) && (n <=? 222) && negb (n =? 215))%nat
  then ascii_of_nat (n + 32) else c.

(** [s.toLowerCase()]: U+0130 becomes the two units U+0069 U+0307, every
    other unit its one-unit lower case. *)
Fixpoint toLowerCase (s : string) : string :=
  match s with
  | EmptyString => EmptyString
  | String c s' =>
      if Ascii.eqb c dottedCapitalI
      then String "i" (String combiningDotAbove (toLowerCase s'))
      else String (toLowerUnit c) (toLowerCase s')
  end.

(** The case folding of a regular expression with the [i] flag goes through
    the upper case: a-z and the Latin-1 small letters (224..254 but the
    division sign 247) move down by 32.  The units 181 and 255 have their
    capitals outside the alphabet and are equal to nothing else here; the
    sharp s 223 has a two-unit capital and is left alone; U+0130 and U+0307
    are their own upper case. *)
Definition canonicalize (c : ascii) : ascii :=
  let n := nat_of_ascii c in
  if ((97 <=? n) && (n <=? 122))%nat
     || ((224 <=? n) && (n <=? 254) && negb (n =? 247))%nat
  then ascii_of_nat (n - 32) else c.

(** [pat] occurs at the start of [s]. *)
Fixpoint startsWith (pat s : string) : bool :=
  match pat, s with
  | EmptyString, _ => true
  | String a pat', String b s' => Ascii.eqb a b && startsWith pat' s'
  | String _ _, EmptyString => false
  end.

(** [pat] occurs at the start of [s] up to case, as a regular expression
    with the [i] flag compares. *)
Fixpoint startsWithCI (pat s : string) : bool :=
  match pat, s with
  | EmptyString, _ => true
  | String a pat', String b s' =>
      Ascii.eqb (canonicalize a) (canonicalize b) && startsWithCI pat' s'
  | String _ _, EmptyString => false
  end.

(** The scan of [indexOf]: [s] is what is left of the string from position
    [pos] on. *)
Fixpoint indexOfFrom (pat s : string) (pos : Z) : Z :=
  if startsWith pat s then pos
  else match s with
       | EmptyString => -1
       | String _ s' => indexOfFrom pat s' (pos + 1)
       end.

(** [s.indexOf(pat, from)]: the first occurrence at or after [from]. *)
Definition indexOf (s pat : string) (from : Z) : Z :=
  let k := clampTo s from in
  indexOfFrom pat (drop (Z.to_nat k) s) k.

(** The scan of [lastIndexOf]: the last position up to [limit] at which
    [pat] occurs, [best] being the last one seen so far. *)
Fixpoint lastIndexOfUpTo (pat s : string) (pos limit best : Z) : Z :=
  let best' := if (pos <=? limit) && startsWith pat s then pos else best in
  match s with
  | EmptyString => best'
  | String _ s' => lastIndexOfUpTo pat s' (pos + 1) limit best'
  end.

(** [s.lastIndexOf(pat, from)]: the last occurrence at or before [from]. *)
Definition lastIndexOf (s pat : string) (from : Z) : Z :=
  lastIndexOfUpTo pat s 0 (Z.max from 0) (-1).

(** [String(n)] for an integer [n]. *)
Definition ofInt (n : Z) : string := NilZero.string_of_int (Z.to_int n).

Fixpoint repeatUnit (c : ascii) (n : nat) : string :=
  match n with
  | O => EmptyString
  | S n' => String c (repeatUnit c n')
  end.

(** [s.padStart(width, c)] with a one-unit filler. *)
Definition padStart (s : string) (width : nat) (c : ascii) : string :=
  repeatUnit c (width - String.length s) ++ s.

End Js.

(** ** The quote fitter: [smartTruncateQuote] *)

(** [const maxLength = 120] *)
Definition maxLength : Z := 120.

(** Lines 370-406 of [script.js]: the window [startIndex, endIndex) that is
    kept, once the token was found at [timeIndex]. *)
Definition truncationWindow (quoteText timeString : string) (timeIndex : Z)
  : Z * Z :=
  let timeLength := Js.len timeString in
  (* let startIndex = Math.max(0, timeIndex - Math.floor((maxLength - timeLength) / 2)) *)
  let startIndex := Z.max 0 (timeIndex - (maxLength - timeLength) / 2) in
  (* let endIndex = Math.min(quoteText.length, startIndex + maxLength) *)
  let endIndex := Z.min (Js.len quoteText) (startIndex + maxLength) in
  (* if we hit the end, shift the window back *)
  let '(startIndex, endIndex) :=
    if (endIndex =? Js.len quoteText) && (Js.len quoteText >? maxLength)
    then (Z.max 0 (Js.len quoteText - maxLength), Js.len quoteText)
    else (startIndex, endIndex) in
  (* if we hit the beginning, shift the window forward *)
  let endIndex :=
    if (startIndex =? 0) && (Js.len quoteText >? maxLength)
    then Z.min (Js.len quoteText) maxLength
    else endIndex in
  (* ensure we don't exceed maxLength *)
  let endIndex :=
    if endIndex - startIndex >? maxLength then startIndex + maxLength
    else endIndex in
  (* word boundary after the left edge *)
  let startIndex' :=
    if startIndex >? 0 then
      let spaceIndex := Js.indexOf quoteText " " startIndex in
      if negb (spaceIndex =? -1) && (spaceIndex <? startIndex + 15)
      then spaceIndex + 1 else startIndex
    else startIndex in
  (* word boundary before the right edge *)
  let endIndex' :=
    if endIndex <? Js.len quoteText then
      let spaceIndex := Js.lastIndexOf quoteText " " endIndex in
      if negb (spaceIndex =? -1) && (spaceIndex >? endIndex - 15)
      then spaceIndex else endIndex
    else endIndex in
  (startIndex', endIndex').

Definition smartTruncateQuote (quoteText timeString : string) : string :=
  if Js.len quoteText <=? maxLength then quoteText
  else
    let timeIndex :=
      Js.indexOf (Js.toLowerCase quoteText) (Js.toLowerCase timeString) 0 in
    if timeIndex =? -1 then
      Js.substring quoteText 0 (maxLength - 3) ++ "..."
    else
      let '(startIndex, endIndex) :=
        truncationWindow quoteText timeString timeIndex in
      let result := Js.substring quoteText startIndex endIndex in
      let result := if startIndex >? 0 then "..." ++ result else result in
      let result :=
        if endIndex <? Js.len quoteText then result ++ "..." else result in
      result.

(** ** The time token marker: [highlightTimeString] *)

(** The class [[.*+?^${}()|[\]\\]] of the escaping [replace]. *)
Definition regexSyntaxUnit (c : ascii) : bool :=
  existsb (Ascii.eqb c)
    ["."; "*"; "+"; "?"; "^"; "$"; "{"; "}"; "("; ")"; "|"; "["; "]"; "\"]%char.

(** [timeString.replace(/[.*+?^${}()|[\]\\]/g, '\\$&')]: a backslash before
    each syntax unit. *)
Fixpoint escapeRegExp (s : string) : string :=
  match s with
  | EmptyString => EmptyString
  | String c s' =>
      if regexSyntaxUnit c then String "\" (String c (escapeRegExp s'))
      else String c (escapeRegExp s')
  end.

(** What a pattern made of plain units and backslash-unit pairs matches: the
    units themselves, each pair standing for its second unit. *)
Fixpoint patternLiteral (pattern : string) : string :=
  match pattern with
  | EmptyString => EmptyString
  | String "\" (String c rest) => String c (patternLiteral rest)
  | String c rest => String c (patternLiteral rest)
  end.

Definition strongOpen : string := "<strong>".
Definition strongClose : string := "</strong>".

(** [text.replace(regex, '<strong>$1</strong>')] for the regular expression
    [new RegExp(`(${pattern})`, 'gi')] whose group matches [literal]: the text
    is scanned from the left; a match is wrapped and the scan goes on behind
    it ([skip] counts the units of the match still to pass over); an empty
    match is followed by one unit of the text. *)
Fixpoint replaceAllCI (literal text : string) (skip : nat) : string :=
  match skip with
  | S k =>
      match text with
      | EmptyString => EmptyString
      | String _ text' => replaceAllCI literal text' k
      end
  | O =>
      if Js.startsWithCI literal text then
        strongOpen ++ Js.take (String.length literal) text ++ strongClose ++
        match text with
        | EmptyString => EmptyString
        | String c text' =>
            match literal with
            | EmptyString => String c (replaceAllCI literal text' 0)
            | String _ _ =>
                replaceAllCI literal text' (String.length literal - 1)
            end
        end
      else
        match text with
        | EmptyString => EmptyString
        | String c text' => String c (replaceAllCI literal text' 0)
        end
  end.

Definition highlightTimeString (quoteText timeString : string) : string :=
  let escapedTimeString := escapeRegExp timeString in
  let regex := patternLiteral escapedTimeString in
  replaceAllCI regex quoteText 0.

(** ** Data: quotes, times, configuration ([config.js]) *)

Record Quote := {
  time : string;
  quote : string;
  timeString : string;
  title : string;
  author : string
}.

Record TimeData := { hours : Z; minutes : Z; seconds : Z }.

Record TimeSync := {
  useWebTime : bool;
  maxDiscrepancySeconds : Z;
  webTimeAPI : string;
  fallbackToSystemTime : bool
}.

Record Messages := {
  noQuote : string;
  noSource : string;
  timeUnavailable : string;
  weatherUnavailable : string;
  loadingQuote : string;
  loadingWeather : string
}.

(** The typography block, the coordinates and the wake-lock switch of
    [config.js] hold fractional numbers or drive styling only; they are left
    out. *)
Record Config := {
  dataUrl : string;
  updateInterval : Z;
  weatherUpdateInterval : Z;
  fadeOutDuration : Z;
  fadeInDuration : Z;
  maxQuoteLength : Z;
  city : string;
  timeSync : TimeSync;
  wakeLockFallbackInterval : Z;
  messages : Messages
}.

(** The object exported by [config.js]. *)
Definition defaultConfig : Config := {|
  dataUrl := "data.json";
  updateInterval := 60000;
  weatherUpdateInterval := 600000;
  fadeOutDuration := 1000;
  fadeInDuration := 1000;
  maxQuoteLength := 108;
  city := "Evanston";
  timeSync := {|
    useWebTime := false;
    maxDiscrepancySeconds := 30;
    webTimeAPI := "https://worldtimeapi.org/api/timezone/America/Chicago";
    fallbackToSystemTime := true |};
  wakeLockFallbackInterval := 30000;
  messages := {|
    noQuote := "No quote found for";
    noSource := "No source available";
    timeUnavailable := "Time unavailable";
    weatherUnavailable := "Weather unavailable";
    loadingQuote := "Loading quote...";
    loadingWeather := "Loading weather..." |}
|}.

Definition withMaxQuoteLength (n : Z) (c : Config) : Config := {|
  dataUrl := dataUrl c;
  updateInterval := updateInterval c;
  weatherUpdateInterval := weatherUpdateInterval c;
  fadeOutDuration := fadeOutDuration c;
  fadeInDuration := fadeInDuration c;
  maxQuoteLength := n;
  city := city c;
  timeSync := timeSync c;
  wakeLockFallbackInterval := wakeLockFallbackInterval c;
  messages := messages c
|}.

(** ** The world of the page: document, timers, oracles *)

(** [new Date(data.datetime)]: a date whose fields can be read, or
    [Invalid Date], every field of which is [NaN]. *)
Inductive JsDate :=
| ValidDate (t : TimeData)
| InvalidDate.

(** What [fetch(config.timeSync.webTimeAPI)] followed by [response.json()]
    and [data.datetime] comes to: a rejection or an exception on the way, or
    a date. *)
Inductive TimeResponse :=
| TimeFetchFailed
| TimeFetched (d : JsDate).

(** What [fetch(config.dataUrl)] comes to: a rejection, or a response with its
    status and the parsed body ([None] when [response.json()] rejects).  The
    body, when it parses, is an array of quote records, as the module
    variable [quotes] is one: a body that parses to something else ([null],
    a number, an object without [find]) is not among these responses. *)
Inductive DatasetResponse :=
| DatasetUnreachable
| DatasetResponded (status : Z) (body : option (list Quote)).

(** The weather request: a rejection, or a response with its status and the
    parsed body: [None] when parsing rejects, [Some None] for a body without
    [current_weather], else the rounded temperature and the weather code. *)
Inductive WeatherResponse :=
| WeatherUnreachable
| WeatherResponded (status : Z) (body : option (option (Z * Z))).

Inductive JsError :=
| HttpError (status : Z)          (* new Error(`HTTP error! status: ...`) *)
| WeatherStatusError (status : Z) (* new Error(`Weather API responded ...`) *)
| NoWeatherData                   (* new Error('No weather data received') *)
| FetchRejected                   (* a rejected fetch or json() promise *)
| TimeUnavailable.                (* new Error('Time unavailable') *)

(** The answers of the outside world; the n-th call gets the n-th answer. *)
Record Oracles := {
  systemClock : nat -> TimeData;       (* the n-th [new Date()] *)
  localeDate : nat -> string;          (* its [toLocaleDateString] *)
  timeService : nat -> TimeResponse;   (* the n-th fetch of [webTimeAPI] *)
  datasetService : nat -> DatasetResponse;
  weatherService : nat -> WeatherResponse
}.

Record Element := { content : string; opacity : string }.

(** [document.querySelector] for the five selectors of [config.selectors];
    [None] when no element matches. *)
Record Document := {
  quoteEl : option Element;
  authorEl : option Element;
  quoteContainerEl : option Element;
  datetimeEl : option Element;
  weatherEl : option Element
}.

(** The functions handed to [setTimeout] and [setInterval]. *)
Inductive Callback :=
| CbKeepAwake                      (* the scroll nudge of setupFallbackKeepAwake *)
| CbStartMinuteCycle               (* the arrow of setupPreciseMinuteTiming *)
| CbUpdateQuote                    (* updateQuote *)
| CbShowQuote (matchedQuote : option Quote)  (* the arrow of updateQuote *)
| CbUpdateWeather.                 (* updateWeatherDisplay *)

Record Timer := { repeating : bool; delay : Z; callback : Callback }.

Record World := {
  quotes : list Quote;       (* [let quotes = []] *)
  document : Document;
  timers : list Timer;       (* registered and not yet cleared, oldest first *)
  clockReads : nat;
  timeFetches : nat;
  datasetFetches : nat;
  weatherFetches : nat
}.

Definition initialWorld (d : Document) : World := {|
  quotes := []; document := d; timers := [];
  clockReads := 0; timeFetches := 0; datasetFetches := 0; weatherFetches := 0
|}.

Definition setQuotes (qs : list Quote) (w : World) : World :=
  {| quotes := qs; document := document w; timers := timers w;
     clockReads := clockReads w; timeFetches := timeFetches w;
     datasetFetches := datasetFetches w; weatherFetches := weatherFetches w |}.

Definition setDocument (d : Document) (w : World) : World :=
  {| quotes := quotes w; document := d; timers := timers w;
     clockReads := clockReads w; timeFetches := timeFetches w;
     datasetFetches := datasetFetches w; weatherFetches := weatherFetches w |}.

Definition setTimers (ts : list Timer) (w : World) : World :=
  {| quotes := quotes w; document := document w; timers := ts;
     clockReads := clockReads w; timeFetches := timeFetches w;
     datasetFetches := datasetFetches w; weatherFetches := weatherFetches w |}.

Definition tickClock (w : World) : World :=
  {| quotes := quotes w; document := document w; timers := timers w;
     clockReads := S (clockReads w); timeFetches := timeFetches w;
     datasetFetches := datasetFetches w; weatherFetches := weatherFetches w |}.

Definition tickTimeFetch (w : World) : World :=
  {| quotes := quotes w; document := document w; timers := timers w;
     clockReads := clockReads w; timeFetches := S (timeFetches w);
     datasetFetches := datasetFetches w; weatherFetches := weatherFetches w |}.

Definition tickDatasetFetch (w : World) : World :=
  {| quotes := quotes w; document := document w; timers := timers w;
     clockReads := clockReads w; timeFetches := timeFetches w;
     datasetFetches := S (datasetFetches w);
     weatherFetches := weatherFetches w |}.

Definition tickWeatherFetch (w : World) : World :=
  {| quotes := quotes w; document := document w; timers := timers w;
     clockReads := clockReads w; timeFetches := timeFetches w;
     datasetFetches := datasetFetches w;
     weatherFetches := S (weatherFetches w) |}.

(** ** The monad of the [async] functions: state and exceptions *)

Inductive Outcome (A : Type) :=
| Returned (a : A)
| Thrown (e : JsError).
Arguments Returned {A} a.
Arguments Thrown {A} e.

Definition M (A : Type) : Type := World -> Outcome A * World.

Definition ret {A} (a : A) : M A := fun w => (Returned a, w).

Definition bind {A B} (m : M A) (k : A -> M B) : M B :=
  fun w =>
    match m w with
    | (Returned a, w') => k a w'
    | (Thrown e, w') => (Thrown e, w')
    end.

Definition throw {A} (e : JsError) : M A := fun w => (Thrown e, w).

(** [try { body } catch (error) { handler }]: what the body did to the world
    before it threw stays done. *)
Definition tryCatch {A} (body : M A) (handler : JsError -> M A) : M A :=
  fun w =>
    match body w with
    | (Returned a, w') => (Returned a, w')
    | (Thrown e, w') => handler e w'
    end.

(** A call of an [async] function whose promise nobody awaits: it does its
    work, and a rejection reaches no caller.  The browser runs such a call
    up to its first [await] and the rest once the caller has gone on; here
    the call is run whole where it is made.  The world after the caller
    and the call have both run is the same but for the order of the
    timers: the functions called this way share no field of the world with
    what their caller does next, the list of timers apart.  What is said
    of [init] below is therefore said of the page once [init] and the calls
    it does not await have run, and of its timers by membership and by
    count, not by their order. *)
Definition unawaited {A} (m : M A) : M unit :=
  fun w => (Returned tt, snd (m w)).

Definition get : M World := fun w => (Returned w, w).
Definition modify (f : World -> World) : M unit := fun w => (Returned tt, f w).

Declare Scope js_scope.
Delimit Scope js_scope with js.
Notation "x <- m ;; k" := (bind m (fun x => k))
  (at level 61, m at next level, right associativity) : js_scope.
Notation "m ;;; k" := (bind m (fun _ => k))
  (at level 61, right associativity) : js_scope.
Local Open Scope js_scope.

(** ** Document and timer primitives *)

Definition dquote : string := String (ascii_of_nat 34) EmptyString.
Definition newline : string := String (ascii_of_nat 10) EmptyString.

Definition withContent (s : string) (e : Element) : Element :=
  {| content := s; opacity := opacity e |}.

Definition withOpacity (o : string) (e : Element) : Element :=
  {| content := content e; opacity := o |}.

Definition onQuoteEl (f : Element -> Element) (d : Document) : Document :=
  {| quoteEl := option_map f (quoteEl d); authorEl := authorEl d;
     quoteContainerEl := quoteContainerEl d; datetimeEl := datetimeEl d;
     weatherEl := weatherEl d |}.

Definition onAuthorEl (f : Element -> Element) (d : Document) : Document :=
  {| quoteEl := quoteEl d; authorEl := option_map f (authorEl d);
     quoteContainerEl := quoteContainerEl d; datetimeEl := datetimeEl d;
     weatherEl := weatherEl d |}.

Definition onQuoteContainerEl (f : Element -> Element) (d : Document)
  : Document :=
  {| quoteEl := quoteEl d; authorEl := authorEl d;
     quoteContainerEl := option_map f (quoteContainerEl d);
     datetimeEl := datetimeEl d; weatherEl := weatherEl d |}.

Definition onDatetimeEl (f : Element -> Element) (d : Document) : Document :=
  {| quoteEl := quoteEl d; authorEl := authorEl d;
     quoteContainerEl := quoteContainerEl d;
     datetimeEl := option_map f (datetimeEl d); weatherEl := weatherEl d |}.

Definition onWeatherEl (f : Element -> Element) (d : Document) : Document :=
  {| quoteEl := quoteEl d; authorEl := authorEl d;
     quoteContainerEl := quoteContainerEl d; datetimeEl := datetimeEl d;
     weatherEl := option_map f (weatherEl d) |}.

Definition updateDocument (f : Document -> Document) : M unit :=
  modify (fun w => setDocument (f (document w)) w).

(** [setTimeout(cb, ms)] *)
Definition setTimeout (cb : Callback) (ms : Z) : M unit :=
  modify (fun w =>
    setTimers (timers w ++ [{| repeating := false; delay := ms;
                               callback := cb |}])%list w).

(** [setInterval(cb, ms)] *)
Definition setInterval (cb : Callback) (ms : Z) : M unit :=
  modify (fun w =>
    setTimers (timers w ++ [{| repeating := true; delay := ms;
                               callback := cb |}])%list w).

(** [getWeatherCondition]: [conditions[code] || 'Unknown']. *)
Definition getWeatherCondition (code : Z) : string :=
  match code with
  | 0 => "Clear" | 1 => "Mostly Clear" | 2 => "Partly Cloudy"
  | 3 => "Overcast" | 45 => "Foggy" | 48 => "Rime Fog"
  | 51 => "Light Drizzle" | 53 => "Drizzle" | 55 => "Heavy Drizzle"
  | 61 => "Light Rain" | 63 => "Rain" | 65 => "Heavy Rain"
  | 71 => "Light Snow" | 73 => "Snow" | 75 => "Heavy Snow"
  | 77 => "Snow Grains" | 80 => "Light Showers" | 81 => "Showers"
  | 82 => "Heavy Showers" | 85 => "Light Snow Showers"
  | 86 => "Snow Showers" | 95 => "Thunderstorm"
  | 96 => "Thunderstorm with Hail" | 99 => "Heavy Thunderstorm"
  | _ => "Unknown"
  end.

(** The markup that [displayError] writes into the quote container. *)
Definition errorBanner (message : string) : string :=
  newline
  ++ "      <div style=" ++ dquote
  ++ "text-align: center; color: #ff6b6b; padding: 2rem;"
  ++ dquote ++ ">" ++ newline
  ++ "        <h2>Error</h2>" ++ newline
  ++ "        <p>" ++ message ++ "</p>" ++ newline
  ++ "      </div>" ++ newline
  ++ "    ".

(** ** The functions of [script.js] *)

Section Script.

(** [import { config } from './config.js'] and the outside world. *)
Variable config : Config.
Variable oracles : Oracles.

(** [new Date()]: the date object is known by the number of its reading. *)
Definition newDate : M nat :=
  fun w => (Returned (clockReads w), tickClock w).

Definition getHours (d : nat) : Z := hours (systemClock oracles d).
Definition getMinutes (d : nat) : Z := minutes (systemClock oracles d).
Definition getSeconds (d : nat) : Z := seconds (systemClock oracles d).

(** [fetch(config.timeSync.webTimeAPI)], [response.json()] and
    [new Date(data.datetime)]. *)
Definition fetchWebTime : M JsDate :=
  fun w =>
    match timeService oracles (timeFetches w) with
    | TimeFetchFailed => (Thrown FetchRejected, tickTimeFetch w)
    | TimeFetched d => (Returned d, tickTimeFetch w)
    end.

Definition getCurrentTime : M TimeData :=
  tryCatch
    (systemTime <- newDate ;;
     let systemTimeData :=
       {| hours := getHours systemTime;
          minutes := getMinutes systemTime;
          seconds := getSeconds systemTime |} in
     if negb (useWebTime (timeSync config)) then ret systemTimeData
     else
       webTime <- fetchWebTime ;;
       match webTime with
       | InvalidDate =>
           (* every field is NaN, and [NaN * 60 > x] is false *)
           ret systemTimeData
       | ValidDate wt =>
           let webTimeData :=
             {| hours := hours wt; minutes := minutes wt;
                seconds := seconds wt |} in
           let systemMinutes :=
             getHours systemTime * 60 + getMinutes systemTime in
           let webMinutes := hours wt * 60 + minutes wt in
           let discrepancyMinutes := Z.abs (systemMinutes - webMinutes) in
           if discrepancyMinutes * 60
              >? maxDiscrepancySeconds (timeSync config)
           then ret webTimeData
           else ret systemTimeData
       end)
    (fun error =>
       if fallbackToSystemTime (timeSync config) then
         systemTime <- newDate ;;
         ret {| hours := getHours systemTime;
                minutes := getMinutes systemTime;
                seconds := getSeconds systemTime |}
       else throw TimeUnavailable).

(** [`${String(hours).padStart(2, '0')}:${String(minutes).padStart(2, '0')}`] *)
Definition formatTime (h m : Z) : string :=
  Js.padStart (Js.ofInt h) 2 "0" ++ ":" ++ Js.padStart (Js.ofInt m) 2 "0".

Definition findQuoteForCurrentTime : M (option Quote) :=
  t <- getCurrentTime ;;
  let currentTimeString := formatTime (hours t) (minutes t) in
  w <- get ;;
  let matchedQuote :=
    find (fun q => String.eqb (time q) currentTimeString) (quotes w) in
  ret matchedQuote.

(** [loadQuotes].  After the assignment the code logs [quotes.length],
    which an array always has; the two [console] calls leave the page as it
    is. *)
Definition loadQuotes : M unit :=
  tryCatch
    (fun w =>
       match datasetService oracles (datasetFetches w) with
       | DatasetUnreachable => (Thrown FetchRejected, tickDatasetFetch w)
       | DatasetResponded status body =>
           if negb ((200 <=? status) && (status <=? 299))
           then (Thrown (HttpError status), tickDatasetFetch w)
           else match body with
                | None => (Thrown FetchRejected, tickDatasetFetch w)
                | Some qs => (Returned tt, setQuotes qs (tickDatasetFetch w))
                end
       end)
    (fun error => throw error).

Definition updateDateTimeDisplay : M unit :=
  w <- get ;;
  match datetimeEl (document w) with
  | None => ret tt
  | Some _ =>
      tryCatch
        (t <- getCurrentTime ;;
         now <- newDate ;;
         let dateStr := localeDate oracles now in
         let timeStr := formatTime (hours t) (minutes t) in
         updateDocument
           (onDatetimeEl (withContent (dateStr ++ " • " ++ timeStr))))
        (fun error =>
           updateDocument
             (onDatetimeEl
                (withContent (timeUnavailable (messages config)))))
  end.

Definition updateWeatherDisplay : M unit :=
  w <- get ;;
  match weatherEl (document w) with
  | None => ret tt
  | Some _ =>
      tryCatch
        (updateDocument
           (onWeatherEl
              (withContent
                 (city config ++ " • "
                  ++ loadingWeather (messages config)))) ;;;
         fun w =>
           match weatherService oracles (weatherFetches w) with
           | WeatherUnreachable => (Thrown FetchRejected, tickWeatherFetch w)
           | WeatherResponded status body =>
               if negb ((200 <=? status) && (status <=? 299))
               then (Thrown (WeatherStatusError status), tickWeatherFetch w)
               else
                 match body with
                 | None => (Thrown FetchRejected, tickWeatherFetch w)
                 | Some None => (Thrown NoWeatherData, tickWeatherFetch w)
                 | Some (Some (temp, weatherCode)) =>
                     let condition := getWeatherCondition weatherCode in
                     updateDocument
                       (onWeatherEl
                          (withContent
                             (city config ++ " • " ++ Js.ofInt temp
                              ++ "°C • " ++ condition)))
                       (tickWeatherFetch w)
                 end
           end)
        (fun error =>
           updateDocument
             (onWeatherEl
                (withContent
                   (city config ++ " • "
                    ++ weatherUnavailable (messages config)))))
  end.

(** The arrow that [updateQuote] hands to [setTimeout]: it writes the
    quote (or the notice that there is none) and fades it in.  The call of
    [adjustFontSizeForQuote] sets a font size only and is left out. *)
Definition showQuote (matchedQuote : option Quote) : M unit :=
  match matchedQuote with
  | None =>
      t <- getCurrentTime ;;
      let timeString := formatTime (hours t) (minutes t) in
      updateDocument
        (onQuoteEl
           (withContent
              (dquote ++ noQuote (messages config) ++ " <strong>"
               ++ timeString ++ "</strong>..." ++ dquote))) ;;;
      updateDocument
        (onAuthorEl (withContent (noSource (messages config))))
  | Some q =>
      let truncatedQuote := smartTruncateQuote (quote q) (timeString q) in
      let highlightedQuote :=
        highlightTimeString truncatedQuote (timeString q) in
      updateDocument
        (onQuoteEl (withContent (dquote ++ highlightedQuote ++ dquote))) ;;;
      updateDocument
        (onAuthorEl (withContent (title q ++ " – " ++ author q)))
  end ;;;
  updateDocument (onQuoteEl (withOpacity "1")) ;;;
  updateDocument (onAuthorEl (withOpacity "1")).

Definition updateQuote : M unit :=
  matchedQuote <- findQuoteForCurrentTime ;;
  w <- get ;;
  match quoteEl (document w), authorEl (document w) with
  | Some _, Some _ =>
      updateDateTimeDisplay ;;;
      updateDocument (onQuoteEl (withOpacity "0")) ;;;
      updateDocument (onAuthorEl (withOpacity "0")) ;;;
      setTimeout (CbShowQuote matchedQuote) (fadeOutDuration config)
  | _, _ => ret tt
  end.

Definition setupPreciseMinuteTiming : M unit :=
  t <- getCurrentTime ;;
  let msUntilNextMinute := (60 - seconds t) * 1000 in
  setTimeout CbStartMinuteCycle msUntilNextMinute.

Definition setupFallbackKeepAwake : M unit :=
  setInterval CbKeepAwake (wakeLockFallbackInterval config).

Definition displayError (message : string) : M unit :=
  updateDocument (onQuoteContainerEl (withContent (errorBanner message))).

(** [init].  [setupWakeLock()] is not awaited, catches its own failures
    and touches the wake-lock handle only; [applyEReaderStyles()] and
    [applyTextAlignment()] set styles only: the three are left out. *)
Definition init : M unit :=
  tryCatch
    (loadQuotes ;;;
     setupFallbackKeepAwake ;;;
     updateDateTimeDisplay ;;;
     unawaited updateWeatherDisplay ;;;
     updateQuote ;;;
     unawaited setupPreciseMinuteTiming ;;;
     setInterval CbUpdateWeather (weatherUpdateInterval config))
    (fun error =>
       displayError "Failed to load quotes. Please refresh the page.").

(** What the event loop runs when a timer fires.  The promise of an
    [async] callback is dropped by the timer. *)
Definition runCallback (cb : Callback) : M unit :=
  match cb with
  | CbKeepAwake => ret tt
  | CbStartMinuteCycle =>
      unawaited updateQuote ;;;
      setInterval CbUpdateQuote 60000
  | CbUpdateQuote => unawaited updateQuote
  | CbShowQuote matchedQuote => unawaited (showQuote matchedQuote)
  | CbUpdateWeather => unawaited updateWeatherDisplay
  end.

(** One turn of the event loop: a registered timer fires.  A timeout is
    cleared as it fires, an interval stays registered.  Which timer is due
    depends on the time that passed, which the relation leaves open. *)
Inductive fires : World -> World -> Prop :=
| fires_timeout before t after w :
    timers w = (before ++ t :: after)%list ->
    repeating t = false ->
    fires w (snd (runCallback (callback t)
                    (setTimers (before ++ after)%list w)))
| fires_interval t w :
    In t (timers w) ->
    repeating t = true ->
    fires w (snd (runCallback (callback t) w)).

(** The worlds the page can be in after [w]. *)
Inductive reachable (w : World) : World -> Prop :=
| reachable_here : reachable w w
| reachable_step w1 w2 :
    reachable w w1 -> fires w1 w2 -> reachable w w2.

End Script.

(** ** Notions the statements below are written in *)

(** A window edge cuts the token found at [timeIndex] when it lies strictly
    between the first unit of the token and the position behind its last. *)
Definition edgeInsideToken (edge timeIndex timeLength : Z) : Prop :=
  timeIndex < edge /\ edge < timeIndex + timeLength.

(** The token that [smartTruncateQuote] centered its window on is cut by
    neither edge of the window. *)
Definition tokenNotSplit (quoteText timeString : string) : Prop :=
  let timeIndex :=
    Js.indexOf (Js.toLowerCase quoteText) (Js.toLowerCase timeString) 0 in
  timeIndex <> -1 ->
  forall startIndex endIndex,
    truncationWindow quoteText timeString timeIndex = (startIndex, endIndex) ->
    ~ edgeInsideToken startIndex timeIndex (Js.len timeString) /\
    ~ edgeInsideToken endIndex timeIndex (Js.len timeString).

(** [toLowerCase] leaves the text at its length, every unit in its place:
    U+0130 does not occur in it. *)
Definition lowersInPlace (s : string) : Prop :=
  Js.hasUnit Js.dottedCapitalI s = false.

(** The token that [smartTruncateQuote] centered its window on comes back
    whole.  The position found in the lower-cased text is a position of the
    text; the units of the text from there on are the token up to case; the
    window begins no later and ends no earlier than they do; and the text
    returned is the part of the window before them, they themselves and the
    part of the window behind them, between the markers. *)
Definition tokenInsideWindow (quoteText timeString : string) : Prop :=
  let timeIndex :=
    Js.indexOf (Js.toLowerCase quoteText) (Js.toLowerCase timeString) 0 in
  let timeEnd := timeIndex + Js.len timeString in
  let occurrence := Js.substring quoteText timeIndex timeEnd in
  timeIndex <> -1 ->
  Js.len occurrence = Js.len timeString /\
  Js.toLowerCase occurrence = Js.toLowerCase timeString /\
  forall startIndex endIndex,
    truncationWindow quoteText timeString timeIndex = (startIndex, endIndex) ->
    startIndex <= timeIndex /\ timeEnd <= endIndex /\
    smartTruncateQuote quoteText timeString
    = (if startIndex >? 0 then "..." else "")
      ++ Js.substring quoteText startIndex timeIndex
      ++ occurrence
      ++ Js.substring quoteText timeEnd endIndex
      ++ (if endIndex <? Js.len quoteText then "..." else "").

(** The quote of the scenario of the specification. *)
Definition scenarioQuote : string :=
  "A man who dares to waste one hour of time has not discovered the value of life at 09:41".

(** A text of 153 units around a time phrase of 145 units. *)
Definition ramblingToken : string :=
  "half past eleven at night, or perhaps a quarter to twelve, or it may even have been midnight itself, for all that anybody in the house could tell".

Definition ramblingQuote : string := "It was " ++ ramblingToken ++ ".".

(** A text of 203 units that begins with 60 times U+0130, and the token of
    14 units that stands behind them. *)
Definition dottedToken : string := "half past nine".

Definition dottedQuote : string :=
  Js.repeatUnit Js.dottedCapitalI 60 ++ "half past nine, said the clock of the ferry house, and the last boat to the far shore had left the quay without a single passenger on its deck.".

(** Twenty times U+0130; its lower case, twenty times the pair U+0069
    U+0307; and a text of 240 units around the latter. *)
Definition dottedCapitals : string := Js.repeatUnit Js.dottedCapitalI 20.

Definition dottedSmalls : string := Js.toLowerCase dottedCapitals.

Definition dottedRun : string :=
  Js.repeatUnit "a" 100 ++ dottedSmalls ++ Js.repeatUnit "b" 100.

(** A text of 310 units. *)
Definition aprilQuote : string :=
  "It was a bright cold day in April, and the clocks were striking thirteen. Winston Smith, his chin nuzzled into his breast in an effort to escape the vile wind, slipped quickly through the glass doors of Victory Mansions, though not quickly enough to prevent a swirl of gritty dust from entering along with him.".

(** The minute of the day the resolver compares, and the discrepancy in
    seconds it derives from two of them. *)
Definition minutesOfDay (t : TimeData) : Z := hours t * 60 + minutes t.

Definition discrepancySeconds (localTime networkTime : TimeData) : Z :=
  Z.abs (minutesOfDay localTime - minutesOfDay networkTime) * 60.

(** The fields of a [Date] that can be read. *)
Definition validTime (t : TimeData) : Prop :=
  0 <= hours t < 24 /\ 0 <= minutes t < 60 /\ 0 <= seconds t < 60.

Definition secondsOfDay (t : TimeData) : Z :=
  hours t * 3600 + minutes t * 60 + seconds t.

(** Two times of day one second from each other on the clock face, the
    second before midnight and midnight included. *)
Definition oneSecondApart (a b : TimeData) : Prop :=
  (secondsOfDay a - secondsOfDay b) mod 86400 = 1 \/
  (secondsOfDay b - secondsOfDay a) mod 86400 = 1.

(** The two-digit text of a number below 100. *)
Definition twoDigits (n : Z) : string :=
  String (ascii_of_nat (48 + Z.to_nat (n / 10)))
    (String (ascii_of_nat (48 + Z.to_nat (n mod 10))) EmptyString).

(** ** Sample configurations, oracles and documents *)

Definition clockTime (h m s : Z) : TimeData :=
  {| hours := h; minutes := m; seconds := s |}.

(** [config.js] with other settings of the time source. *)
Definition configWith (web fallback : bool) (threshold : Z) : Config := {|
  dataUrl := dataUrl defaultConfig;
  updateInterval := updateInterval defaultConfig;
  weatherUpdateInterval := weatherUpdateInterval defaultConfig;
  fadeOutDuration := fadeOutDuration defaultConfig;
  fadeInDuration := fadeInDuration defaultConfig;
  maxQuoteLength := maxQuoteLength defaultConfig;
  city := city defaultConfig;
  timeSync := {|
    useWebTime := web;
    maxDiscrepancySeconds := threshold;
    webTimeAPI := webTimeAPI (timeSync defaultConfig);
    fallbackToSystemTime := fallback |};
  wakeLockFallbackInterval := wakeLockFallbackInterval defaultConfig;
  messages := messages defaultConfig
|}.

(** A world outside that always gives the same answers. *)
Definition steadyOracles (localTime : TimeData) (fromTimeService : TimeResponse)
  (fromDataset : DatasetResponse) : Oracles := {|
  systemClock := fun _ => localTime;
  localeDate := fun _ => "Mon, Jan 6";
  timeService := fun _ => fromTimeService;
  datasetService := fun _ => fromDataset;
  weatherService := fun _ => WeatherUnreachable
|}.

Definition blankElement : Element := {| content := ""; opacity := "1" |}.

(** A page on which every selector finds its element. *)
Definition fullDocument : Document := {|
  quoteEl := Some blankElement;
  authorEl := Some blankElement;
  quoteContainerEl := Some blankElement;
  datetimeEl := Some blankElement;
  weatherEl := Some blankElement
|}.

Definition sampleQuotes : list Quote := [
  {| time := "09:41";
     quote := scenarioQuote;
     timeString := "9:41";
     title := "A Letter";
     author := "Charles Darwin" |};
  {| time := "12:00";
     quote := "At noon the bells began.";
     timeString := "noon";
     title := "First";
     author := "A. Writer" |};
  {| time := "12:00";
     quote := "It struck 12:00 and nothing happened.";
     timeString := "12:00";
     title := "Second";
     author := "B. Writer" |}
].

(** ** Notions about the refresh cycle *)

(** The callbacks that belong to the quote refresh cycle. *)
Definition isRefresh (cb : Callback) : bool :=
  match cb with
  | CbStartMinuteCycle | CbUpdateQuote | CbShowQuote _ => true
  | CbKeepAwake | CbUpdateWeather => false
  end.

(** A quote refresh is scheduled: a timer of the refresh cycle is
    registered. *)
Definition refreshScheduled (w : World) : Prop :=
  exists t, In t (timers w) /\ isRefresh (callback t) = true.

(** The page is in the fatal state: the quote container holds the error
    banner of [init]. *)
Definition fatalErrorShown (w : World) : Prop :=
  option_map content (quoteContainerEl (document w))
  = Some (errorBanner "Failed to load quotes. Please refresh the page.").

(** The dataset request did not deliver a dataset. *)
Definition datasetFails (r : DatasetResponse) : Prop :=
  match r with
  | DatasetUnreachable => True
  | DatasetResponded status body =>
      ~ (200 <= status <= 299) \/ body = None
  end.

(** The one-shot timer of the fade, the only timer [updateQuote] sets. *)
Definition isFadeTimer (config : Config) (t : Timer) : Prop :=
  repeating t = false /\ delay t = fadeOutDuration config /\
  exists matchedQuote, callback t = CbShowQuote matchedQuote.

(** A computation leaves a component of the world as it found it. *)
Definition keeps {A B} (proj : World -> B) (m : M A) : Prop :=
  forall w, proj (snd (m w)) = proj w.

(** The text the quote element holds once [q] is shown. *)
Definition shownQuoteHTML (q : Quote) : string :=
  dquote
  ++ highlightTimeString (smartTruncateQuote (quote q) (timeString q))
       (timeString q)
  ++ dquote.

(** A quote of 115 units. *)
Definition middlingQuote : Quote := {|
  time := "07:15";
  quote := "The clock on the mantelpiece said 7:15 when she finally put the book down and went to look for her shoes and hat.";
  timeString := "7:15";
  title := "Morning";
  author := "C. Writer"
|}.

(** The timers that wait to align the cycle to the minute. *)
Definition pendingAlignments (w : World) : nat :=
  List.length
    (filter (fun t => match callback t with
                      | CbStartMinuteCycle => true
                      | _ => false
                      end) (timers w)).

(** A computation adds at most [k] alignment timers. *)
Definition alignsAtMost {A} (k : nat) (m : M A) : Prop :=
  forall w, (pendingAlignments (snd (m w)) <= pendingAlignments w + k)%nat.

(** ** Notions about occurrences in a text *)

(** [pat] occurs in [s] at position [i]. *)
Definition occursAt (pat s : string) (i : Z) : Prop :=
  0 <= i <= Js.len s /\
  Js.startsWith pat (Js.drop (Z.to_nat i) s) = true.

(** The two word-boundary moves of [smartTruncateQuote], as they stand in
    the source after the window is laid. *)
Definition snapStart (quoteText : string) (startIndex : Z) : Z :=
  if startIndex >? 0 then
    let spaceIndex := Js.indexOf quoteText " " startIndex in
    if negb (spaceIndex =? -1) && (spaceIndex <? startIndex + 15)
    then spaceIndex + 1 else startIndex
  else startIndex.

Definition snapEnd (quoteText : string) (endIndex : Z) : Z :=
  if endIndex <? Js.len quoteText then
    let spaceIndex := Js.lastIndexOf quoteText " " endIndex in
    if negb (spaceIndex =? -1) && (spaceIndex >? endIndex - 15)
    then spaceIndex else endIndex
  else endIndex.

(** [pat] occurs in [s] at position [k], up to case as the regular
    expression of [highlightTimeString] compares. *)
Definition occursCI (pat s : string) (k : nat) : Prop :=
  (k <= String.length s)%nat /\
  Js.startsWithCI pat (Js.drop k s) = true.

(** The units of a text, each as a text of its own. *)
Definition unitsOf (s : string) : list string :=
  map (fun c => String c EmptyString) (list_ascii_of_string s).

(** The codes that [getWeatherCondition] has a label for. *)
Definition knownWeatherCodes : list Z :=
  [0; 1; 2; 3; 45; 48; 51; 53; 55; 61; 63; 65; 71; 73; 75; 77; 80; 81; 82;
   85; 86; 95; 96; 99].

(** What a weather response delivers: the rounded temperature and the code,
    when the status is in 200..299 and the body holds [current_weather]. *)
Definition weatherDelivered (r : WeatherResponse) : option (Z * Z) :=
  match r with
  | WeatherResponded status (Some (Some reading)) =>
      if (200 <=? status) && (status <=? 299) then Some reading else None
  | _ => None
  end.

(** What a dataset response delivers: the quotes, when the status is in
    200..299 and the body parses. *)
Definition datasetDelivered (r : DatasetResponse) : option (list Quote) :=
  match r with
  | DatasetResponded status (Some qs) =>
      if (200 <=? status) && (status <=? 299) then Some qs else None
  | _ => None
  end.

(** What no timer callback touches: the loaded quotes, the count of dataset
    requests and the quote container, where the error banner goes. *)
Definition startupState (w : World)
  : list Quote * nat * option Element :=
  (quotes w, datasetFetches w, quoteContainerEl (document w)).

(** What the date field and the resolution of the time leave alone: the
    quote and author elements, the timers and the quotes. *)
Definition quoteFields (w : World)
  : option Element * option Element * list Timer * list Quote :=
  (quoteEl (document w), authorEl (document w), timers w, quotes w).

(** Time can always be resolved under this policy: the web time is off, or
    the fallback to the system clock is on. *)
Definition timeAlwaysResolves (config : Config) : Prop :=
  useWebTime (timeSync config) = false \/
  fallbackToSystemTime (timeSync config) = true.

(** The page as [init] finds it when it calls [setupPreciseMinuteTiming]:
    what the dataset, the keep-awake interval, the date field, the weather
    field and the first quote have made of the page that was opened. *)
Definition worldBeforeAlignment (config : Config) (oracles : Oracles)
  (doc : Document) : World :=
  snd ((loadQuotes oracles ;;;
        setupFallbackKeepAwake config ;;;
        updateDateTimeDisplay config oracles ;;;
        unawaited (updateWeatherDisplay config oracles) ;;;
        updateQuote config oracles) (initialWorld doc)).

(** The intervals that refresh the quote. *)
Definition refreshIntervals (w : World) : nat :=
  List.length
    (filter (fun t => repeating t
                      && match callback t with
                         | CbUpdateQuote => true
                         | _ => false
                         end) (timers w)).

(** Every alignment to the minute is a one-shot timer. *)
Definition alignmentsOneShot (w : World) : Prop :=
  forall t, In t (timers w) -> callback t = CbStartMinuteCycle ->
            repeating t = false.

(** ** The fitter by measurement: [truncateQuoteToThreeLines] *)

(** [s.split(sep)] for a one-unit separator. *)
Fixpoint splitOn (sep : ascii) (s : string) : list string :=
  match s with
  | EmptyString => [EmptyString]
  | String c s' =>
      if Ascii.eqb c sep then EmptyString :: splitOn sep s'
      else match splitOn sep s' with
           | [] => [String c EmptyString]
           | word :: words => String c word :: words
           end
  end.

Section ThreeLines.

(** [tempElement.offsetHeight] once [innerHTML] is set to the given markup:
    the temporary element copies the style and the width of the quote
    element, so its height is a function of its content. *)
Variable offsetHeight : string -> Z.

(** The loop over the words: [truncatedText] grows by one word as long as
    the marked text with the marker behind it does not exceed [maxHeight];
    the first word that does ends the loop. *)
Fixpoint fitWords (timeString : string) (maxHeight : Z)
  (words : list string) (truncatedText : string) : string :=
  match words with
  | [] => truncatedText
  | word :: rest =>
      let testText :=
        truncatedText
        ++ (if String.eqb truncatedText "" then "" else " ") ++ word in
      let testHighlighted :=
        highlightTimeString (testText ++ "...") timeString in
      if offsetHeight (dquote ++ testHighlighted ++ dquote) >? maxHeight
      then truncatedText
      else fitWords timeString maxHeight rest testText
  end.

Definition truncateQuoteToThreeLines (doc : Document)
  (quoteText timeString : string) : string :=
  match quoteEl doc with
  | None => quoteText
  | Some _ =>
      let lineHeight := offsetHeight "Test line" in
      let maxHeight := lineHeight * 3 in
      let highlightedQuote := highlightTimeString quoteText timeString in
      if offsetHeight (dquote ++ highlightedQuote ++ dquote) <=? maxHeight
      then quoteText
      else
        let words := splitOn " " quoteText in
        fitWords timeString maxHeight words "" ++ "..."
  end.

End ThreeLines.

(** A measurement for examples: one line of 20 pixels for every 40 units
    of markup begun. *)
Definition sampleHeight (html : string) : Z :=
  20 * ((Js.len html + 39) / 40).

(** The words behind the first, each with the space that [split] took
    away. *)
Fixpoint spacedWords (words : list string) : string :=
  match words with
  | [] => EmptyString
  | word :: rest => " " ++ word ++ spacedWords rest
  end.

(** ** Sample worlds after startup *)

(** An outside world at 09:41:07 whose dataset request delivers
    [sampleQuotes]. *)
Definition deliveringOracles : Oracles :=
  steadyOracles (clockTime 9 41 7) TimeFetchFailed
    (DatasetResponded 200 (Some sampleQuotes)).

(** The page after a startup with [config.js] as it is. *)
Definition startedWorld : World :=
  snd (init defaultConfig deliveringOracles (initialWorld fullDocument)).

(** The page after the alignment timer of [startedWorld] has fired. *)
Definition alignedWorld : World :=
  snd (runCallback defaultConfig deliveringOracles CbStartMinuteCycle
         (setTimers
            [{| repeating := true; delay := 30000; callback := CbKeepAwake |};
             {| repeating := false; delay := 1000;
                callback := CbShowQuote (nth_error sampleQuotes 0) |};
             {| repeating := true; delay := 600000;
                callback := CbUpdateWeather |}]
            startedWorld)).

(** * Properties *)

(** ** Lengths and positions of the string primitives *)

Module JsFacts.
Import Js.

Lemma len_nonneg s : 0 <= len s.
Proof. unfold len; lia. Qed.

Lemma length_append (a b : string) :
  String.length (a ++ b) = (String.length a + String.length b)%nat.
Proof. induction a as [|c a IH]; simpl; [reflexivity | now rewrite IH]. Qed.

Lemma len_append (a b : string) : len (a ++ b) = len a + len b.
Proof. unfold len; rewrite length_append; lia. Qed.

Lemma length_take n s :
  String.length (take n s) = Nat.min n (String.length s).
Proof.
  revert s; induction n as [|n IH]; intros [|c s]; simpl; auto.
Qed.

Lemma length_drop n s :
  String.length (drop n s) = (String.length s - n)%nat.
Proof.
  revert s; induction n as [|n IH]; intros [|c s]; simpl; auto.
Qed.

Lemma take_all n s : (String.length s <= n)%nat -> take n s = s.
Proof.
  revert s; induction n as [|n IH]; intros [|c s]; simpl; intros H;
    try reflexivity; try lia.
  f_equal; apply IH; lia.
Qed.

Lemma len_substring s a b :
  0 <= a -> a <= b -> b <= len s -> len (substring s a b) = b - a.
Proof.
  intros Ha Hab Hb. unfold substring, clampTo, len in *.
  rewrite length_take, length_drop. lia.
Qed.

(** A text without U+0130 is lower-cased unit by unit. *)
Lemma hasUnit_cons u c s :
  hasUnit u (String c s) = false -> Ascii.eqb c u = false /\ hasUnit u s = false.
Proof. simpl. now intros H%orb_false_iff. Qed.

Lemma toLowerCase_cons c s :
  Ascii.eqb c dottedCapitalI = false ->
  toLowerCase (String c s) = String (toLowerUnit c) (toLowerCase s).
Proof. intros H. simpl. now rewrite H. Qed.

Lemma len_toLowerCase s :
  hasUnit dottedCapitalI s = false -> len (toLowerCase s) = len s.
Proof.
  unfold len; intros H; f_equal.
  induction s as [|c s IH]; [reflexivity |].
  apply hasUnit_cons in H as [Hc Hs].
  rewrite toLowerCase_cons by exact Hc. simpl. now rewrite IH.
Qed.

Lemma hasUnit_drop u n s :
  hasUnit u s = false -> hasUnit u (drop n s) = false.
Proof.
  revert s; induction n as [|n IH]; intros [|c s] H; simpl; try exact H.
  apply hasUnit_cons in H as [_ Hs]. now apply IH.
Qed.

Lemma hasUnit_take u n s :
  hasUnit u s = false -> hasUnit u (take n s) = false.
Proof.
  revert s; induction n as [|n IH]; intros [|c s] H; simpl; try reflexivity.
  apply hasUnit_cons in H as [Hc Hs]. rewrite Hc. now apply IH.
Qed.

Lemma startsWith_length pat s :
  startsWith pat s = true -> (String.length pat <= String.length s)%nat.
Proof.
  revert s; induction pat as [|a pat IH]; intros [|b s]; simpl;
    intros H; try lia; try discriminate.
  apply andb_true_iff in H as [_ H]. apply IH in H. lia.
Qed.

Lemma indexOfFrom_bounds pat s pos :
  indexOfFrom pat s pos = -1 \/
  (pos <= indexOfFrom pat s pos /\
   indexOfFrom pat s pos + len pat <= pos + len s).
Proof.
  revert pos; induction s as [|c s IH]; intros pos.
  - cbn [indexOfFrom]. destruct (startsWith pat EmptyString) eqn:E.
    + right. apply startsWith_length in E. unfold len. lia.
    + now left.
  - cbn [indexOfFrom]. destruct (startsWith pat (String c s)) eqn:E.
    + right. apply startsWith_length in E. unfold len. lia.
    + destruct (IH (pos + 1)) as [H | [H1 H2]]; [now left | right].
      unfold len in *; cbn [String.length]; lia.
Qed.

(** [indexOf] answers [-1] or a position at or after the clamped start at
    which the pattern still fits. *)
Lemma indexOf_bounds s pat from :
  indexOf s pat from = -1 \/
  (clampTo s from <= indexOf s pat from /\
   indexOf s pat from + len pat <= len s).
Proof.
  unfold indexOf.
  destruct (indexOfFrom_bounds pat
              (drop (Z.to_nat (clampTo s from)) s) (clampTo s from))
    as [H | [H1 H2]]; [now left | right].
  split; [exact H1 |].
  unfold len, clampTo in *. rewrite length_drop in H2.
  unfold len in *. lia.
Qed.

Lemma lastIndexOfUpTo_bounds pat s pos limit best :
  lastIndexOfUpTo pat s pos limit best = best \/
  (pos <= lastIndexOfUpTo pat s pos limit best /\
   lastIndexOfUpTo pat s pos limit best <= limit).
Proof.
  revert pos best; induction s as [|c s IH]; intros pos best.
  - cbn [lastIndexOfUpTo].
    destruct (pos <=? limit) eqn:E; cbn [andb];
      [destruct (startsWith pat EmptyString) |]; auto.
    right; lia.
  - cbn [lastIndexOfUpTo].
    destruct (pos <=? limit) eqn:E; cbn [andb].
    + destruct (startsWith pat (String c s)).
      * destruct (IH (pos + 1) pos) as [H | H]; right; lia.
      * destruct (IH (pos + 1) best) as [H | H]; [now left | right; lia].
    + destruct (IH (pos + 1) best) as [H | H]; [now left | right; lia].
Qed.

(** [lastIndexOf] answers [-1] or a position between [0] and the start. *)
Lemma lastIndexOf_bounds s pat from :
  lastIndexOf s pat from = -1 \/
  (0 <= lastIndexOf s pat from /\ lastIndexOf s pat from <= Z.max from 0).
Proof.
  unfold lastIndexOf.
  destruct (lastIndexOfUpTo_bounds pat s 0 (Z.max from 0) (-1)); auto.
Qed.

End JsFacts.

(** ** The pattern of [highlightTimeString] *)

(** The escaped token, read back as a pattern, matches the token itself. *)
Lemma patternLiteral_escapeRegExp timeString :
  patternLiteral (escapeRegExp timeString) = timeString.
Proof.
  induction timeString as [| c rest IH]; [reflexivity |].
  cbn [escapeRegExp].
  destruct (regexSyntaxUnit c) eqn:E.
  - cbn [patternLiteral]. now rewrite IH.
  - destruct c as [[] [] [] [] [] [] [] []];
      try discriminate E; cbn [patternLiteral]; now rewrite IH.
Qed.

(** Where the lower case of a unit is one unit, it and the case folding of
    the regular expression identify the same units. *)
Lemma canonicalize_toLowerUnit a b :
  Js.canonicalize a = Js.canonicalize b <-> Js.toLowerUnit a = Js.toLowerUnit b.
Proof.
  assert (Hall : forallb
                   (fun x => forallb
                      (fun y =>
                         Bool.eqb
                           (Ascii.eqb (Js.canonicalize (ascii_of_nat x))
                              (Js.canonicalize (ascii_of_nat y)))
                           (Ascii.eqb (Js.toLowerUnit (ascii_of_nat x))
                              (Js.toLowerUnit (ascii_of_nat y))))
                      (seq 0 256))
                   (seq 0 256) = true) by (vm_compute; reflexivity).
  rewrite forallb_forall in Hall.
  specialize (Hall (nat_of_ascii a)).
  rewrite forallb_forall in Hall.
  specialize (Hall ltac:(apply in_seq; pose proof (nat_ascii_bounded a); lia)
                (nat_of_ascii b)
                ltac:(apply in_seq; pose proof (nat_ascii_bounded b); lia)).
  rewrite !ascii_nat_embedding in Hall.
  apply Bool.eqb_prop in Hall.
  rewrite <- !Ascii.eqb_eq. now rewrite Hall.
Qed.

(** U+0130 is equal up to case to itself only. *)
Lemma canonicalize_dottedCapitalI a b :
  Js.canonicalize a = Js.canonicalize b ->
  Ascii.eqb a Js.dottedCapitalI = Ascii.eqb b Js.dottedCapitalI.
Proof.
  assert (Hall : forallb
                   (fun x => forallb
                      (fun y =>
                         implb
                           (Ascii.eqb (Js.canonicalize (ascii_of_nat x))
                              (Js.canonicalize (ascii_of_nat y)))
                           (Bool.eqb
                              (Ascii.eqb (ascii_of_nat x) Js.dottedCapitalI)
                              (Ascii.eqb (ascii_of_nat y) Js.dottedCapitalI)))
                      (seq 0 256))
                   (seq 0 256) = true) by (vm_compute; reflexivity).
  rewrite forallb_forall in Hall.
  specialize (Hall (nat_of_ascii a)).
  rewrite forallb_forall in Hall.
  specialize (Hall ltac:(apply in_seq; pose proof (nat_ascii_bounded a); lia)
                (nat_of_ascii b)
                ltac:(apply in_seq; pose proof (nat_ascii_bounded b); lia)).
  rewrite !ascii_nat_embedding in Hall.
  intros E. apply Ascii.eqb_eq in E. rewrite E in Hall. cbn [implb] in Hall.
  now apply Bool.eqb_prop in Hall.
Qed.

(** ** The window of [smartTruncateQuote] *)

Section Window.
Import Js JsFacts.

Variables quoteText timeString : string.
Hypothesis long : len quoteText > maxLength.

Ltac window_cases :=
  repeat match goal with
    | |- context [if ?b then _ else _] => destruct b eqn:?
    | H : context [if ?b then _ else _] |- _ => destruct b eqn:?
    end.

(** The window stays inside the text, is never wider than the budget and
    loses at most 15 units on the left and 14 on the right to the word
    boundaries. *)
Lemma truncationWindow_bounds timeIndex startIndex endIndex :
  truncationWindow quoteText timeString timeIndex = (startIndex, endIndex) ->
  0 <= startIndex /\ startIndex < endIndex /\ endIndex <= len quoteText /\
  endIndex - startIndex <= maxLength /\
  maxLength - 29 <= endIndex - startIndex.
Proof.
  unfold truncationWindow, maxLength in *.
  set (s0 := Z.max 0 _). set (e0 := Z.min _ _).
  intros H.
  destruct ((e0 =? len quoteText) && (len quoteText >? 120)) eqn:E1.
  - cbn iota beta in H.
    set (s1 := Z.max 0 (len quoteText - 120)) in *.
    assert (Hs1 : s1 = len quoteText - 120) by (subst s1; lia).
    destruct (indexOf_bounds quoteText " " s1) as [Hi | Hi];
      destruct (lastIndexOf_bounds quoteText " " (len quoteText))
        as [Hl | Hl];
      unfold clampTo in *; window_cases;
      injection H as <- <-; lia.
  - cbn iota beta in H.
    assert (He0 : e0 = s0 + 120 /\ s0 + 120 < len quoteText)
      by (subst e0; lia).
    destruct He0 as [He0 He0'].
    assert (Hs0 : 0 <= s0) by (subst s0; lia).
    destruct (indexOf_bounds quoteText " " s0) as [Hi | Hi];
      unfold clampTo in *.
    + destruct (lastIndexOf_bounds quoteText " " e0) as [Hl | Hl];
        destruct (lastIndexOf_bounds quoteText " "
                    (Z.min (len quoteText) 120)) as [Hl' | Hl'];
        window_cases; injection H as <- <-; lia.
    + destruct (lastIndexOf_bounds quoteText " " e0) as [Hl | Hl];
        destruct (lastIndexOf_bounds quoteText " "
                    (Z.min (len quoteText) 120)) as [Hl' | Hl'];
        window_cases; injection H as <- <-; lia.
Qed.

(** A token of at most 90 units found at [timeIndex] keeps at least 15
    units of text on its left and 14 on its right inside the window before
    the edges move to word boundaries, so it stays inside afterwards. *)
Lemma truncationWindow_holds_token timeIndex startIndex endIndex :
  len timeString <= 90 ->
  0 <= timeIndex ->
  timeIndex + len timeString <= len quoteText ->
  truncationWindow quoteText timeString timeIndex = (startIndex, endIndex) ->
  startIndex <= timeIndex /\ timeIndex + len timeString <= endIndex.
Proof.
  intros Hshort Hlo Hhi.
  pose proof (len_nonneg timeString) as Hlen.
  unfold truncationWindow, maxLength in *.
  assert (Hhalf : 15 <= (120 - len timeString) / 2 /\
                  2 * ((120 - len timeString) / 2) <= 120 - len timeString)
    by (split; [apply Z.div_le_lower_bound | apply Z.mul_div_le]; lia).
  set (half := (120 - len timeString) / 2) in *.
  set (s0 := Z.max 0 _). set (e0 := Z.min _ _).
  intros H.
  destruct ((e0 =? len quoteText) && (len quoteText >? 120)) eqn:E1.
  - cbn iota beta in H.
    set (s1 := Z.max 0 (len quoteText - 120)) in *.
    assert (Hs1 : s1 = len quoteText - 120 /\ s1 <= s0)
      by (subst s1 s0 e0; lia).
    destruct (indexOf_bounds quoteText " " s1) as [Hi | Hi];
      destruct (lastIndexOf_bounds quoteText " " (len quoteText))
        as [Hl | Hl];
      unfold clampTo in *; window_cases;
      injection H as <- <-; subst s0; lia.
  - cbn iota beta in H.
    assert (He0 : e0 = s0 + 120 /\ s0 + 120 < len quoteText)
      by (subst e0; lia).
    destruct He0 as [He0 He0'].
    assert (Hs0 : 0 <= s0 /\ s0 <= timeIndex /\
                  (s0 = 0 \/ s0 = timeIndex - half))
      by (subst s0; lia).
    destruct (indexOf_bounds quoteText " " s0) as [Hi | Hi];
      unfold clampTo in *.
    + destruct (lastIndexOf_bounds quoteText " " e0) as [Hl | Hl];
        destruct (lastIndexOf_bounds quoteText " "
                    (Z.min (len quoteText) 120)) as [Hl' | Hl'];
        window_cases; injection H as <- <-; lia.
    + destruct (lastIndexOf_bounds quoteText " " e0) as [Hl | Hl];
        destruct (lastIndexOf_bounds quoteText " "
                    (Z.min (len quoteText) 120)) as [Hl' | Hl'];
        window_cases; injection H as <- <-; lia.
Qed.

End Window.

(** ** The quote fitter: what [smartTruncateQuote] returns *)

Section Fitter.
Import Js JsFacts.

(** A text within the budget comes back as it is. *)
Lemma smartTruncateQuote_short quoteText timeString :
  len quoteText <= maxLength ->
  smartTruncateQuote quoteText timeString = quoteText.
Proof.
  intros H. unfold smartTruncateQuote.
  apply Z.leb_le in H. now rewrite H.
Qed.

(** A longer text comes back no longer than the budget and two markers,
    whatever the token. *)
Lemma smartTruncateQuote_length quoteText timeString :
  len quoteText > maxLength ->
  len (smartTruncateQuote quoteText timeString) <= maxLength + 2 * len "...".
Proof.
  intros Hlong. unfold smartTruncateQuote.
  destruct (len quoteText <=? maxLength) eqn:E;
    [apply Z.leb_le in E; lia |].
  destruct (_ =? -1) eqn:Efound.
  - rewrite len_append, len_substring; unfold maxLength in *;
      change (len "...") with 3; lia.
  - destruct (truncationWindow quoteText timeString _)
      as [startIndex endIndex] eqn:W.
    apply truncationWindow_bounds in W; [| exact Hlong].
    destruct W as (H0 & H1 & H2 & H3 & _).
    destruct (startIndex >? 0), (endIndex <? len quoteText);
      rewrite ?len_append, len_substring by lia;
      unfold maxLength in *; change (len "...") with 3; lia.
Qed.

(** The occurrence found in the lower-cased text lies inside the text. *)
Lemma timeIndex_inside quoteText timeString :
  lowersInPlace quoteText -> lowersInPlace timeString ->
  let timeIndex := indexOf (toLowerCase quoteText) (toLowerCase timeString) 0 in
  timeIndex <> -1 ->
  0 <= timeIndex /\ timeIndex + len timeString <= len quoteText.
Proof.
  intros Hq Ht timeIndex Hfound. subst timeIndex.
  destruct (indexOf_bounds (toLowerCase quoteText) (toLowerCase timeString) 0)
    as [H | [H1 H2]]; [contradiction |].
  rewrite !len_toLowerCase in H2 by assumption. unfold clampTo in H1.
  rewrite len_toLowerCase in H1 by assumption.
  pose proof (len_nonneg quoteText). lia.
Qed.

(** C4 (as amended): a text that fits the budget of 120 comes back unchanged,
    whatever the token; the quote of the scenario, which has 87 units, comes
    back unchanged for the token "9:41". *)
Theorem smartTruncateQuote_fits_unchanged quoteText timeString :
  len quoteText <= maxLength ->
  smartTruncateQuote quoteText timeString = quoteText /\
  len scenarioQuote = 87 /\
  smartTruncateQuote scenarioQuote "9:41" = scenarioQuote.
Proof.
  intros H. split; [now apply smartTruncateQuote_short |].
  split; vm_compute; reflexivity.
Qed.

Lemma smartTruncateQuote_fits_unchanged_witness :
  len "It was 9:41 when the train left." <= maxLength /\
  smartTruncateQuote "It was 9:41 when the train left." "9:41"
  = "It was 9:41 when the train left.".
Proof.
  assert (H : len "It was 9:41 when the train left." <= maxLength)
    by (vm_compute; discriminate).
  split; [exact H |].
  exact (proj1 (smartTruncateQuote_fits_unchanged _ "9:41" H)).
Defined.

(** C4 (as stated) fails on the length it gives for the scenario: the quote
    has 87 units, not 97. *)
Lemma scenarioQuote_is_not_97_long :
  ~ (len scenarioQuote = 97 /\
     smartTruncateQuote scenarioQuote "9:41" = scenarioQuote).
Proof. intros [H _]. vm_compute in H. discriminate. Qed.

End Fitter.

(** ** The time resolver: what [getCurrentTime] returns *)

Lemma timeData_eta (t : TimeData) :
  {| hours := hours t; minutes := minutes t; seconds := seconds t |} = t.
Proof. now destruct t. Qed.

(** [getCurrentTime] case by case: the answer and the world it leaves. *)
Lemma getCurrentTime_cases config oracles w :
  getCurrentTime config oracles w =
  let localTime := systemClock oracles (clockReads w) in
  if negb (useWebTime (timeSync config)) then (Returned localTime, tickClock w)
  else
    match timeService oracles (timeFetches w) with
    | TimeFetchFailed =>
        if fallbackToSystemTime (timeSync config)
        then (Returned (systemClock oracles (S (clockReads w))),
              tickClock (tickTimeFetch (tickClock w)))
        else (Thrown TimeUnavailable, tickTimeFetch (tickClock w))
    | TimeFetched InvalidDate =>
        (Returned localTime, tickTimeFetch (tickClock w))
    | TimeFetched (ValidDate networkTime) =>
        (Returned
           (if discrepancySeconds localTime networkTime
               >? maxDiscrepancySeconds (timeSync config)
            then networkTime else localTime),
         tickTimeFetch (tickClock w))
    end.
Proof.
  unfold getCurrentTime, tryCatch, bind, newDate, fetchWebTime, ret, throw,
    getHours, getMinutes, getSeconds.
  cbn [fst snd clockReads timeFetches tickClock].
  rewrite timeData_eta.
  destruct (useWebTime (timeSync config)); cbn [negb]; [| reflexivity].
  cbn [timeFetches tickClock].
  destruct (timeService oracles (timeFetches w)) as [| [networkTime |]].
  - destruct (fallbackToSystemTime (timeSync config)); [| reflexivity].
    cbn [clockReads tickTimeFetch tickClock]. now rewrite timeData_eta.
  - rewrite timeData_eta.
    unfold discrepancySeconds, minutesOfDay.
    now destruct (_ >? _).
  - reflexivity.
Qed.

(** With the web time enabled and a date fetched, the answer turns on the
    discrepancy alone. *)
Lemma getCurrentTime_fetched config oracles w networkTime :
  useWebTime (timeSync config) = true ->
  timeService oracles (timeFetches w) = TimeFetched (ValidDate networkTime) ->
  fst (getCurrentTime config oracles w)
  = Returned
      (if discrepancySeconds (systemClock oracles (clockReads w)) networkTime
          >? maxDiscrepancySeconds (timeSync config)
       then networkTime else systemClock oracles (clockReads w)).
Proof.
  intros Hweb Hfetch. rewrite getCurrentTime_cases.
  now rewrite Hweb, Hfetch.
Qed.

(** C2: with the web time enabled and fetched, the discrepancy is the
    absolute difference of the two minutes of the day times 60, and the
    network time is returned exactly when it exceeds the threshold, the local
    time otherwise. *)
Theorem getCurrentTime_web_fetched config oracles w networkTime :
  useWebTime (timeSync config) = true ->
  timeService oracles (timeFetches w) = TimeFetched (ValidDate networkTime) ->
  let localTime := systemClock oracles (clockReads w) in
  discrepancySeconds localTime networkTime
  = Z.abs ((hours localTime * 60 + minutes localTime)
           - (hours networkTime * 60 + minutes networkTime)) * 60 /\
  (discrepancySeconds localTime networkTime
     > maxDiscrepancySeconds (timeSync config) ->
   fst (getCurrentTime config oracles w) = Returned networkTime) /\
  (discrepancySeconds localTime networkTime
     <= maxDiscrepancySeconds (timeSync config) ->
   fst (getCurrentTime config oracles w) = Returned localTime).
Proof.
  intros Hweb Hfetch localTime.
  rewrite (getCurrentTime_fetched config oracles w networkTime Hweb Hfetch).
  fold localTime.
  split; [reflexivity |]. split; intros H.
  - apply Z.gt_lt, Z.gtb_lt in H. now rewrite H.
  - destruct (_ >? _) eqn:E; [apply Z.gtb_lt in E; lia | reflexivity].
Qed.

(** The two scenarios of the specification: at 12:00:00 with a threshold of
    30 seconds, a network time of 12:00:20 gives the local time and a network
    time of 12:05:00 gives the network time. *)
Lemma getCurrentTime_web_fetched_witness :
  fst (getCurrentTime (configWith true true 30)
         (steadyOracles (clockTime 12 0 0)
            (TimeFetched (ValidDate (clockTime 12 0 20))) DatasetUnreachable)
         (initialWorld fullDocument))
  = Returned (clockTime 12 0 0) /\
  fst (getCurrentTime (configWith true true 30)
         (steadyOracles (clockTime 12 0 0)
            (TimeFetched (ValidDate (clockTime 12 5 0))) DatasetUnreachable)
         (initialWorld fullDocument))
  = Returned (clockTime 12 5 0).
Proof.
  split.
  - apply (getCurrentTime_web_fetched (configWith true true 30)
             (steadyOracles (clockTime 12 0 0)
                (TimeFetched (ValidDate (clockTime 12 0 20)))
                DatasetUnreachable)
             (initialWorld fullDocument) (clockTime 12 0 20));
      [reflexivity | reflexivity | vm_compute; discriminate].
  - apply (getCurrentTime_web_fetched (configWith true true 30)
             (steadyOracles (clockTime 12 0 0)
                (TimeFetched (ValidDate (clockTime 12 5 0)))
                DatasetUnreachable)
             (initialWorld fullDocument) (clockTime 12 5 0));
      [reflexivity | reflexivity | vm_compute; reflexivity].
Defined.



(** Two valid times of day one second apart and in different minutes are in
    neighbouring minutes of one day, or are the last second of the day and
    midnight. *)
Lemma oneSecondApart_minutes a b :
  validTime a -> validTime b -> oneSecondApart a b ->
  minutesOfDay a <> minutesOfDay b ->
  (Z.abs (secondsOfDay a - secondsOfDay b) = 1 /\
   discrepancySeconds a b = 60) \/
  (Z.abs (secondsOfDay a - secondsOfDay b) = 86399 /\
   discrepancySeconds a b = 86340).
Proof.
  unfold validTime, oneSecondApart, discrepancySeconds, minutesOfDay,
    secondsOfDay.
  destruct a as [ha ma sa], b as [hb mb sb]; cbn [hours minutes seconds].
  intros Ha Hb Hapart Hminutes.
  destruct Hapart as [H | H].
  - pose proof (Z.div_mod (ha * 3600 + ma * 60 + sa
                           - (hb * 3600 + mb * 60 + sb)) 86400
                  ltac:(discriminate)) as Hdm.
    rewrite H in Hdm.
    set (q := _ / 86400) in Hdm.
    assert (Hq : q = 0 \/ q = -1) by lia.
    destruct Hq as [Hq | Hq]; rewrite Hq in Hdm; [left | right]; lia.
  - pose proof (Z.div_mod (hb * 3600 + mb * 60 + sb
                           - (ha * 3600 + ma * 60 + sa)) 86400
                  ltac:(discriminate)) as Hdm.
    rewrite H in Hdm.
    set (q := _ / 86400) in Hdm.
    assert (Hq : q = 0 \/ q = -1) by lia.
    destruct Hq as [Hq | Hq]; rewrite Hq in Hdm; [left | right]; lia.
Qed.

(** C10 (as amended): the two sources are compared minute by minute.  When
    local and network time have the same hours and minutes, the local time is
    returned whatever their seconds, for every threshold that is not
    negative.  When the two are one second apart and in different minutes, the
    discrepancy is 60 seconds (86340 seconds when the minute boundary between
    them is midnight), and the network time is returned for every threshold
    below 60. *)
Theorem getCurrentTime_minute_granularity config oracles w networkTime :
  useWebTime (timeSync config) = true ->
  timeService oracles (timeFetches w) = TimeFetched (ValidDate networkTime) ->
  let localTime := systemClock oracles (clockReads w) in
  (hours localTime = hours networkTime ->
   minutes localTime = minutes networkTime ->
   0 <= maxDiscrepancySeconds (timeSync config) ->
   fst (getCurrentTime config oracles w) = Returned localTime) /\
  (validTime localTime -> validTime networkTime ->
   oneSecondApart localTime networkTime ->
   minutesOfDay localTime <> minutesOfDay networkTime ->
   ((Z.abs (secondsOfDay localTime - secondsOfDay networkTime) = 1 /\
     discrepancySeconds localTime networkTime = 60) \/
    (Z.abs (secondsOfDay localTime - secondsOfDay networkTime) = 86399 /\
     discrepancySeconds localTime networkTime = 86340)) /\
   (maxDiscrepancySeconds (timeSync config) < 60 ->
    fst (getCurrentTime config oracles w) = Returned networkTime)).
Proof.
  intros Hweb Hfetch localTime.
  rewrite (getCurrentTime_fetched config oracles w networkTime Hweb Hfetch).
  fold localTime.
  split.
  - intros Hh Hm Hthreshold.
    replace (discrepancySeconds localTime networkTime) with 0
      by (unfold discrepancySeconds, minutesOfDay; rewrite Hh, Hm; lia).
    destruct (Z.gtb_spec 0 (maxDiscrepancySeconds (timeSync config)));
      [lia | reflexivity].
  - intros Hl Hn Hapart Hminutes.
    pose proof (oneSecondApart_minutes _ _ Hl Hn Hapart Hminutes) as Hd.
    split; [exact Hd |].
    intros Hthreshold.
    destruct (Z.gtb_spec (discrepancySeconds localTime networkTime)
                (maxDiscrepancySeconds (timeSync config)));
      [reflexivity | lia].
Qed.

Lemma getCurrentTime_minute_granularity_witness :
  fst (getCurrentTime (configWith true true 30)
         (steadyOracles (clockTime 12 0 1)
            (TimeFetched (ValidDate (clockTime 12 0 58))) DatasetUnreachable)
         (initialWorld fullDocument))
  = Returned (clockTime 12 0 1) /\
  discrepancySeconds (clockTime 12 0 59) (clockTime 12 1 0) = 60 /\
  fst (getCurrentTime (configWith true true 30)
         (steadyOracles (clockTime 12 0 59)
            (TimeFetched (ValidDate (clockTime 12 1 0))) DatasetUnreachable)
         (initialWorld fullDocument))
  = Returned (clockTime 12 1 0).
Proof.
  destruct (getCurrentTime_minute_granularity (configWith true true 30)
              (steadyOracles (clockTime 12 0 1)
                 (TimeFetched (ValidDate (clockTime 12 0 58)))
                 DatasetUnreachable)
              (initialWorld fullDocument) (clockTime 12 0 58)
              eq_refl eq_refl) as [Hsame _].
  destruct (getCurrentTime_minute_granularity (configWith true true 30)
              (steadyOracles (clockTime 12 0 59)
                 (TimeFetched (ValidDate (clockTime 12 1 0)))
                 DatasetUnreachable)
              (initialWorld fullDocument) (clockTime 12 1 0)
              eq_refl eq_refl) as [_ Hcross].
  split; [apply Hsame; [reflexivity | reflexivity | vm_compute; discriminate] |].
  destruct Hcross as [Hd Hnet].
  - vm_compute; intuition discriminate.
  - vm_compute; intuition discriminate.
  - right; vm_compute; reflexivity.
  - vm_compute; discriminate.
  - split; [vm_compute; reflexivity | apply Hnet; vm_compute; reflexivity].
Defined.

(** C10 (as stated) fails twice.  With the threshold -1 the network time
    12:00:20 is returned at 12:00:00 though hours and minutes agree; and
    23:59:59 and 00:00:00, one second apart across a minute boundary, give a
    discrepancy of 86340 seconds, not 60. *)
Lemma getCurrentTime_minute_granularity_fails :
  ~ (forall config oracles w networkTime,
        useWebTime (timeSync config) = true ->
        timeService oracles (timeFetches w)
        = TimeFetched (ValidDate networkTime) ->
        hours (systemClock oracles (clockReads w)) = hours networkTime ->
        minutes (systemClock oracles (clockReads w)) = minutes networkTime ->
        fst (getCurrentTime config oracles w)
        = Returned (systemClock oracles (clockReads w))) /\
  ~ (forall localTime networkTime,
        validTime localTime -> validTime networkTime ->
        oneSecondApart localTime networkTime ->
        minutesOfDay localTime <> minutesOfDay networkTime ->
        discrepancySeconds localTime networkTime = 60).
Proof.
  split; intros H.
  - specialize (H (configWith true true (-1))
                  (steadyOracles (clockTime 12 0 0)
                     (TimeFetched (ValidDate (clockTime 12 0 20)))
                     DatasetUnreachable)
                  (initialWorld fullDocument) (clockTime 12 0 20)
                  eq_refl eq_refl eq_refl eq_refl).
    vm_compute in H. discriminate.
  - specialize (H (clockTime 23 59 59) (clockTime 0 0 0)).
    assert (Hd : discrepancySeconds (clockTime 23 59 59) (clockTime 0 0 0)
                 = 60).
    { apply H.
      - vm_compute; intuition discriminate.
      - vm_compute; intuition discriminate.
      - right; vm_compute; reflexivity.
      - vm_compute; discriminate. }
    vm_compute in Hd. discriminate.
Qed.

(** ** The quote index: what [findQuoteForCurrentTime] returns *)

(** [getCurrentTime] reads the clock and may call the time service; the
    quotes, the document and the timers are as before. *)
Lemma getCurrentTime_frame config oracles w :
  quotes (snd (getCurrentTime config oracles w)) = quotes w /\
  document (snd (getCurrentTime config oracles w)) = document w /\
  timers (snd (getCurrentTime config oracles w)) = timers w.
Proof.
  rewrite getCurrentTime_cases. cbv zeta.
  destruct (useWebTime (timeSync config)); cbn [negb];
    [| now repeat split].
  destruct (timeService oracles (timeFetches w)) as [| [networkTime |]];
    [destruct (fallbackToSystemTime (timeSync config)) | |];
    now repeat split.
Qed.

Lemma padStart_twoDigits n :
  0 <= n < 100 -> Js.padStart (Js.ofInt n) 2 "0" = twoDigits n.
Proof.
  intros Hn.
  assert (Hall : forallb
                   (fun k => String.eqb
                               (Js.padStart (Js.ofInt (Z.of_nat k)) 2 "0")
                               (twoDigits (Z.of_nat k)))
                   (seq 0 100) = true) by (vm_compute; reflexivity).
  rewrite forallb_forall in Hall.
  specialize (Hall (Z.to_nat n)).
  rewrite Z2Nat.id in Hall by lia.
  apply String.eqb_eq, Hall, in_seq. lia.
Qed.

(** [Array.prototype.find]: the first element that passes the test. *)
Lemma find_first {A} (f : A -> bool) (l : list A) (x : A) :
  find f l = Some x <->
  exists before after,
    l = (before ++ x :: after)%list /\ f x = true /\
    forall y, In y before -> f y = false.
Proof.
  induction l as [|a l IH]; cbn [find].
  - split; [discriminate |].
    intros (before & after & H & _). now destruct before.
  - destruct (f a) eqn:Fa.
    + split.
      * intros [= <-]. exists [], l. now repeat split.
      * intros ([|b before] & after & H & Hx & Hfirst).
        -- now injection H as ->.
        -- injection H as <- _.
           rewrite (Hfirst a) in Fa; [discriminate | now left].
    + rewrite IH. split.
      * intros (before & after & -> & Hx & Hfirst).
        exists (a :: before), after. repeat split; auto.
        intros y [<- | Hy]; auto.
      * intros ([|b before] & after & H & Hx & Hfirst).
        -- injection H as -> _. congruence.
        -- injection H as <- ->. exists before, after.
           repeat split; auto. intros y Hy. apply Hfirst. now right.
Qed.

Lemma find_nothing {A} (f : A -> bool) (l : list A) :
  find f l = None <-> forall y, In y l -> f y = false.
Proof.
  split; [apply find_none |].
  induction l as [|a l IH]; cbn [find]; intros H; [reflexivity |].
  rewrite (H a) by now left. apply IH. intros y Hy. apply H. now right.
Qed.

(** C5: once the time is resolved, [findQuoteForCurrentTime] returns the
    first record of [quotes] whose [time] is exactly the resolved time
    written as zero-padded "HH:MM", and returns nothing, without throwing,
    exactly when no record has that [time]; no other record is ever
    returned. *)
Theorem findQuoteForCurrentTime_exact config oracles w t w' :
  getCurrentTime config oracles w = (Returned t, w') ->
  let key := formatTime (hours t) (minutes t) in
  exists found,
    findQuoteForCurrentTime config oracles w = (Returned found, w') /\
    (forall q,
        found = Some q <->
        exists before after,
          quotes w = (before ++ q :: after)%list /\ time q = key /\
          forall q', In q' before -> time q' <> key) /\
    (found = None <-> forall q, In q (quotes w) -> time q <> key) /\
    (0 <= hours t < 24 -> 0 <= minutes t < 60 ->
     key = twoDigits (hours t) ++ ":" ++ twoDigits (minutes t)).
Proof.
  intros Htime key.
  pose proof (getCurrentTime_frame config oracles w) as (Hq & _).
  rewrite Htime in Hq. cbn [snd] in Hq.
  exists (find (fun q => String.eqb (time q) key) (quotes w)).
  split; [| split; [| split]].
  - unfold findQuoteForCurrentTime, bind, get, ret.
    rewrite Htime. now rewrite Hq.
  - intros q. rewrite find_first. split.
    + intros (before & after & H & Hkey & Hfirst).
      exists before, after. repeat split; auto.
      * now apply String.eqb_eq.
      * intros q' Hq'. apply String.eqb_neq. auto.
    + intros (before & after & H & Hkey & Hfirst).
      exists before, after. repeat split; auto.
      * now apply String.eqb_eq.
      * intros q' Hq'. apply String.eqb_neq. auto.
  - rewrite find_nothing. split; intros H q Hin.
    + apply String.eqb_neq. auto.
    + apply String.eqb_neq. auto.
  - intros Hh Hm. unfold key, formatTime.
    now rewrite !padStart_twoDigits by lia.
Qed.

(** At 12:00 the first of the two records filed under "12:00" is found; at
    09:42 nothing is. *)
Lemma findQuoteForCurrentTime_exact_witness :
  (exists found,
      findQuoteForCurrentTime defaultConfig
        (steadyOracles (clockTime 12 0 5) TimeFetchFailed DatasetUnreachable)
        (setQuotes sampleQuotes (initialWorld fullDocument))
      = (Returned found,
         tickClock (setQuotes sampleQuotes (initialWorld fullDocument))) /\
      (forall q,
          found = Some q <->
          exists before after,
            sampleQuotes = (before ++ q :: after)%list /\
            time q = "12:00" /\
            forall q', In q' before -> time q' <> "12:00") /\
      (found = None <->
       forall q, In q sampleQuotes -> time q <> "12:00") /\
      (0 <= 12 < 24 -> 0 <= 0 < 60 ->
       "12:00" = twoDigits 12 ++ ":" ++ twoDigits 0)) /\
  fst (findQuoteForCurrentTime defaultConfig
         (steadyOracles (clockTime 12 0 5) TimeFetchFailed DatasetUnreachable)
         (setQuotes sampleQuotes (initialWorld fullDocument)))
  = Returned (nth_error sampleQuotes 1) /\
  fst (findQuoteForCurrentTime defaultConfig
         (steadyOracles (clockTime 9 42 0) TimeFetchFailed DatasetUnreachable)
         (setQuotes sampleQuotes (initialWorld fullDocument)))
  = Returned None.
Proof.
  split; [| split; reflexivity].
  apply (findQuoteForCurrentTime_exact defaultConfig
           (steadyOracles (clockTime 12 0 5) TimeFetchFailed
              DatasetUnreachable)
           (setQuotes sampleQuotes (initialWorld fullDocument))
           (clockTime 12 0 5)).
  reflexivity.
Defined.

(** ** What the functions leave untouched *)

Section Frames.
Context {B : Type} (proj : World -> B).

Lemma keeps_ret {A} (a : A) : keeps proj (ret a).
Proof. now intros w. Qed.

Lemma keeps_throw {A} e : keeps proj (@throw A e).
Proof. now intros w. Qed.

Lemma keeps_get : keeps proj get.
Proof. now intros w. Qed.

Lemma keeps_modify f :
  (forall w, proj (f w) = proj w) -> keeps proj (modify f).
Proof. intros H w. apply H. Qed.

Lemma keeps_bind {A C} (m : M A) (k : A -> M C) :
  keeps proj m -> (forall a, keeps proj (k a)) -> keeps proj (bind m k).
Proof.
  intros Hm Hk w. unfold bind. specialize (Hm w).
  destruct (m w) as [[a | e] w1]; cbn [snd] in *; [| exact Hm].
  now rewrite Hk.
Qed.

Lemma keeps_tryCatch {A} (body : M A) handler :
  keeps proj body -> (forall e, keeps proj (handler e)) ->
  keeps proj (tryCatch body handler).
Proof.
  intros Hm Hk w. unfold tryCatch. specialize (Hm w).
  destruct (body w) as [[a | e] w1]; cbn [snd] in *; [exact Hm |].
  now rewrite Hk.
Qed.

Lemma keeps_unawaited {A} (m : M A) :
  keeps proj m -> keeps proj (unawaited m).
Proof. intros Hm w. apply Hm. Qed.

End Frames.

Create HintDb frame discriminated.
#[local] Hint Resolve keeps_ret keeps_throw keeps_get keeps_bind
  keeps_tryCatch keeps_unawaited : frame.

Section TimerFrames.
Variable config : Config.
Variable oracles : Oracles.

Lemma getCurrentTime_keeps_timers :
  keeps timers (getCurrentTime config oracles).
Proof. intros w. apply getCurrentTime_frame. Qed.

Lemma updateDocument_keeps_timers f : keeps timers (updateDocument f).
Proof. now intros w. Qed.

Lemma newDate_keeps_timers : keeps timers newDate.
Proof. now intros w. Qed.

#[local] Hint Resolve getCurrentTime_keeps_timers updateDocument_keeps_timers
  newDate_keeps_timers : frame.

Lemma findQuoteForCurrentTime_keeps_timers :
  keeps timers (findQuoteForCurrentTime config oracles).
Proof. unfold findQuoteForCurrentTime. auto 10 with frame. Qed.

Lemma updateDateTimeDisplay_keeps_timers :
  keeps timers (updateDateTimeDisplay config oracles).
Proof.
  unfold updateDateTimeDisplay. apply keeps_bind; [auto with frame |].
  intros w. destruct (datetimeEl (document w)); auto 10 with frame.
Qed.

Lemma updateWeatherDisplay_keeps_timers :
  keeps timers (updateWeatherDisplay config oracles).
Proof.
  unfold updateWeatherDisplay. apply keeps_bind; [auto with frame |].
  intros w. destruct (weatherEl (document w)); [| auto with frame].
  apply keeps_tryCatch; [| auto with frame].
  apply keeps_bind; [auto with frame |].
  intros _ w1.
  destruct (weatherService oracles (weatherFetches w1))
    as [| status [[[temp code] |] |]];
    [reflexivity | | |]; destruct (negb _); reflexivity.
Qed.

Lemma showQuote_keeps_timers matchedQuote :
  keeps timers (showQuote config oracles matchedQuote).
Proof.
  unfold showQuote. destruct matchedQuote; auto 12 with frame.
Qed.

(** [updateQuote] sets no timer, or the one-shot timer of the fade. *)
Lemma updateQuote_timers w :
  timers (snd (updateQuote config oracles w)) = timers w \/
  exists fade,
    isFadeTimer config fade /\
    timers (snd (updateQuote config oracles w)) = (timers w ++ [fade])%list.
Proof.
  remember (updateQuote config oracles w) as r eqn:Hr.
  unfold updateQuote, bind at 1 in Hr.
  pose proof (findQuoteForCurrentTime_keeps_timers w) as H1.
  destruct (findQuoteForCurrentTime config oracles w)
    as [[matchedQuote | e] w1]; cbn [snd] in *; [| subst r; now left].
  unfold bind at 1, get in Hr.
  destruct (quoteEl (document w1)) as [qe |], (authorEl (document w1))
    as [ae |]; try (subst r; left; exact H1).
  unfold bind at 1 in Hr.
  pose proof (updateDateTimeDisplay_keeps_timers w1) as H2.
  destruct (updateDateTimeDisplay config oracles w1) as [[[] | err] w2];
    cbn [snd] in *; [| subst r; left; cbn [snd]; congruence].
  right. subst r.
  exists {| repeating := false; delay := fadeOutDuration config;
            callback := CbShowQuote matchedQuote |}.
  split; [repeat split; cbn [callback]; eauto |].
  cbv beta iota zeta delta
    [bind updateDocument modify setTimeout snd setTimers setDocument].
  cbn [timers]. now rewrite H2, H1.
Qed.

End TimerFrames.

(** ** The refresh cycle: [setupPreciseMinuteTiming] and the timers *)

Lemma pendingAlignments_app (extra : list Timer) (w w' : World) :
  timers w' = (timers w ++ extra)%list ->
  Forall (fun t => callback t <> CbStartMinuteCycle) extra ->
  pendingAlignments w' = pendingAlignments w.
Proof.
  intros Ht Hextra. unfold pendingAlignments.
  rewrite Ht, filter_app, length_app. clear Ht.
  replace (filter _ extra) with (@nil Timer); [cbn; lia |].
  symmetry. induction Hextra as [| t extra Hcb _ IH]; [reflexivity |].
  cbn. destruct (callback t); try congruence; exact IH.
Qed.

(** No callback registers a timer that would align the cycle again. *)
Lemma runCallback_alignments config oracles cb w :
  pendingAlignments (snd (runCallback config oracles cb w))
  = pendingAlignments w.
Proof.
  destruct cb as [| | | matchedQuote |]; cbn [runCallback].
  - reflexivity.
  - unfold bind, unawaited, setInterval, modify. cbn [snd].
    destruct (updateQuote_timers config oracles w) as [H | (fade & Hf & H)].
    + apply (pendingAlignments_app
               [{| repeating := true; delay := 60000;
                   callback := CbUpdateQuote |}]);
        [cbn; now rewrite H |].
      repeat constructor. cbn. discriminate.
    + apply (pendingAlignments_app
               [fade; {| repeating := true; delay := 60000;
                         callback := CbUpdateQuote |}]);
        [cbn; rewrite H, <- app_assoc; reflexivity |].
      destruct Hf as (_ & _ & mq & Hcb).
      repeat constructor; [rewrite Hcb |]; cbn; discriminate.
  - unfold unawaited. cbn [snd].
    destruct (updateQuote_timers config oracles w) as [H | (fade & Hf & H)].
    + apply (pendingAlignments_app []); [now rewrite app_nil_r | constructor].
    + apply (pendingAlignments_app [fade]); [exact H |].
      destruct Hf as (_ & _ & mq & Hcb).
      repeat constructor. rewrite Hcb. discriminate.
  - unfold unawaited. cbn [snd].
    apply (pendingAlignments_app []); [| constructor].
    rewrite app_nil_r. apply showQuote_keeps_timers.
  - unfold unawaited. cbn [snd].
    apply (pendingAlignments_app []); [| constructor].
    rewrite app_nil_r. apply updateWeatherDisplay_keeps_timers.
Qed.

Lemma fires_alignments config oracles w w' :
  fires config oracles w w' ->
  (pendingAlignments w' <= pendingAlignments w)%nat.
Proof.
  intros [before t after w0 Ht Hrep | t w0 Hin Hrep].
  - rewrite runCallback_alignments. unfold pendingAlignments.
    cbn [timers setTimers]. rewrite Ht, !filter_app, !length_app.
    cbn [filter]. destruct (callback t); cbn [List.length]; lia.
  - rewrite runCallback_alignments. lia.
Qed.

Lemma keeps_timers_aligns {A} (m : M A) :
  keeps timers m -> alignsAtMost 0 m.
Proof.
  intros H w. unfold pendingAlignments. rewrite H. lia.
Qed.

Lemma alignsAtMost_bind {A C} a b (m : M A) (k : A -> M C) :
  alignsAtMost a m -> (forall x, alignsAtMost b (k x)) ->
  alignsAtMost (a + b) (bind m k).
Proof.
  intros Hm Hk w. unfold bind. specialize (Hm w).
  destruct (m w) as [[x | e] w1]; cbn [snd] in *; [| lia].
  specialize (Hk x w1). lia.
Qed.

Lemma alignsAtMost_tryCatch {A} a b (body : M A) handler :
  alignsAtMost a body -> (forall e, alignsAtMost b (handler e)) ->
  alignsAtMost (a + b) (tryCatch body handler).
Proof.
  intros Hm Hk w. unfold tryCatch. specialize (Hm w).
  destruct (body w) as [[x | e] w1]; cbn [snd] in *; [lia |].
  specialize (Hk e w1). lia.
Qed.

Lemma loadQuotes_keeps_timers oracles : keeps timers (loadQuotes oracles).
Proof.
  intros w. unfold loadQuotes, tryCatch, throw.
  destruct (datasetService oracles (datasetFetches w)) as [| status [qs |]];
    [reflexivity | |]; destruct (negb _); reflexivity.
Qed.

Lemma updateQuote_aligns config oracles :
  alignsAtMost 0 (updateQuote config oracles).
Proof.
  intros w.
  destruct (updateQuote_timers config oracles w) as [H | (fade & Hf & H)].
  - unfold pendingAlignments. rewrite H. lia.
  - rewrite (pendingAlignments_app [fade] w _ H); [lia |].
    destruct Hf as (_ & _ & mq & Hcb).
    repeat constructor. rewrite Hcb. discriminate.
Qed.

Lemma setupPreciseMinuteTiming_aligns config oracles :
  alignsAtMost 1 (setupPreciseMinuteTiming config oracles).
Proof.
  intros w. unfold setupPreciseMinuteTiming, bind.
  pose proof (getCurrentTime_keeps_timers config oracles w) as H.
  destruct (getCurrentTime config oracles w) as [[t | e] w1];
    cbn [snd] in *; unfold pendingAlignments.
  - cbn. rewrite H, filter_app, length_app. cbn. lia.
  - rewrite H. lia.
Qed.

Lemma registering_aligns repeats ms cb :
  cb <> CbStartMinuteCycle ->
  alignsAtMost 0
    (modify (fun w =>
       setTimers (timers w ++ [{| repeating := repeats; delay := ms;
                                  callback := cb |}])%list w)).
Proof.
  intros Hcb w. apply Nat.eq_le_incl. rewrite Nat.add_0_r.
  apply (pendingAlignments_app
           [{| repeating := repeats; delay := ms; callback := cb |}]);
    [reflexivity | repeat constructor; exact Hcb].
Qed.

(** [init] registers at most one alignment to the minute. *)
Lemma init_aligns config oracles : alignsAtMost 1 (init config oracles).
Proof.
  unfold init.
  apply (alignsAtMost_tryCatch 1 0).
  - apply (alignsAtMost_bind 0 1);
      [apply keeps_timers_aligns, loadQuotes_keeps_timers | intros _].
    apply (alignsAtMost_bind 0 1);
      [apply registering_aligns; discriminate | intros _].
    apply (alignsAtMost_bind 0 1);
      [apply keeps_timers_aligns, updateDateTimeDisplay_keeps_timers
      | intros _].
    apply (alignsAtMost_bind 0 1);
      [apply keeps_timers_aligns, keeps_unawaited,
         updateWeatherDisplay_keeps_timers
      | intros _].
    apply (alignsAtMost_bind 0 1); [apply updateQuote_aligns | intros _].
    apply (alignsAtMost_bind 1 0);
      [intros w; apply setupPreciseMinuteTiming_aligns | intros _].
    apply registering_aligns; discriminate.
  - intros e. apply keeps_timers_aligns. now intros w.
Qed.

(** C6: once the time is resolved, [setupPreciseMinuteTiming] registers one
    one-shot timer of exactly [(60 - seconds) * 1000] milliseconds; when it
    fires, the quote is refreshed and the refresh is put on a period of 60000
    milliseconds (the only timers it adds are that interval and the fade of
    the refresh); each period runs [updateQuote] and nothing else; [init]
    leaves at most one alignment to the minute pending, and no firing of any
    timer registers another. *)
Theorem setupPreciseMinuteTiming_schedule config oracles w t w1 :
  getCurrentTime config oracles w = (Returned t, w1) ->
  setupPreciseMinuteTiming config oracles w
  = (Returned tt,
     setTimers (timers w ++ [{| repeating := false;
                                delay := (60 - seconds t) * 1000;
                                callback := CbStartMinuteCycle |}])%list w1) /\
  (forall w2,
      let fired := snd (runCallback config oracles CbStartMinuteCycle w2) in
      let period := {| repeating := true; delay := 60000;
                       callback := CbUpdateQuote |} in
      setTimers [] fired
      = setTimers [] (snd (updateQuote config oracles w2)) /\
      In period (timers fired) /\
      forall t, In t (timers fired) ->
                In t (timers w2) \/ t = period \/ isFadeTimer config t) /\
  (forall w2,
      runCallback config oracles CbUpdateQuote w2
      = (Returned tt, snd (updateQuote config oracles w2))) /\
  (forall doc,
      (pendingAlignments (snd (init config oracles (initialWorld doc))) <= 1)
        %nat) /\
  (forall w2 w3,
      fires config oracles w2 w3 ->
      (pendingAlignments w3 <= pendingAlignments w2)%nat).
Proof.
  intros Htime.
  pose proof (getCurrentTime_keeps_timers config oracles w) as Hkeep.
  rewrite Htime in Hkeep. cbn [snd] in Hkeep.
  split; [| split; [| split; [| split]]].
  - unfold setupPreciseMinuteTiming, bind, setTimeout, modify.
    rewrite Htime. now rewrite Hkeep.
  - intros w2 fired period. subst fired.
    cbv beta iota zeta delta [runCallback bind unawaited setInterval modify].
    cbn [snd timers setTimers].
    split; [reflexivity |]. split; [apply in_or_app; right; now left |].
    intros t0 Hin. apply in_app_or in Hin as [Hin | [<- | []]]; [| auto].
    destruct (updateQuote_timers config oracles w2) as [H | (fade & Hf & H)];
      rewrite H in Hin; [now left |].
    apply in_app_or in Hin as [Hin | [<- | []]]; auto.
  - reflexivity.
  - intros doc. apply (init_aligns config oracles (initialWorld doc)).
  - apply fires_alignments.
Qed.

(** At 09:41:07 the cycle is aligned 53000 milliseconds later. *)
Lemma setupPreciseMinuteTiming_schedule_witness :
  setupPreciseMinuteTiming defaultConfig
    (steadyOracles (clockTime 9 41 7) TimeFetchFailed DatasetUnreachable)
    (initialWorld fullDocument)
  = (Returned tt,
     setTimers [{| repeating := false; delay := 53000;
                   callback := CbStartMinuteCycle |}]
       (tickClock (initialWorld fullDocument))).
Proof.
  apply (setupPreciseMinuteTiming_schedule defaultConfig
           (steadyOracles (clockTime 9 41 7) TimeFetchFailed
              DatasetUnreachable)
           (initialWorld fullDocument) (clockTime 9 41 7)
           (tickClock (initialWorld fullDocument))).
  reflexivity.
Defined.

(** ** Startup: [init] and the failures that reach its handler *)

Lemma loadQuotes_fails oracles w :
  datasetFails (datasetService oracles (datasetFetches w)) ->
  exists e, loadQuotes oracles w = (Thrown e, tickDatasetFetch w).
Proof.
  unfold loadQuotes, tryCatch, throw, datasetFails.
  destruct (datasetService oracles (datasetFetches w)) as [| status body].
  - eauto.
  - intros [Hstatus | ->].
    + assert (E : (200 <=? status) && (status <=? 299) = false).
      { apply andb_false_iff.
        destruct (Z.leb_spec 200 status), (Z.leb_spec status 299);
          auto; lia. }
      rewrite E. cbn [negb]. eauto.
    + destruct (negb _); eauto.
Qed.

(** With no timer registered nothing runs any more. *)
Lemma nothing_fires_without_timers config oracles w w' :
  timers w = [] -> reachable config oracles w w' -> w' = w.
Proof.
  intros Hnone Hreach.
  induction Hreach as [| w1 w2 _ IH Hstep]; [reflexivity |].
  subst w1. destruct Hstep as [before t after w0 Ht _ | t w0 Hin _].
  - rewrite Hnone in Ht. now destruct before.
  - rewrite Hnone in Hin. contradiction.
Qed.

(** The part of the startup rule that the code keeps: when the dataset
    does not load, [init] shows the error banner, registers no timer, and
    no refresh ever runs. *)
Lemma init_dataset_failure config oracles doc container :
  datasetFails (datasetService oracles 0) ->
  quoteContainerEl doc = Some container ->
  let w := snd (init config oracles (initialWorld doc)) in
  fatalErrorShown w /\ timers w = [] /\ ~ refreshScheduled w /\
  forall w', reachable config oracles w w' -> w' = w.
Proof.
  intros Hfail Hcontainer w.
  destruct (loadQuotes_fails oracles (initialWorld doc) Hfail)
    as [e He].
  assert (Hw : w = snd (displayError
                          "Failed to load quotes. Please refresh the page."
                          (tickDatasetFetch (initialWorld doc)))).
  { unfold w, init, tryCatch, bind at 1. now rewrite He. }
  assert (Htimers : timers w = []) by now rewrite Hw.
  repeat split.
  - rewrite Hw. unfold fatalErrorShown. cbn. now rewrite Hcontainer.
  - exact Htimers.
  - intros (t & Hin & _). rewrite Htimers in Hin. contradiction.
  - intros w'. now apply nothing_fires_without_timers.
Qed.

(** The display fields that contain their failures: neither function ever
    throws. *)
Lemma tryCatch_returns {A} (body : M A) handler w :
  (forall e w1, exists a, fst (handler e w1) = Returned a) ->
  exists a, fst (tryCatch body handler w) = Returned a.
Proof.
  intros Hh. unfold tryCatch.
  destruct (body w) as [[a | e] w1]; [cbn; eauto | apply Hh].
Qed.

Lemma updateDateTimeDisplay_never_throws config oracles w :
  fst (updateDateTimeDisplay config oracles w) = Returned tt.
Proof.
  unfold updateDateTimeDisplay, bind at 1, get.
  destruct (datetimeEl (document w)) as [el |]; [| reflexivity].
  destruct (tryCatch_returns
              (t <- getCurrentTime config oracles ;;
               now <- newDate ;;
               updateDocument
                 (onDatetimeEl
                    (withContent
                       (localeDate oracles now ++ " • "
                        ++ formatTime (hours t) (minutes t)))))
              (fun _ =>
                 updateDocument
                   (onDatetimeEl
                      (withContent (timeUnavailable (messages config)))))
              w) as [[] H]; [| exact H].
  intros err w1. now exists tt.
Qed.

Lemma updateWeatherDisplay_never_throws config oracles w :
  fst (updateWeatherDisplay config oracles w) = Returned tt.
Proof.
  unfold updateWeatherDisplay, bind at 1, get.
  destruct (weatherEl (document w)) as [el |]; [| reflexivity].
  match goal with
  | |- fst (tryCatch ?body ?handler w) = _ =>
      destruct (tryCatch_returns body handler w) as [[] H]; [| exact H]
  end.
  intros err w1. now exists tt.
Qed.

(** The quote field does not: when the time cannot be resolved,
    [updateQuote] throws. *)
Lemma updateQuote_throws config oracles w e :
  fst (getCurrentTime config oracles w) = Thrown e ->
  fst (updateQuote config oracles w) = Thrown e.
Proof.
  intros H. unfold updateQuote, findQuoteForCurrentTime, bind.
  destruct (getCurrentTime config oracles w) as [[t | e'] w1];
    cbn [fst] in *; congruence.
Qed.

(** C7 (where the code departs from it): the web time is required, its
    service fails and the fallback is off, while the dataset loads with
    status 200.  [init] loads the quotes and still ends in the fatal state:
    the banner 'Failed to load quotes' is shown, only the keep-awake timer
    is registered, no refresh is scheduled and none ever runs; the date
    field, which catches the same failure, shows its own notice. *)
Theorem init_time_unavailable_aborts :
  let config := configWith true false 30 in
  let oracles :=
    steadyOracles (clockTime 9 41 7) TimeFetchFailed
      (DatasetResponded 200 (Some sampleQuotes)) in
  let w := snd (init config oracles (initialWorld fullDocument)) in
  quotes w = sampleQuotes /\
  option_map content (datetimeEl (document w)) = Some "Time unavailable" /\
  fatalErrorShown w /\
  timers w = [{| repeating := true; delay := 30000;
                 callback := CbKeepAwake |}] /\
  ~ refreshScheduled w /\
  forall w', reachable config oracles w w' -> w' = w.
Proof.
  intros config oracles w.
  assert (Htimers : timers w = [{| repeating := true; delay := 30000;
                                   callback := CbKeepAwake |}])
    by (vm_compute; reflexivity).
  repeat split; try (vm_compute; reflexivity).
  - intros (t & Hin & Hrefresh). rewrite Htimers in Hin.
    destruct Hin as [<- | []]. discriminate.
  - intros w' Hreach.
    induction Hreach as [| w1 w2 _ IH Hstep]; [reflexivity |].
    subst w1. destruct Hstep as [before t after w0 Ht Hrep | t w0 Hin Hrep].
    + rewrite Htimers in Ht.
      destruct before as [| b [| b' before]]; try discriminate.
      injection Ht as <- _. discriminate.
    + rewrite Htimers in Hin. destruct Hin as [<- | []]. reflexivity.
Qed.

(** ** The display of a quote: [showQuote] *)

Lemma withContent_twice s e : withContent s (withContent s e) = withContent s e.
Proof. reflexivity. Qed.

(** Showing a found quote is a function of the document alone. *)
Lemma showQuote_found config oracles q w :
  showQuote config oracles (Some q) w
  = (Returned tt,
     setDocument
       (onAuthorEl (withOpacity "1")
          (onQuoteEl (withOpacity "1")
             (onAuthorEl (withContent (title q ++ " – " ++ author q))
                (onQuoteEl (withContent (shownQuoteHTML q)) (document w)))))
       w).
Proof. destruct w; reflexivity. Qed.

(** C8: run on the same quote record again, the marking of the time token
    gives the same markup: the quote element holds the text of
    [highlightTimeString] on the (cut) raw text after one showing, and the
    page after two or more showings is the page after one. *)
Theorem highlight_rerun_same config oracles q w (n : nat) :
  let show := fun w0 => snd (showQuote config oracles (Some q) w0) in
  (forall e, quoteEl (document w) = Some e ->
             option_map content (quoteEl (document (show w)))
             = Some (dquote
                     ++ highlightTimeString
                          (smartTruncateQuote (quote q) (timeString q))
                          (timeString q)
                     ++ dquote)) /\
  show (show w) = show w /\
  Nat.iter (S n) show w = show w.
Proof.
  intros show.
  assert (Htwice : forall w0, show (show w0) = show w0).
  { intros w0. unfold show. rewrite !showQuote_found. cbn [snd].
    destruct w0 as [qs [qe ae ce de we] ts c1 c2 c3 c4].
    destruct qe, ae; reflexivity. }
  split; [| split].
  - intros e He. unfold show. rewrite showQuote_found. cbn.
    now rewrite He.
  - apply Htwice.
  - induction n as [| n IH]; [reflexivity |].
    change (Nat.iter (S (S n)) show w) with (show (Nat.iter (S n) show w)).
    rewrite IH. apply Htwice.
Qed.

Lemma highlight_rerun_same_witness :
  option_map content
    (quoteEl (document
       (snd (showQuote defaultConfig
               (steadyOracles (clockTime 7 15 0) TimeFetchFailed
                  DatasetUnreachable)
               (Some middlingQuote) (initialWorld fullDocument)))))
  = Some (dquote
          ++ "The clock on the mantelpiece said <strong>7:15</strong> when she finally put the book down and went to look for her shoes and hat."
          ++ dquote).
Proof.
  destruct (highlight_rerun_same defaultConfig
              (steadyOracles (clockTime 7 15 0) TimeFetchFailed
                 DatasetUnreachable)
              middlingQuote (initialWorld fullDocument) 0) as [Hshown _].
  apply (Hshown blankElement). reflexivity.
Defined.

(** Marking text that is marked already does add markup: the result of
    [highlightTimeString] is not a text to run it on again. *)
Lemma highlight_of_highlighted_accumulates :
  highlightTimeString (highlightTimeString "at 9:41" "9:41") "9:41"
  = "at <strong><strong>9:41</strong></strong>" /\
  highlightTimeString "at 9:41" "9:41" = "at <strong>9:41</strong>".
Proof. split; reflexivity. Qed.

(** C9: the budget of [smartTruncateQuote] is the constant 120, not
    [config.maxQuoteLength], which is 108: a text of 109 to 120 units, longer
    than the configured length, comes back unchanged; and the value of
    [maxQuoteLength] changes nothing in what the page shows or schedules. *)
Theorem smartTruncateQuote_ignores_maxQuoteLength
  (n : Z) config oracles quoteText timeString :
  109 <= Js.len quoteText <= 120 ->
  maxLength = 120 /\ maxQuoteLength defaultConfig = 108 /\
  Js.len quoteText > maxQuoteLength defaultConfig /\
  smartTruncateQuote quoteText timeString = quoteText /\
  (forall matchedQuote w,
      showQuote (withMaxQuoteLength n config) oracles matchedQuote w
      = showQuote config oracles matchedQuote w) /\
  (forall cb w,
      runCallback (withMaxQuoteLength n config) oracles cb w
      = runCallback config oracles cb w) /\
  (forall w, init (withMaxQuoteLength n config) oracles w
             = init config oracles w).
Proof.
  intros Hlen. repeat split; try reflexivity.
  - cbn. lia.
  - apply smartTruncateQuote_short. unfold maxLength. lia.
Qed.

Lemma smartTruncateQuote_ignores_maxQuoteLength_witness :
  109 <= Js.len (quote middlingQuote) <= 120 /\
  smartTruncateQuote (quote middlingQuote) (timeString middlingQuote)
  = quote middlingQuote /\
  showQuote (withMaxQuoteLength 20 defaultConfig)
    (steadyOracles (clockTime 7 15 0) TimeFetchFailed DatasetUnreachable)
    (Some middlingQuote) (initialWorld fullDocument)
  = showQuote defaultConfig
      (steadyOracles (clockTime 7 15 0) TimeFetchFailed DatasetUnreachable)
      (Some middlingQuote) (initialWorld fullDocument).
Proof.
  assert (Hlen : 109 <= Js.len (quote middlingQuote) <= 120)
    by (vm_compute; intuition discriminate).
  destruct (smartTruncateQuote_ignores_maxQuoteLength 20 defaultConfig
              (steadyOracles (clockTime 7 15 0) TimeFetchFailed
                 DatasetUnreachable)
              (quote middlingQuote) (timeString middlingQuote) Hlen)
    as (_ & _ & _ & Hsame & Hshow & _).
  split; [exact Hlen |]. split; [exact Hsame | apply Hshow].
Defined.

(** ** Occurrences: what [indexOf] and [lastIndexOf] find *)

Section Occurrences.
Import Js JsFacts.

Lemma drop_drop a b s : drop a (drop b s) = drop (a + b) s.
Proof.
  revert s; induction b as [| b IH]; intros s.
  - now rewrite Nat.add_0_r.
  - rewrite Nat.add_succ_r. destruct s as [| c s]; cbn [drop].
    + now destruct a.
    + apply IH.
Qed.

Lemma drop_empty n : drop n EmptyString = EmptyString.
Proof. now destruct n. Qed.

Lemma take_drop n s : take n s ++ drop n s = s.
Proof.
  revert s; induction n as [| n IH]; intros [| c s]; cbn; try reflexivity.
  now rewrite IH.
Qed.

Lemma append_empty_r (s : string) : s ++ "" = s.
Proof. induction s as [| c s IH]; cbn; [reflexivity | now rewrite IH]. Qed.

Lemma append_assoc (a b c : string) : (a ++ b) ++ c = a ++ b ++ c.
Proof. induction a as [| x a IH]; cbn; [reflexivity | now rewrite IH]. Qed.

(** The scan of [indexOf] stops at the first position where the pattern
    occurs. *)
Lemma indexOfFrom_first pat s pos :
  0 <= pos ->
  let r := indexOfFrom pat s pos in
  (r <> -1 ->
   startsWith pat (drop (Z.to_nat (r - pos)) s) = true /\
   forall k, (k < Z.to_nat (r - pos))%nat ->
             startsWith pat (drop k s) = false) /\
  (r = -1 -> forall k, startsWith pat (drop k s) = false).
Proof.
  revert pos; induction s as [| c s IH]; intros pos Hpos; cbn zeta.
  - cbn [indexOfFrom]. destruct (startsWith pat "") eqn:E.
    + split; [| lia]. intros _. rewrite Z.sub_diag. cbn. split; [exact E | lia].
    + split; [congruence |]. intros _ k. now rewrite drop_empty.
  - cbn [indexOfFrom]. destruct (startsWith pat (String c s)) eqn:E.
    + split; [| lia]. intros _. rewrite Z.sub_diag. cbn.
      split; [exact E | lia].
    + destruct (IH (pos + 1) ltac:(lia)) as [Hfound Hnone].
      destruct (indexOfFrom_bounds pat s (pos + 1)) as [Hb | Hb].
      * split; [congruence |]. intros _ [| k]; [exact E | cbn; now apply Hnone].
      * split; [| lia]. intros Hr. destruct (Hfound Hr) as [Hat Hbefore].
        replace (Z.to_nat (indexOfFrom pat s (pos + 1) - pos))
          with (S (Z.to_nat (indexOfFrom pat s (pos + 1) - (pos + 1))))
          by lia.
        split; [exact Hat |].
        intros [| k] Hk; [exact E | cbn; apply Hbefore; lia].
Qed.

(** [indexOf] from a position inside the text answers the first occurrence
    at or after it, and [-1] only when there is none. *)
Lemma indexOf_first s pat from :
  0 <= from <= len s ->
  let r := indexOf s pat from in
  (r <> -1 ->
   from <= r /\ occursAt pat s r /\
   forall k, from <= k < r -> ~ occursAt pat s k) /\
  (r = -1 -> forall k, from <= k -> ~ occursAt pat s k).
Proof.
  intros Hfrom. cbn zeta. unfold indexOf.
  assert (Hclamp : clampTo s from = from) by (unfold clampTo; lia).
  rewrite Hclamp.
  destruct (indexOfFrom_first pat (drop (Z.to_nat from) s) from
              ltac:(lia)) as [Hfound Hnone].
  destruct (indexOfFrom_bounds pat (drop (Z.to_nat from) s) from)
    as [Hb | [Hb Hb']].
  - split; [congruence |]. intros _ k Hk [_ Hat].
    specialize (Hnone Hb (Z.to_nat (k - from))).
    rewrite drop_drop in Hnone.
    replace (Z.to_nat (k - from) + Z.to_nat from)%nat with (Z.to_nat k)
      in Hnone by lia.
    congruence.
  - split; [| lia]. intros Hr. destruct (Hfound Hr) as [Hat Hbefore].
    rewrite drop_drop in Hat.
    split; [exact Hb |]. split.
    + split.
      { unfold len in *. rewrite length_drop in Hb'. lia. }
      now replace (Z.to_nat _) with
        (Z.to_nat (indexOfFrom pat (drop (Z.to_nat from) s) from - from)
         + Z.to_nat from)%nat by lia.
    + intros k Hk [_ Hat'].
      specialize (Hbefore (Z.to_nat (k - from)) ltac:(lia)).
      rewrite drop_drop in Hbefore.
      replace (Z.to_nat (k - from) + Z.to_nat from)%nat with (Z.to_nat k)
        in Hbefore by lia.
      congruence.
Qed.

(** The scan of [lastIndexOf] keeps the last position up to the limit where
    the pattern occurs. *)
Lemma lastIndexOfUpTo_last pat s pos limit best :
  0 <= pos ->
  let r := lastIndexOfUpTo pat s pos limit best in
  (r = best /\
   forall k, pos + Z.of_nat k <= limit ->
             startsWith pat (drop k s) = false) \/
  (pos <= r <= limit /\ r - pos <= len s /\
   startsWith pat (drop (Z.to_nat (r - pos)) s) = true /\
   forall k, (Z.to_nat (r - pos) < k <= String.length s)%nat ->
             pos + Z.of_nat k <= limit ->
             startsWith pat (drop k s) = false).
Proof.
  revert pos best; induction s as [| c s IH]; intros pos best Hpos; cbn zeta.
  - cbn [lastIndexOfUpTo].
    destruct (pos <=? limit) eqn:El; cbn [andb].
    + destruct (startsWith pat "") eqn:E.
      * right. apply Z.leb_le in El. rewrite Z.sub_diag. cbn.
        split; [lia |]. split; [lia |]. split; [exact E |].
        intros k Hk. lia.
      * left. split; [reflexivity |]. intros k _. now rewrite drop_empty.
    + left. split; [reflexivity |]. apply Z.leb_gt in El. intros k Hk. lia.
  - cbn [lastIndexOfUpTo]. unfold len in *. cbn [String.length].
    destruct (pos <=? limit) eqn:El; cbn [andb].
    + apply Z.leb_le in El.
      destruct (startsWith pat (String c s)) eqn:E.
      * destruct (IH (pos + 1) pos ltac:(lia))
          as [[Hr Hnone] | (Hr & Hlen & Hat & Hafter)].
        -- right. rewrite Hr, Z.sub_diag. cbn [Z.to_nat drop].
           split; [lia |]. split; [lia |]. split; [exact E |].
           intros [| k] Hk Hk'; [lia |]. cbn [drop]. apply Hnone. lia.
        -- right. split; [lia |]. split; [lia |].
           replace (Z.to_nat (lastIndexOfUpTo pat s (pos + 1) limit pos - pos))
             with (S (Z.to_nat (lastIndexOfUpTo pat s (pos + 1) limit pos
                                - (pos + 1)))) by lia.
           split; [exact Hat |].
           intros [| k] Hk Hk'; [lia |]. cbn [drop]. apply Hafter; lia.
      * destruct (IH (pos + 1) best ltac:(lia))
          as [[Hr Hnone] | (Hr & Hlen & Hat & Hafter)].
        -- left. split; [exact Hr |].
           intros [| k] Hk; [exact E |]. cbn [drop]. apply Hnone. lia.
        -- right. split; [lia |]. split; [lia |].
           replace (Z.to_nat (lastIndexOfUpTo pat s (pos + 1) limit best - pos))
             with (S (Z.to_nat (lastIndexOfUpTo pat s (pos + 1) limit best
                                - (pos + 1)))) by lia.
           split; [exact Hat |].
           intros [| k] Hk Hk'; [lia |]. cbn [drop]. apply Hafter; lia.
    + apply Z.leb_gt in El.
      destruct (IH (pos + 1) best ltac:(lia)) as [[Hr Hnone] | (Hr & _)];
        [| lia].
      left. split; [exact Hr |]. intros k Hk. lia.
Qed.

(** [lastIndexOf] answers the last occurrence at or before the start, and
    [-1] only when there is none. *)
Lemma lastIndexOf_last s pat from :
  0 <= from ->
  let r := lastIndexOf s pat from in
  (r <> -1 ->
   0 <= r <= from /\ occursAt pat s r /\
   forall k, r < k <= from -> ~ occursAt pat s k) /\
  (r = -1 -> forall k, 0 <= k <= from -> ~ occursAt pat s k).
Proof.
  intros Hfrom. cbn zeta. unfold lastIndexOf.
  rewrite Z.max_l by lia.
  destruct (lastIndexOfUpTo_last pat s 0 from (-1) ltac:(lia))
    as [[Hr Hnone] | (Hr & Hlen & Hat & Hafter)].
  - split; [congruence |]. intros _ k Hk [_ Hat].
    rewrite Hnone in Hat by lia. discriminate.
  - split; [| lia]. intros _. rewrite Z.sub_0_r in *.
    split; [lia |]. split; [split; [lia | exact Hat] |].
    intros k Hk [Hk' Hat']. unfold len in Hk'.
    rewrite Hafter in Hat' by lia. discriminate.
Qed.

End Occurrences.

(** ** More on the window of [smartTruncateQuote] *)

Section WindowShape.
Import Js JsFacts.

(** Before the edges move to word boundaries the window is exactly as wide
    as the budget and lies inside the text. *)
Lemma truncationWindow_snap quoteText timeString timeIndex :
  len quoteText > maxLength ->
  exists startIndex,
    0 <= startIndex /\ startIndex + maxLength <= len quoteText /\
    truncationWindow quoteText timeString timeIndex
    = (snapStart quoteText startIndex,
       snapEnd quoteText (startIndex + maxLength)).
Proof.
  unfold truncationWindow, maxLength. intros Hlong.
  set (s0 := Z.max 0 _). set (e0 := Z.min _ _).
  destruct ((e0 =? len quoteText) && (len quoteText >? 120)) eqn:E1.
  - exists (len quoteText - 120). cbn iota beta.
    replace (Z.max 0 (len quoteText - 120)) with (len quoteText - 120) by lia.
    replace ((len quoteText - 120 =? 0) && (len quoteText >? 120))
      with false by (symmetry; apply andb_false_iff; left; lia).
    replace (len quoteText - (len quoteText - 120) >? 120) with false
      by (symmetry; lia).
    replace (len quoteText - 120 + 120) with (len quoteText) by lia.
    repeat split; lia.
  - exists s0. cbn iota beta.
    assert (He0 : e0 = s0 + 120 /\ s0 + 120 < len quoteText)
      by (subst e0; lia).
    destruct He0 as [He0 He0'].
    assert (Hs0 : 0 <= s0) by (subst s0; lia).
    split; [exact Hs0 |]. split; [lia |].
    destruct ((s0 =? 0) && (len quoteText >? 120)) eqn:E2.
    + replace (Z.min (len quoteText) 120) with (s0 + 120) by lia.
      replace (s0 + 120 - s0 >? 120) with false by (symmetry; lia).
      reflexivity.
    + rewrite He0.
      replace (s0 + 120 - s0 >? 120) with false by (symmetry; lia).
      reflexivity.
Qed.

Lemma snapStart_range quoteText startIndex :
  0 <= startIndex <= len quoteText ->
  startIndex <= snapStart quoteText startIndex <= startIndex + 15.
Proof.
  intros H. unfold snapStart.
  destruct (indexOf_bounds quoteText " " startIndex) as [Hi | Hi];
    unfold clampTo in *;
    repeat match goal with
      | |- context [if ?b then _ else _] => destruct b eqn:?
      end; lia.
Qed.

Lemma snapEnd_range quoteText endIndex :
  0 <= endIndex ->
  endIndex - 14 <= snapEnd quoteText endIndex <= endIndex.
Proof.
  intros H. unfold snapEnd.
  destruct (lastIndexOf_bounds quoteText " " endIndex) as [Hi | Hi];
    repeat match goal with
      | |- context [if ?b then _ else _] => destruct b eqn:?
      end; lia.
Qed.

(** An edge that moved stands at a space; an edge that stayed had no space
    within reach. *)
Lemma snapStart_boundary quoteText startIndex :
  0 <= startIndex <= len quoteText ->
  let s := snapStart quoteText startIndex in
  s = 0 \/ occursAt " " quoteText (s - 1) \/
  forall k, s <= k < s + 15 -> ~ occursAt " " quoteText k.
Proof.
  intros H. cbn zeta. unfold snapStart.
  destruct (startIndex >? 0) eqn:Epos; [| left; lia].
  destruct (indexOf_first quoteText " " startIndex H) as [Hfound Hnone].
  destruct (Z.eqb_spec (indexOf quoteText " " startIndex) (-1)) as [E | E];
    cbn [negb andb].
  - right; right. intros k Hk. apply Hnone; [exact E | lia].
  - destruct (Hfound E) as (Hge & Hat & Hbefore).
    destruct (Z.ltb_spec (indexOf quoteText " " startIndex) (startIndex + 15)).
    + right; left. now replace (_ + 1 - 1) with
        (indexOf quoteText " " startIndex) by lia.
    + right; right. intros k Hk. apply Hbefore. lia.
Qed.

Lemma snapEnd_boundary quoteText endIndex :
  0 <= endIndex ->
  let e := snapEnd quoteText endIndex in
  e = len quoteText \/ e > len quoteText \/ occursAt " " quoteText e \/
  forall k, e - 15 < k <= e -> ~ occursAt " " quoteText k.
Proof.
  intros H. cbn zeta. unfold snapEnd.
  destruct (Z.ltb_spec endIndex (len quoteText)); [| lia].
  destruct (lastIndexOf_last quoteText " " endIndex H) as [Hfound Hnone].
  destruct (Z.eqb_spec (lastIndexOf quoteText " " endIndex) (-1)) as [E | E];
    cbn [negb andb].
  - right; right; right. intros k Hk [Hk' Hat].
    destruct (Z.le_gt_cases 0 k) as [Hk0 | Hk0]; [| lia].
    apply (Hnone E k); [lia | now split].
  - destruct (Hfound E) as (Hge & Hat & Hafter).
    destruct (Z.gtb_spec (lastIndexOf quoteText " " endIndex) (endIndex - 15)).
    + right; right; left. exact Hat.
    + right; right; right. intros k Hk [Hk' Hat'].
      destruct (Z.eq_dec k (lastIndexOf quoteText " " endIndex)); [lia |].
      destruct (Z.le_gt_cases k (lastIndexOf quoteText " " endIndex));
        [lia |].
      apply (Hafter k); [lia | now split].
Qed.

End WindowShape.

(** ** More on what [smartTruncateQuote] returns *)

Section FitterShape.
Import Js JsFacts.

(** X1: a text longer than 120 units comes back as one unbroken piece of
    itself, 91 to 120 units long, with "..." in front when the piece does not
    start the text and "..." behind when it does not end it; at least one of
    the two markers is there, so the result has 94 to 126 units. *)
Theorem smartTruncateQuote_shape quoteText timeString :
  len quoteText > maxLength ->
  exists startIndex endIndex,
    0 <= startIndex /\ endIndex <= len quoteText /\
    91 <= endIndex - startIndex <= 120 /\
    (0 < startIndex \/ endIndex < len quoteText) /\
    smartTruncateQuote quoteText timeString
    = (if startIndex >? 0 then "..." else "")
      ++ substring quoteText startIndex endIndex
      ++ (if endIndex <? len quoteText then "..." else "") /\
    94 <= len (smartTruncateQuote quoteText timeString) <= 126.
Proof.
  intros Hlong. unfold smartTruncateQuote.
  destruct (len quoteText <=? maxLength) eqn:E;
    [apply Z.leb_le in E; lia |].
  unfold maxLength in *.
  destruct (_ =? -1) eqn:Efound.
  - exists 0, 117. cbn [Z.gtb Z.compare].
    replace (117 <? len quoteText) with true by (symmetry; lia).
    cbn [append]. rewrite len_append, len_substring by lia.
    change (len "...") with 3.
    split; [lia |]. split; [lia |]. split; [lia |].
    split; [right; lia |]. split; [reflexivity | lia].
  - destruct (truncationWindow quoteText timeString _)
      as [startIndex endIndex] eqn:W.
    pose proof (truncationWindow_bounds quoteText timeString Hlong _ _ _ W)
      as (H0 & H1 & H2 & H3 & H4).
    unfold maxLength in *.
    exists startIndex, endIndex.
    assert (Hshape :
              (if endIndex <? len quoteText
               then (if startIndex >? 0
                     then "..." ++ substring quoteText startIndex endIndex
                     else substring quoteText startIndex endIndex) ++ "..."
               else (if startIndex >? 0
                     then "..." ++ substring quoteText startIndex endIndex
                     else substring quoteText startIndex endIndex))
              = (if startIndex >? 0 then "..." else "")
                ++ substring quoteText startIndex endIndex
                ++ (if endIndex <? len quoteText then "..." else "")).
    { destruct (startIndex >? 0), (endIndex <? len quoteText);
        cbn [append]; rewrite ?append_empty_r; reflexivity. }
    rewrite Hshape.
    assert (Hmarker : 0 < startIndex \/ endIndex < len quoteText) by lia.
    split; [lia |]. split; [lia |]. split; [lia |].
    split; [exact Hmarker |]. split; [reflexivity |].
    destruct (Z.gtb_spec startIndex 0), (Z.ltb_spec endIndex (len quoteText));
      rewrite ?len_append, len_substring by lia;
      change (len "...") with 3; change (len "") with 0; lia.
Qed.

Lemma smartTruncateQuote_shape_witness :
  exists startIndex endIndex,
    0 <= startIndex /\ endIndex <= len aprilQuote /\
    91 <= endIndex - startIndex <= 120 /\
    (0 < startIndex \/ endIndex < len aprilQuote) /\
    smartTruncateQuote aprilQuote "Victory Mansions"
    = (if startIndex >? 0 then "..." else "")
      ++ substring aprilQuote startIndex endIndex
      ++ (if endIndex <? len aprilQuote then "..." else "") /\
    94 <= len (smartTruncateQuote aprilQuote "Victory Mansions") <= 126.
Proof.
  apply (smartTruncateQuote_shape aprilQuote "Victory Mansions").
  vm_compute. reflexivity.
Defined.

(** X2: when the token is found in a text longer than 120 units, the piece
    that is kept is cut at word boundaries wherever a space is within reach:
    it starts the text, or starts right behind a space, or no space lies in
    the 15 units from its start on; and it ends the text, or ends right
    before a space, or no space lies in the 15 units up to its end. *)
Theorem smartTruncateQuote_word_boundaries quoteText timeString :
  len quoteText > maxLength ->
  indexOf (toLowerCase quoteText) (toLowerCase timeString) 0 <> -1 ->
  exists startIndex endIndex,
    smartTruncateQuote quoteText timeString
    = (if startIndex >? 0 then "..." else "")
      ++ substring quoteText startIndex endIndex
      ++ (if endIndex <? len quoteText then "..." else "") /\
    (startIndex = 0 \/ occursAt " " quoteText (startIndex - 1) \/
     forall k, startIndex <= k < startIndex + 15 ->
               ~ occursAt " " quoteText k) /\
    (endIndex = len quoteText \/ occursAt " " quoteText endIndex \/
     forall k, endIndex - 15 < k <= endIndex -> ~ occursAt " " quoteText k).
Proof.
  intros Hlong Hfound. unfold smartTruncateQuote.
  destruct (len quoteText <=? maxLength) eqn:E;
    [apply Z.leb_le in E; lia |].
  apply Z.eqb_neq in Hfound. rewrite Hfound.
  destruct (truncationWindow_snap quoteText timeString
              (indexOf (toLowerCase quoteText) (toLowerCase timeString) 0)
              Hlong) as (s0 & Hs0 & He0 & W).
  rewrite W. unfold maxLength in *.
  exists (snapStart quoteText s0), (snapEnd quoteText (s0 + 120)).
  split; [| split].
  - destruct (snapStart quoteText s0 >? 0),
      (snapEnd quoteText (s0 + 120) <? len quoteText);
      cbn [append]; rewrite ?append_empty_r, ?append_assoc; reflexivity.
  - apply snapStart_boundary. lia.
  - pose proof (snapEnd_range quoteText (s0 + 120) ltac:(lia)) as Hr.
    destruct (snapEnd_boundary quoteText (s0 + 120) ltac:(lia))
      as [H | [H | [H | H]]]; auto. lia.
Qed.

Lemma smartTruncateQuote_word_boundaries_witness :
  exists startIndex endIndex,
    smartTruncateQuote aprilQuote "Victory Mansions"
    = (if startIndex >? 0 then "..." else "")
      ++ substring aprilQuote startIndex endIndex
      ++ (if endIndex <? len aprilQuote then "..." else "") /\
    (startIndex = 0 \/ occursAt " " aprilQuote (startIndex - 1) \/
     forall k, startIndex <= k < startIndex + 15 ->
               ~ occursAt " " aprilQuote k) /\
    (endIndex = len aprilQuote \/ occursAt " " aprilQuote endIndex \/
     forall k, endIndex - 15 < k <= endIndex -> ~ occursAt " " aprilQuote k).
Proof.
  apply (smartTruncateQuote_word_boundaries aprilQuote "Victory Mansions").
  - vm_compute. reflexivity.
  - vm_compute. discriminate.
Defined.

(** X3: the fitter reads the token through its lower case and its length
    only: two tokens with the same lower case and the same length give the
    same fitted text. *)
Theorem smartTruncateQuote_token_case quoteText timeString timeString' :
  toLowerCase timeString = toLowerCase timeString' ->
  len timeString = len timeString' ->
  smartTruncateQuote quoteText timeString
  = smartTruncateQuote quoteText timeString'.
Proof.
  intros Hcase Hlen.
  unfold smartTruncateQuote, truncationWindow.
  now rewrite Hcase, Hlen.
Qed.

Lemma smartTruncateQuote_token_case_witness :
  smartTruncateQuote aprilQuote "VICTORY mansions"
  = smartTruncateQuote aprilQuote "Victory Mansions".
Proof.
  apply (smartTruncateQuote_token_case aprilQuote "VICTORY mansions"
           "Victory Mansions"); reflexivity.
Defined.

(** The same lower case alone does not make two tokens alike to the fitter:
    U+0130 and the pair of U+0069 and U+0307 have the same lower case and
    not the same length, and the window is centered by the length. *)
Lemma smartTruncateQuote_token_length_matters :
  codeUnit dottedCapitalI = 304 /\ codeUnit combiningDotAbove = 775 /\
  toLowerCase dottedCapitals = toLowerCase dottedSmalls /\
  len dottedCapitals = 20 /\ len dottedSmalls = 40 /\
  smartTruncateQuote dottedRun dottedCapitals
  <> smartTruncateQuote dottedRun dottedSmalls.
Proof.
  repeat (split; [vm_compute; reflexivity |]).
  intros H. apply (f_equal (fun s => substring s 48 49)) in H.
  vm_compute in H. discriminate H.
Qed.

End FitterShape.

(** ** What [highlightTimeString] wraps *)

Section Highlight.
Import Js JsFacts.

Lemma highlightTimeString_scan quoteText timeString :
  highlightTimeString quoteText timeString
  = replaceAllCI timeString quoteText 0.
Proof.
  unfold highlightTimeString. now rewrite patternLiteral_escapeRegExp.
Qed.

Lemma startsWithCI_length pat s :
  startsWithCI pat s = true -> (String.length pat <= String.length s)%nat.
Proof.
  revert s; induction pat as [| a pat IH]; intros [| b s]; cbn;
    intros H; try lia; try discriminate.
  apply andb_true_iff in H as [_ H]. apply IH in H. lia.
Qed.

Lemma startsWithCI_take pat s :
  startsWithCI pat s = true ->
  startsWithCI pat (take (String.length pat) s) = true.
Proof.
  revert s; induction pat as [| a pat IH]; intros [| b s]; cbn;
    intros H; try reflexivity; try discriminate.
  apply andb_true_iff in H as [Hab H]. rewrite Hab. cbn. now apply IH.
Qed.


(** Behind a match the scan passes over the rest of the match. *)
Lemma replaceAllCI_skip literal text n :
  literal <> "" ->
  replaceAllCI literal text n = replaceAllCI literal (drop n text) 0.
Proof.
  intros Hne. revert text; induction n as [| n IH]; intros text.
  - reflexivity.
  - destruct text as [| c text]; cbn [replaceAllCI drop]; [| apply IH].
    destruct literal; [congruence | reflexivity].
Qed.

(** A text in which the token occurs nowhere comes back as it is. *)
Lemma replaceAllCI_absent literal text :
  (forall k, ~ occursCI literal text k) ->
  replaceAllCI literal text 0 = text.
Proof.
  induction text as [| c text IH]; intros Hnone.
  - cbn [replaceAllCI]. destruct (startsWithCI literal "") eqn:E;
      [| reflexivity].
    exfalso. apply (Hnone 0%nat). split; [cbn; lia | exact E].
  - cbn [replaceAllCI]. destruct (startsWithCI literal (String c text)) eqn:E.
    + exfalso. apply (Hnone 0%nat). split; [cbn; lia | exact E].
    + f_equal. apply IH. intros k [Hk Hat].
      apply (Hnone (S k)). split; [cbn; lia | exact Hat].
Qed.

(** The first occurrence of the token is wrapped as the text spells it, and
    the scan goes on behind it. *)
Lemma replaceAllCI_first literal text k :
  literal <> "" ->
  occursCI literal text k ->
  exists pre m rest,
    text = pre ++ m ++ rest /\
    String.length m = String.length literal /\
    startsWithCI literal m = true /\
    (String.length pre <= k)%nat /\
    (forall j, (j < String.length pre)%nat -> ~ occursCI literal text j) /\
    replaceAllCI literal text 0
    = pre ++ strongOpen ++ m ++ strongClose ++ replaceAllCI literal rest 0.
Proof.
  intros Hne. revert k; induction text as [| c text IH]; intros k [Hk Hat].
  - destruct k; [| cbn in Hk; lia]. cbn [drop] in Hat.
    apply startsWithCI_length in Hat. destruct literal; [congruence |].
    cbn in Hat. lia.
  - destruct (startsWithCI literal (String c text)) eqn:E.
    + exists "", (take (String.length literal) (String c text)),
        (drop (String.length literal) (String c text)).
      split; [cbn [append]; now rewrite take_drop |].
      split; [rewrite length_take; apply startsWithCI_length in E; lia |].
      split; [now apply startsWithCI_take |].
      split; [cbn; lia |]. split; [cbn; lia |].
      cbn [replaceAllCI append]. rewrite E.
      destruct literal as [| a literal]; [congruence |].
      rewrite replaceAllCI_skip by discriminate.
      cbn [String.length]. rewrite Nat.sub_succ, Nat.sub_0_r.
      reflexivity.
    + destruct k as [| k]; [cbn [drop] in Hat; congruence |].
      destruct (IH k) as (pre & m & rest & Htext & Hm & Hcase & Hpre
                          & Hfirst & Hout).
      { split; [cbn in Hk; lia | exact Hat]. }
      exists (String c pre), m, rest.
      split; [cbn [append]; now rewrite <- Htext |].
      split; [exact Hm |]. split; [exact Hcase |].
      split; [cbn; lia |]. split.
      * intros [| j] Hj [Hj' Hat'].
        -- cbn [drop] in Hat'. congruence.
        -- apply (Hfirst j); [cbn in Hj; lia |].
           split; [cbn in Hj'; lia | exact Hat'].
      * cbn [replaceAllCI append]. rewrite E. now rewrite Hout.
Qed.

(** X4: when the token occurs nowhere in the text, up to case,
    [highlightTimeString] gives the text back unchanged. *)
Theorem highlightTimeString_absent quoteText timeString :
  (forall k, ~ occursCI timeString quoteText k) ->
  highlightTimeString quoteText timeString = quoteText.
Proof.
  intros H. rewrite highlightTimeString_scan. now apply replaceAllCI_absent.
Qed.

Lemma highlightTimeString_absent_witness :
  highlightTimeString "ab" "abc" = "ab".
Proof.
  apply (highlightTimeString_absent "ab" "abc").
  intros [| [| [| k]]] [Hk Hat]; cbn in Hk, Hat; try discriminate; lia.
Defined.

(** X5: the first occurrence of a token that is not empty is wrapped in
    [<strong>] and [</strong>] spelled as the text has it, the text before it
    is kept as it is, and behind it the marking goes on with the rest of the
    text, so that matches never overlap. *)
Theorem highlightTimeString_first quoteText timeString k :
  timeString <> "" ->
  occursCI timeString quoteText k ->
  exists pre m rest,
    quoteText = pre ++ m ++ rest /\
    String.length m = String.length timeString /\
    startsWithCI timeString m = true /\
    (forall j, (j < String.length pre)%nat ->
               ~ occursCI timeString quoteText j) /\
    highlightTimeString quoteText timeString
    = pre ++ "<strong>" ++ m ++ "</strong>"
      ++ highlightTimeString rest timeString.
Proof.
  intros Hne Hocc.
  destruct (replaceAllCI_first timeString quoteText k Hne Hocc)
    as (pre & m & rest & Htext & Hm & Hcase & _ & Hfirst & Hout).
  exists pre, m, rest. rewrite !highlightTimeString_scan.
  repeat split; auto.
Qed.

Lemma highlightTimeString_first_witness :
  exists pre m rest,
    "It's Noon, noon!" = pre ++ m ++ rest /\
    String.length m = String.length "NOON" /\
    startsWithCI "NOON" m = true /\
    (forall j, (j < String.length pre)%nat ->
               ~ occursCI "NOON" "It's Noon, noon!" j) /\
    highlightTimeString "It's Noon, noon!" "NOON"
    = pre ++ "<strong>" ++ m ++ "</strong>"
      ++ highlightTimeString rest "NOON".
Proof.
  apply (highlightTimeString_first "It's Noon, noon!" "NOON" 5).
  - discriminate.
  - split; [cbn; lia | reflexivity].
Defined.

(** X6: with the empty token every position matches: an empty pair of tags
    is put before every unit of the text and one behind the last. *)
Theorem highlightTimeString_empty_token quoteText :
  highlightTimeString quoteText ""
  = String.concat "<strong></strong>"
      ("" :: unitsOf quoteText ++ [""])%list.
Proof.
  rewrite highlightTimeString_scan. unfold unitsOf.
  induction quoteText as [| c text IH].
  - reflexivity.
  - cbn [replaceAllCI startsWithCI take String.length list_ascii_of_string
           map app].
    rewrite IH. cbn [String.concat app].
    destruct (map _ (list_ascii_of_string text) ++ [""])%list eqn:E.
    + destruct (list_ascii_of_string text); discriminate.
    + reflexivity.
Qed.

End Highlight.

(** ** The fitter and the marker together *)

Section FitAndMark.
Import Js JsFacts.

(** In a text that is lower-cased in place, positions are kept. *)
Lemma toLowerCase_drop n s :
  lowersInPlace s -> toLowerCase (drop n s) = drop n (toLowerCase s).
Proof.
  unfold lowersInPlace.
  revert s; induction n as [| n IH]; intros [| c s] H; try reflexivity.
  apply hasUnit_cons in H as [Hc Hs].
  rewrite toLowerCase_cons by exact Hc. cbn [drop]. now apply IH.
Qed.

(** There an occurrence in the lower-cased text is an occurrence up to
    case. *)
Lemma startsWith_toLowerCase pat s :
  lowersInPlace pat -> lowersInPlace s ->
  startsWith (toLowerCase pat) (toLowerCase s) = startsWithCI pat s.
Proof.
  unfold lowersInPlace.
  revert s; induction pat as [| a pat IH]; intros [| b s] Hpat Hs;
    try reflexivity.
  - apply hasUnit_cons in Hpat as [Ha _].
    now rewrite toLowerCase_cons by exact Ha.
  - apply hasUnit_cons in Hpat as [Ha Hpat].
    apply hasUnit_cons in Hs as [Hb Hs].
    rewrite !toLowerCase_cons by assumption. cbn [startsWith startsWithCI].
    rewrite IH by assumption. f_equal.
    destruct (Ascii.eqb_spec (toLowerUnit a) (toLowerUnit b)) as [E | E];
      destruct (Ascii.eqb_spec (canonicalize a) (canonicalize b)) as [E' | E'];
      try reflexivity.
    + apply canonicalize_toLowerUnit in E. contradiction.
    + apply canonicalize_toLowerUnit in E'. contradiction.
Qed.

Lemma startsWithCI_toLowerCase pat m :
  lowersInPlace pat ->
  startsWithCI pat m = true -> String.length m = String.length pat ->
  toLowerCase m = toLowerCase pat.
Proof.
  unfold lowersInPlace.
  revert m; induction pat as [| a pat IH]; intros [| b m] Hpat;
    cbn [startsWithCI String.length];
    intros H Hlen; try reflexivity; try discriminate.
  apply hasUnit_cons in Hpat as [Ha Hpat].
  apply andb_true_iff in H as [Hab H].
  apply Ascii.eqb_eq in Hab.
  assert (Hb : Ascii.eqb b dottedCapitalI = false)
    by (now rewrite <- (canonicalize_dottedCapitalI a b Hab)).
  apply canonicalize_toLowerUnit in Hab.
  rewrite !toLowerCase_cons by assumption.
  rewrite Hab. f_equal. apply IH; [exact Hpat | exact H | lia].
Qed.

(** Where the code finds the token in the lower-cased text, the text has
    the token up to case. *)
Lemma timeIndex_occurrence quoteText timeString :
  lowersInPlace quoteText -> lowersInPlace timeString ->
  let timeIndex := indexOf (toLowerCase quoteText) (toLowerCase timeString) 0 in
  timeIndex <> -1 ->
  startsWithCI timeString (drop (Z.to_nat timeIndex) quoteText) = true.
Proof.
  intros Hq Ht timeIndex Hfound.
  destruct (indexOf_first (toLowerCase quoteText) (toLowerCase timeString)
              0 ltac:(pose proof (len_nonneg (toLowerCase quoteText)); lia))
    as [Hfirst _].
  destruct (Hfirst Hfound) as (_ & [_ Hocc] & _).
  fold timeIndex in Hocc.
  rewrite <- toLowerCase_drop in Hocc by exact Hq.
  rewrite startsWith_toLowerCase in Hocc; [exact Hocc | exact Ht |].
  now apply hasUnit_drop.
Qed.



Lemma startsWithCI_in_take pat s n :
  startsWithCI pat s = true -> (String.length pat <= n)%nat ->
  startsWithCI pat (take n s) = true.
Proof.
  revert s n; induction pat as [| a pat IH]; intros [| b s] [| n]; cbn;
    intros H Hn; try reflexivity; try discriminate; try lia.
  apply andb_true_iff in H as [Hab H]. rewrite Hab. cbn.
  apply IH; [exact H | lia].
Qed.


Lemma substring_take_drop s a b :
  0 <= a -> a <= b -> b <= len s ->
  substring s a b = take (Z.to_nat (b - a)) (drop (Z.to_nat a) s).
Proof.
  intros Ha Hab Hb. unfold substring, clampTo.
  replace (Z.min (Z.max a 0) (len s)) with a by lia.
  replace (Z.min (Z.max b 0) (len s)) with b by lia.
  now rewrite Z.min_l, Z.max_r by lia.
Qed.




End FitAndMark.

(** ** The token in the fitted text *)

Section TokenKept.
Import Js JsFacts.

Lemma take_add a b s : take (a + b) s = take a s ++ take b (drop a s).
Proof.
  revert s; induction a as [| a IH]; intros s; [reflexivity |].
  destruct s as [| c s]; cbn; [now destruct b | now rewrite IH].
Qed.

(** A part of a text is its part up to a position in it and its part from
    there on. *)
Lemma substring_split s a b c :
  0 <= a -> a <= b -> b <= c -> c <= len s ->
  substring s a c = substring s a b ++ substring s b c.
Proof.
  intros Ha Hab Hbc Hc.
  rewrite !substring_take_drop by lia.
  replace (Z.to_nat (c - a))
    with (Z.to_nat (b - a) + Z.to_nat (c - b))%nat by lia.
  rewrite take_add, drop_drop.
  now replace (Z.to_nat (b - a) + Z.to_nat a)%nat with (Z.to_nat b) by lia.
Qed.

(** C1 (as amended): a text longer than the budget of 120 comes back with at
    most 126 units, whatever the time token.  When moreover the token has at
    most 90 units and neither the text nor the token holds U+0130, the one
    character that [toLowerCase] makes longer, the occurrence of the token
    that the window was centered on lies whole inside the window and comes
    back whole in the text returned; neither edge of the window cuts it. *)
Theorem smartTruncateQuote_long quoteText timeString :
  len quoteText > maxLength ->
  len (smartTruncateQuote quoteText timeString) <= 126 /\
  (len timeString <= 90 ->
   lowersInPlace quoteText -> lowersInPlace timeString ->
   tokenInsideWindow quoteText timeString /\
   tokenNotSplit quoteText timeString).
Proof.
  intros Hlong. split; [now apply smartTruncateQuote_length |].
  intros Hshort Hq Ht.
  assert (Hwin : forall startIndex endIndex,
             indexOf (toLowerCase quoteText) (toLowerCase timeString) 0 <> -1 ->
             truncationWindow quoteText timeString
               (indexOf (toLowerCase quoteText) (toLowerCase timeString) 0)
             = (startIndex, endIndex) ->
             startIndex
             <= indexOf (toLowerCase quoteText) (toLowerCase timeString) 0 /\
             indexOf (toLowerCase quoteText) (toLowerCase timeString) 0
             + len timeString <= endIndex).
  { intros startIndex endIndex Hfound W.
    destruct (timeIndex_inside quoteText timeString Hq Ht Hfound) as [Hlo Hhi].
    exact (truncationWindow_holds_token quoteText timeString Hlong _ _ _
             Hshort Hlo Hhi W). }
  split.
  - unfold tokenInsideWindow. cbv zeta. intros Hfound.
    pose proof (timeIndex_occurrence quoteText timeString Hq Ht Hfound) as Hat.
    destruct (timeIndex_inside quoteText timeString Hq Ht Hfound) as [Hlo Hhi].
    set (timeIndex :=
           indexOf (toLowerCase quoteText) (toLowerCase timeString) 0) in *.
    pose proof (len_nonneg timeString) as Hpos.
    assert (Hocc : substring quoteText timeIndex (timeIndex + len timeString)
                   = take (String.length timeString)
                       (drop (Z.to_nat timeIndex) quoteText)).
    { rewrite substring_take_drop by lia. f_equal. unfold len. lia. }
    assert (Hlen : String.length
                     (take (String.length timeString)
                        (drop (Z.to_nat timeIndex) quoteText))
                   = String.length timeString).
    { rewrite length_take, length_drop. unfold len in *. lia. }
    split; [rewrite Hocc; unfold len; now rewrite Hlen |].
    split.
    { rewrite Hocc. apply startsWithCI_toLowerCase; [exact Ht | | exact Hlen].
      apply startsWithCI_in_take; [exact Hat | lia]. }
    intros startIndex endIndex W.
    destruct (Hwin _ _ Hfound W) as [Hs He].
    split; [exact Hs |]. split; [exact He |].
    pose proof (truncationWindow_bounds quoteText timeString Hlong _ _ _ W)
      as (H0 & H1 & H2 & _).
    unfold smartTruncateQuote. fold timeIndex.
    destruct (len quoteText <=? maxLength) eqn:Efit;
      [apply Z.leb_le in Efit; lia |].
    apply Z.eqb_neq in Hfound. rewrite Hfound, W.
    rewrite (substring_split quoteText startIndex timeIndex endIndex)
      by lia.
    rewrite (substring_split quoteText timeIndex
               (timeIndex + len timeString) endIndex) by lia.
    destruct (startIndex >? 0), (endIndex <? len quoteText);
      cbn [append]; rewrite ?append_empty_r, ?append_assoc; reflexivity.
  - intros Hfound startIndex endIndex W.
    destruct (Hwin _ _ Hfound W) as [Hs He].
    unfold edgeInsideToken. lia.
Qed.

Lemma smartTruncateQuote_long_witness :
  len aprilQuote > maxLength /\
  len (smartTruncateQuote aprilQuote "striking thirteen") <= 126 /\
  tokenInsideWindow aprilQuote "striking thirteen" /\
  tokenNotSplit aprilQuote "striking thirteen".
Proof.
  assert (Hlong : len aprilQuote > maxLength) by (vm_compute; reflexivity).
  split; [exact Hlong |].
  destruct (smartTruncateQuote_long aprilQuote "striking thirteen" Hlong)
    as [Hlen Htok].
  split; [exact Hlen |].
  apply Htok; vm_compute; try reflexivity; discriminate.
Defined.

(** C1 (as stated) fails.  In [ramblingQuote] the window runs from position
    24 to position 135, and both lie inside the token, which occupies the
    positions 7 to 151.  A token of 14 units is cut as well when U+0130
    stands before it: in [dottedQuote] the token stands at the positions 60
    to 73; it is found at position 120 of the lower-cased text, which is 60
    units longer; the window centered there begins at position 70 of the
    text, and of the token only its last word comes back. *)
Lemma smartTruncateQuote_splits_token :
  ~ (forall quoteText timeString,
        len quoteText > maxLength ->
        len (smartTruncateQuote quoteText timeString) <= 126 /\
        tokenNotSplit quoteText timeString) /\
  (len dottedQuote > maxLength /\ len dottedToken <= 90 /\
   substring dottedQuote 60 74 = dottedToken /\
   indexOf (toLowerCase dottedQuote) (toLowerCase dottedToken) 0 = 120 /\
   truncationWindow dottedQuote dottedToken 120 = (70, 180) /\
   edgeInsideToken 70 60 (len dottedToken) /\
   smartTruncateQuote dottedQuote dottedToken
   = "...nine, said the clock of the ferry house, and the last boat to the far shore had left the quay without a single..." /\
   ~ tokenInsideWindow dottedQuote dottedToken).
Proof.
  split.
  - intros H.
    destruct (H ramblingQuote ramblingToken) as [_ Htok];
      [vm_compute; reflexivity |].
    destruct (Htok ltac:(vm_compute; discriminate) 24 135
                ltac:(vm_compute; reflexivity)) as [Hstart _].
    apply Hstart. unfold edgeInsideToken. vm_compute. split; reflexivity.
  - split; [vm_compute; reflexivity |].
    split; [vm_compute; discriminate |].
    split; [vm_compute; reflexivity |].
    split; [vm_compute; reflexivity |].
    split; [vm_compute; reflexivity |].
    split; [unfold edgeInsideToken; vm_compute; split; reflexivity |].
    split; [vm_compute; reflexivity |].
    intros H.
    destruct (H ltac:(vm_compute; discriminate)) as (_ & Hcase & _).
    vm_compute in Hcase. discriminate Hcase.
Qed.

End TokenKept.

(** ** The weather line *)

(** X8: [getWeatherCondition] answers 'Unknown' exactly for the codes it has
    no label for, and never an empty label. *)
Theorem getWeatherCondition_unknown code :
  (getWeatherCondition code = "Unknown" <-> ~ In code knownWeatherCodes) /\
  getWeatherCondition code <> "".
Proof.
  assert (Hknown : forallb
                     (fun c => negb (String.eqb (getWeatherCondition c)
                                       "Unknown"))
                     knownWeatherCodes = true) by (vm_compute; reflexivity).
  rewrite forallb_forall in Hknown.
  assert (Hcases : getWeatherCondition code = "Unknown" \/
                   In code knownWeatherCodes).
  { destruct code as [| p | p]; [right; cbn; auto | | left; reflexivity].
    do 7 (try destruct p as [p | p |]);
      try (left; reflexivity); right; cbn; tauto. }
  split.
  - split.
    + intros Hu Hin. apply Hknown in Hin. rewrite Hu in Hin. discriminate.
    + intros Hnot. destruct Hcases as [H | H]; [exact H | contradiction].
  - assert (Hlabel : forallb
                       (fun c => negb (String.eqb (getWeatherCondition c) ""))
                       knownWeatherCodes = true) by (vm_compute; reflexivity).
    rewrite forallb_forall in Hlabel.
    destruct Hcases as [H | H]; [rewrite H; discriminate |].
    apply Hlabel in H. intros E. rewrite E in H. discriminate.
Qed.

(** ** What the callbacks never touch *)

Create HintDb startup discriminated.
#[local] Hint Resolve keeps_ret keeps_throw keeps_get keeps_bind
  keeps_tryCatch keeps_unawaited : startup.

Section StartupFrames.
Variable config : Config.
Variable oracles : Oracles.

Lemma getCurrentTime_keeps_startup :
  keeps startupState (getCurrentTime config oracles).
Proof.
  intros w. rewrite getCurrentTime_cases. cbv zeta.
  destruct (useWebTime (timeSync config)); cbn [negb]; [| reflexivity].
  destruct (timeService oracles (timeFetches w)) as [| [networkTime |]];
    [destruct (fallbackToSystemTime (timeSync config)) | |]; reflexivity.
Qed.

Lemma newDate_keeps_startup : keeps startupState newDate.
Proof. now intros w. Qed.

Lemma onQuoteEl_keeps_startup f :
  keeps startupState (updateDocument (onQuoteEl f)).
Proof. now intros w. Qed.

Lemma onAuthorEl_keeps_startup f :
  keeps startupState (updateDocument (onAuthorEl f)).
Proof. now intros w. Qed.

Lemma onDatetimeEl_keeps_startup f :
  keeps startupState (updateDocument (onDatetimeEl f)).
Proof. now intros w. Qed.

Lemma onWeatherEl_keeps_startup f :
  keeps startupState (updateDocument (onWeatherEl f)).
Proof. now intros w. Qed.

Lemma setTimeout_keeps_startup cb ms : keeps startupState (setTimeout cb ms).
Proof. now intros w. Qed.

Lemma setInterval_keeps_startup cb ms :
  keeps startupState (setInterval cb ms).
Proof. now intros w. Qed.

#[local] Hint Resolve getCurrentTime_keeps_startup newDate_keeps_startup
  onQuoteEl_keeps_startup onAuthorEl_keeps_startup
  onDatetimeEl_keeps_startup onWeatherEl_keeps_startup
  setTimeout_keeps_startup setInterval_keeps_startup : startup.

Lemma findQuoteForCurrentTime_keeps_startup :
  keeps startupState (findQuoteForCurrentTime config oracles).
Proof. unfold findQuoteForCurrentTime. auto 10 with startup. Qed.

Lemma updateDateTimeDisplay_keeps_startup :
  keeps startupState (updateDateTimeDisplay config oracles).
Proof.
  unfold updateDateTimeDisplay. apply keeps_bind; [auto with startup |].
  intros w. destruct (datetimeEl (document w)); auto 10 with startup.
Qed.

Lemma updateWeatherDisplay_keeps_startup :
  keeps startupState (updateWeatherDisplay config oracles).
Proof.
  unfold updateWeatherDisplay. apply keeps_bind; [auto with startup |].
  intros w. destruct (weatherEl (document w)); [| auto with startup].
  apply keeps_tryCatch; [| auto with startup].
  apply keeps_bind; [auto with startup |].
  intros _ w1.
  destruct (weatherService oracles (weatherFetches w1))
    as [| status [[[temp code] |] |]];
    [reflexivity | | |]; destruct (negb _); reflexivity.
Qed.

Lemma showQuote_keeps_startup matchedQuote :
  keeps startupState (showQuote config oracles matchedQuote).
Proof.
  unfold showQuote. destruct matchedQuote; auto 12 with startup.
Qed.

#[local] Hint Resolve findQuoteForCurrentTime_keeps_startup
  updateDateTimeDisplay_keeps_startup updateWeatherDisplay_keeps_startup
  showQuote_keeps_startup : startup.

Lemma updateQuote_keeps_startup :
  keeps startupState (updateQuote config oracles).
Proof.
  unfold updateQuote. apply keeps_bind; [auto with startup | intros mq].
  apply keeps_bind; [auto with startup | intros w].
  destruct (quoteEl (document w)), (authorEl (document w));
    auto 12 with startup.
Qed.

Lemma setupPreciseMinuteTiming_keeps_startup :
  keeps startupState (setupPreciseMinuteTiming config oracles).
Proof. unfold setupPreciseMinuteTiming. auto 10 with startup. Qed.

#[local] Hint Resolve updateQuote_keeps_startup
  setupPreciseMinuteTiming_keeps_startup : startup.

Lemma runCallback_keeps_startup cb :
  keeps startupState (runCallback config oracles cb).
Proof. destruct cb; cbn [runCallback]; auto 10 with startup. Qed.

(** Running a callback only adds timers. *)
Lemma runCallback_appends cb w :
  exists extra,
    timers (snd (runCallback config oracles cb w)) = (timers w ++ extra)%list.
Proof.
  destruct cb as [| | | matchedQuote |]; cbn [runCallback].
  - exists []. now rewrite app_nil_r.
  - unfold bind, unawaited, setInterval, modify. cbn [snd timers setTimers].
    destruct (updateQuote_timers config oracles w) as [H | (fade & _ & H)];
      rewrite H; [| rewrite <- app_assoc]; eauto.
  - unfold unawaited. cbn [snd].
    destruct (updateQuote_timers config oracles w) as [H | (fade & _ & H)];
      rewrite H; [exists []; now rewrite app_nil_r | eauto].
  - exists []. rewrite app_nil_r. unfold unawaited. cbn [snd].
    apply showQuote_keeps_timers.
  - exists []. rewrite app_nil_r. unfold unawaited. cbn [snd].
    apply updateWeatherDisplay_keeps_timers.
Qed.

Lemma fires_keeps_startup w w' :
  fires config oracles w w' -> startupState w' = startupState w.
Proof.
  intros [before t after w0 Ht Hrep | t w0 Hin Hrep];
    now rewrite runCallback_keeps_startup.
Qed.

Lemma fires_keeps_intervals w w' t :
  fires config oracles w w' ->
  In t (timers w) -> repeating t = true -> In t (timers w').
Proof.
  intros [before t0 after w0 Ht Hrep | t0 w0 Hin0 Hrep] Hin Hint.
  - destruct (runCallback_appends (callback t0)
                (setTimers (before ++ after)%list w0)) as [extra H].
    rewrite H. cbn [timers setTimers]. apply in_or_app. left.
    rewrite Ht in Hin. apply in_app_or in Hin as [Hin | [<- | Hin]].
    + apply in_or_app; now left.
    + congruence.
    + apply in_or_app; now right.
  - destruct (runCallback_appends (callback t0) w0) as [extra H].
    rewrite H. apply in_or_app. now left.
Qed.

(** X9: after startup the loaded quotes, the count of dataset requests and
    the quote container stay as they are, whatever timers fire: the dataset
    is never fetched again and the error banner can appear at startup only. *)
Theorem reachable_keeps_startup w w' :
  reachable config oracles w w' ->
  quotes w' = quotes w /\ datasetFetches w' = datasetFetches w /\
  quoteContainerEl (document w') = quoteContainerEl (document w).
Proof.
  intros Hreach.
  assert (H : startupState w' = startupState w).
  { induction Hreach as [| w1 w2 _ IH Hstep]; [reflexivity |].
    rewrite <- IH. now apply fires_keeps_startup. }
  unfold startupState in H. now injection H.
Qed.

(** X10: nothing clears an interval: a repeating timer that is registered
    stays registered in every world the page can reach, also when the
    callbacks fail. *)
Theorem reachable_keeps_intervals w w' t :
  reachable config oracles w w' ->
  In t (timers w) -> repeating t = true -> In t (timers w').
Proof.
  intros Hreach Hin Hint.
  induction Hreach as [| w1 w2 _ IH Hstep]; [exact Hin |].
  now apply (fires_keeps_intervals w1 w2 t Hstep).
Qed.

End StartupFrames.

(** ** Requests and readings of [getCurrentTime] *)

(** X11: one resolution of the time calls the time service once when the web
    time is enabled, whatever comes back, and never otherwise; it reads the
    system clock once, or twice when it falls back; it changes nothing else;
    and a response whose date cannot be read counts as agreement: the local
    time is returned, whatever the threshold and the fallback setting. *)
Theorem getCurrentTime_requests config oracles w :
  let w' := snd (getCurrentTime config oracles w) in
  timeFetches w'
  = (if useWebTime (timeSync config) then S (timeFetches w)
     else timeFetches w) /\
  (clockReads w < clockReads w' <= clockReads w + 2)%nat /\
  (clockReads w' = (clockReads w + 2)%nat <->
   useWebTime (timeSync config) = true /\
   timeService oracles (timeFetches w) = TimeFetchFailed /\
   fallbackToSystemTime (timeSync config) = true) /\
  quotes w' = quotes w /\ document w' = document w /\
  timers w' = timers w /\ datasetFetches w' = datasetFetches w /\
  weatherFetches w' = weatherFetches w /\
  (useWebTime (timeSync config) = true ->
   timeService oracles (timeFetches w) = TimeFetched InvalidDate ->
   fst (getCurrentTime config oracles w)
   = Returned (systemClock oracles (clockReads w))).
Proof.
  rewrite getCurrentTime_cases. cbv zeta.
  destruct (useWebTime (timeSync config)); cbn [negb].
  - destruct (timeService oracles (timeFetches w)) as [| [networkTime |]];
      [destruct (fallbackToSystemTime (timeSync config)) | |];
      cbn; repeat split; try lia; try congruence; try tauto;
      intros; try discriminate; try lia; intuition (try discriminate; lia).
  - cbn; repeat split; try lia; try congruence;
      intros; try discriminate; try lia; intuition (try discriminate; lia).
Qed.

Lemma getCurrentTime_requests_witness :
  fst (getCurrentTime (configWith true false 0)
         (steadyOracles (clockTime 9 41 7) (TimeFetched InvalidDate)
            DatasetUnreachable)
         (initialWorld fullDocument))
  = Returned (clockTime 9 41 7).
Proof.
  destruct (getCurrentTime_requests (configWith true false 0)
              (steadyOracles (clockTime 9 41 7) (TimeFetched InvalidDate)
                 DatasetUnreachable)
              (initialWorld fullDocument))
    as (_ & _ & _ & _ & _ & _ & _ & _ & Hinvalid).
  apply Hinvalid; reflexivity.
Defined.

(** ** Loading the dataset *)

(** X12: [loadQuotes] makes one request.  For a response whose body is an
    array of quote records or does not parse at all (the responses of
    [DatasetResponse]), it succeeds exactly when the status is in 200..299
    and the body parses, and then [quotes] is that body; otherwise it throws
    and [quotes] is left as it was; a status outside 200..299 is reported
    with that status, whatever the body. *)
Theorem loadQuotes_delivers oracles w :
  let r := datasetService oracles (datasetFetches w) in
  let w' := snd (loadQuotes oracles w) in
  datasetFetches w' = S (datasetFetches w) /\
  (forall qs, datasetDelivered r = Some qs ->
              fst (loadQuotes oracles w) = Returned tt /\ quotes w' = qs) /\
  (datasetDelivered r = None ->
   (exists e, fst (loadQuotes oracles w) = Thrown e) /\
   quotes w' = quotes w) /\
  (forall status body,
      r = DatasetResponded status body -> ~ (200 <= status <= 299) ->
      fst (loadQuotes oracles w) = Thrown (HttpError status)).
Proof.
  cbv zeta. unfold loadQuotes, tryCatch, throw, datasetDelivered.
  destruct (datasetService oracles (datasetFetches w)) as [| status body].
  - cbn. split; [reflexivity |]. split; [discriminate |].
    split; [eauto |]. discriminate.
  - destruct ((200 <=? status) && (status <=? 299)) eqn:Eok; cbn [negb].
    + apply andb_true_iff in Eok as [E1 E2].
      apply Z.leb_le in E1, E2.
      destruct body as [qs |]; cbn [fst snd].
      * split; [reflexivity |]. split; [now intros ? [= <-] |].
        split; [discriminate |].
        intros status' body' [= <- <-]. lia.
      * split; [reflexivity |]. split; [discriminate |].
        split; [eauto |].
        intros status' body' [= <- <-]. lia.
    + cbn [fst snd]. split; [reflexivity |].
      split; [destruct body; discriminate |].
      split; [eauto |].
      now intros status' body' [= <- <-].
Qed.

Lemma loadQuotes_delivers_witness :
  fst (loadQuotes
         (steadyOracles (clockTime 9 41 7) TimeFetchFailed
            (DatasetResponded 404 (Some sampleQuotes)))
         (initialWorld fullDocument))
  = Thrown (HttpError 404) /\
  quotes (snd (loadQuotes
                 (steadyOracles (clockTime 9 41 7) TimeFetchFailed
                    (DatasetResponded 200 (Some sampleQuotes)))
                 (initialWorld fullDocument)))
  = sampleQuotes.
Proof.
  split.
  - destruct (loadQuotes_delivers
                (steadyOracles (clockTime 9 41 7) TimeFetchFailed
                   (DatasetResponded 404 (Some sampleQuotes)))
                (initialWorld fullDocument)) as (_ & _ & _ & Hstatus).
    apply (Hstatus 404 (Some sampleQuotes)); [reflexivity | lia].
  - destruct (loadQuotes_delivers
                (steadyOracles (clockTime 9 41 7) TimeFetchFailed
                   (DatasetResponded 200 (Some sampleQuotes)))
                (initialWorld fullDocument)) as (_ & Hok & _).
    apply (Hok sampleQuotes). reflexivity.
Defined.

(** ** The weather field and the date field *)

(** X13: [updateWeatherDisplay] never throws.  Without a weather element it
    does nothing, not even a request.  With one it makes one request and
    leaves the field with the city, the temperature and the condition when
    the response delivers them, and with the city and the notice 'Weather
    unavailable' for every kind of failure; the loading line never stays. *)
Theorem updateWeatherDisplay_shows config oracles w :
  let w' := snd (updateWeatherDisplay config oracles w) in
  fst (updateWeatherDisplay config oracles w) = Returned tt /\
  (weatherEl (document w) = None -> w' = w) /\
  (forall el,
      weatherEl (document w) = Some el ->
      weatherFetches w' = S (weatherFetches w) /\
      weatherEl (document w')
      = Some {| content :=
                  match weatherDelivered
                          (weatherService oracles (weatherFetches w)) with
                  | Some (temp, weatherCode) =>
                      city config ++ " • " ++ Js.ofInt temp ++ "°C • "
                      ++ getWeatherCondition weatherCode
                  | None =>
                      city config ++ " • "
                      ++ weatherUnavailable (messages config)
                  end;
                opacity := opacity el |}).
Proof.
  cbv zeta. split; [apply updateWeatherDisplay_never_throws |].
  destruct w as [qs [qe ae ce de we] ts c1 c2 c3 c4].
  unfold updateWeatherDisplay, weatherDelivered, tryCatch, bind, get,
    updateDocument, modify.
  cbn [document weatherEl weatherFetches fst snd setDocument onWeatherEl
       tickWeatherFetch option_map quotes timers clockReads timeFetches
       datasetFetches quoteEl authorEl quoteContainerEl datetimeEl].
  destruct we as [el0 |].
  - split; [discriminate |]. intros el [= <-]. cbn.
    destruct (weatherService oracles c4) as [| status [[[temp code] |] |]];
      [| destruct ((200 <=? status) && (status <=? 299))
       | destruct ((200 <=? status) && (status <=? 299))
       | destruct ((200 <=? status) && (status <=? 299))];
      now split.
  - split; [reflexivity | discriminate].
Qed.

Lemma updateWeatherDisplay_shows_witness :
  weatherEl (document
    (snd (updateWeatherDisplay defaultConfig
            (steadyOracles (clockTime 9 41 7) TimeFetchFailed
               DatasetUnreachable)
            (initialWorld fullDocument))))
  = Some {| content := "Evanston • Weather unavailable"; opacity := "1" |}.
Proof.
  destruct (updateWeatherDisplay_shows defaultConfig
              (steadyOracles (clockTime 9 41 7) TimeFetchFailed
                 DatasetUnreachable)
              (initialWorld fullDocument)) as (_ & _ & Hshown).
  apply (Hshown blankElement). reflexivity.
Defined.

(** X14: [updateDateTimeDisplay] never throws.  Without a date element it
    does nothing, not even a reading of the clock.  With one it shows the
    date of a fresh clock reading and the resolved time as "HH:MM" when the
    time resolves, and the notice 'Time unavailable' exactly when it does
    not. *)
Theorem updateDateTimeDisplay_shows config oracles w :
  let w' := snd (updateDateTimeDisplay config oracles w) in
  fst (updateDateTimeDisplay config oracles w) = Returned tt /\
  (datetimeEl (document w) = None -> w' = w) /\
  (forall el,
      datetimeEl (document w) = Some el ->
      (forall t w1,
          getCurrentTime config oracles w = (Returned t, w1) ->
          datetimeEl (document w')
          = Some {| content := localeDate oracles (clockReads w1) ++ " • "
                               ++ formatTime (hours t) (minutes t);
                    opacity := opacity el |}) /\
      (forall e w1,
          getCurrentTime config oracles w = (Thrown e, w1) ->
          datetimeEl (document w')
          = Some {| content := timeUnavailable (messages config);
                    opacity := opacity el |})).
Proof.
  cbv zeta. split; [apply updateDateTimeDisplay_never_throws |].
  unfold updateDateTimeDisplay, bind at 1, get. cbv beta iota.
  destruct (datetimeEl (document w)) as [el0 |] eqn:Eel.
  - split; [discriminate |]. intros el [= <-].
    pose proof (getCurrentTime_frame config oracles w) as (_ & Hdoc & _).
    split.
    + intros t w1 Htime. rewrite Htime in Hdoc. cbn [snd] in Hdoc.
      unfold tryCatch, bind, newDate, updateDocument, modify.
      rewrite Eel. cbv beta. rewrite Htime. cbn. now rewrite Hdoc, Eel.
    + intros e w1 Htime. rewrite Htime in Hdoc. cbn [snd] in Hdoc.
      unfold tryCatch, bind, newDate, updateDocument, modify.
      rewrite Eel. cbv beta. rewrite Htime. cbn. now rewrite Hdoc, Eel.
  - split; [reflexivity | discriminate].
Qed.

Lemma updateDateTimeDisplay_shows_witness :
  datetimeEl (document
    (snd (updateDateTimeDisplay (configWith true false 30)
            (steadyOracles (clockTime 9 41 7) TimeFetchFailed
               DatasetUnreachable)
            (initialWorld fullDocument))))
  = Some {| content := "Time unavailable"; opacity := "1" |} /\
  datetimeEl (document
    (snd (updateDateTimeDisplay defaultConfig
            (steadyOracles (clockTime 9 41 7) TimeFetchFailed
               DatasetUnreachable)
            (initialWorld fullDocument))))
  = Some {| content := "Mon, Jan 6 • 09:41"; opacity := "1" |}.
Proof.
  split.
  - destruct (updateDateTimeDisplay_shows (configWith true false 30)
                (steadyOracles (clockTime 9 41 7) TimeFetchFailed
                   DatasetUnreachable)
                (initialWorld fullDocument)) as (_ & _ & Hshown).
    destruct (Hshown blankElement eq_refl) as [_ Hfail].
    apply (Hfail TimeUnavailable
             (tickTimeFetch (tickClock (initialWorld fullDocument)))).
    reflexivity.
  - destruct (updateDateTimeDisplay_shows defaultConfig
                (steadyOracles (clockTime 9 41 7) TimeFetchFailed
                   DatasetUnreachable)
                (initialWorld fullDocument)) as (_ & _ & Hshown).
    destruct (Hshown blankElement eq_refl) as [Hok _].
    apply (Hok (clockTime 9 41 7) (tickClock (initialWorld fullDocument))).
    reflexivity.
Defined.

(** ** The lookup key *)

Lemma twoDigits_injective n m :
  0 <= n < 100 -> 0 <= m < 100 -> twoDigits n = twoDigits m -> n = m.
Proof.
  intros Hn Hm H. unfold twoDigits in H.
  injection H as H1 H2.
  assert (Hinj : forall a b, (a < 256)%nat -> (b < 256)%nat ->
                             ascii_of_nat a = ascii_of_nat b -> a = b).
  { intros a b Ha Hb E.
    rewrite <- (nat_ascii_embedding a Ha), <- (nat_ascii_embedding b Hb).
    now rewrite E. }
  assert (Hq : n / 10 = m / 10).
  { assert (0 <= n / 10 < 10 /\ 0 <= m / 10 < 10)
      by (split; split; try apply Z.div_pos; try apply Z.div_lt_upper_bound;
          lia).
    apply Hinj in H1; lia. }
  assert (Hr : n mod 10 = m mod 10).
  { pose proof (Z.mod_pos_bound n 10 ltac:(lia)).
    pose proof (Z.mod_pos_bound m 10 ltac:(lia)).
    apply Hinj in H2; lia. }
  rewrite (Z.div_mod n 10), (Z.div_mod m 10) by lia. now rewrite Hq, Hr.
Qed.

(** X15: for hours 0..23 and minutes 0..59 the key of the lookup has five
    units, and two different minutes of the day never get the same key. *)
Theorem formatTime_key h m h' m' :
  0 <= h < 24 -> 0 <= m < 60 -> 0 <= h' < 24 -> 0 <= m' < 60 ->
  Js.len (formatTime h m) = 5 /\
  (formatTime h m = formatTime h' m' -> h = h' /\ m = m').
Proof.
  intros Hh Hm Hh' Hm'. unfold formatTime.
  rewrite !padStart_twoDigits by lia.
  split; [reflexivity |].
  intros E.
  assert (Hparts : twoDigits h = twoDigits h' /\ twoDigits m = twoDigits m').
  { unfold twoDigits in *. cbn [append] in E.
    repeat match goal with
           | |- context [ascii_of_nat ?x] =>
               let d := fresh "d" in
               remember (ascii_of_nat x) as d in *
           end.
    injection E as E1 E2 E3 E4. split; congruence. }
  destruct Hparts. split; apply twoDigits_injective; auto; lia.
Qed.

Lemma formatTime_key_witness :
  Js.len (formatTime 9 41) = 5 /\
  (formatTime 9 41 = formatTime 9 41 -> 9 = 9 /\ 41 = 41).
Proof.
  apply (formatTime_key 9 41 9 41); lia.
Defined.

(** ** One refresh of the quote, from [updateQuote] to the end of the fade *)

Section Refresh.
Variable config : Config.
Variable oracles : Oracles.

Lemma getCurrentTime_keeps_quoteFields :
  keeps quoteFields (getCurrentTime config oracles).
Proof.
  intros w. unfold quoteFields.
  destruct (getCurrentTime_frame config oracles w) as (H1 & H2 & H3).
  now rewrite H1, H2, H3.
Qed.

Lemma updateDateTimeDisplay_keeps_quoteFields :
  keeps quoteFields (updateDateTimeDisplay config oracles).
Proof.
  unfold updateDateTimeDisplay.
  apply keeps_bind; [apply keeps_get | intros w].
  destruct (datetimeEl (document w)) as [el |]; [| apply keeps_ret].
  apply keeps_tryCatch.
  - apply keeps_bind; [apply getCurrentTime_keeps_quoteFields | intros t].
    apply keeps_bind; [now intros w0 | intros now]. now intros w0.
  - intros err. now intros w0.
Qed.

(** Under a policy that always resolves the time, it does. *)
Lemma getCurrentTime_resolves w :
  timeAlwaysResolves config ->
  exists t, fst (getCurrentTime config oracles w) = Returned t.
Proof.
  intros Hpolicy. rewrite getCurrentTime_cases. cbv zeta.
  destruct (useWebTime (timeSync config)) eqn:Eweb; cbn [negb];
    [| eexists; reflexivity].
  destruct Hpolicy as [H | H]; [congruence |]. rewrite H.
  destruct (timeService oracles (timeFetches w)) as [| [networkTime |]];
    cbn [fst]; eexists; reflexivity.
Qed.

(** What [updateQuote] does once the time is resolved and both elements are
    on the page. *)
Lemma updateQuote_hides w t w0 qe ae :
  getCurrentTime config oracles w = (Returned t, w0) ->
  quoteEl (document w) = Some qe ->
  authorEl (document w) = Some ae ->
  let matchedQuote :=
    find (fun q => String.eqb (time q) (formatTime (hours t) (minutes t)))
      (quotes w) in
  let w1 := snd (updateQuote config oracles w) in
  fst (updateQuote config oracles w) = Returned tt /\
  timers w1
  = (timers w ++ [{| repeating := false; delay := fadeOutDuration config;
                     callback := CbShowQuote matchedQuote |}])%list /\
  quoteEl (document w1) = Some (withOpacity "0" qe) /\
  authorEl (document w1) = Some (withOpacity "0" ae) /\
  quotes w1 = quotes w.
Proof.
  intros Htime Hq Ha. cbv zeta.
  pose proof (getCurrentTime_keeps_quoteFields w) as Hk0.
  rewrite Htime in Hk0. cbn [snd] in Hk0. unfold quoteFields in Hk0.
  injection Hk0 as Hq0 Ha0 Ht0 Hqs0.
  pose proof (updateDateTimeDisplay_keeps_quoteFields w0) as Hk1.
  pose proof (updateDateTimeDisplay_never_throws config oracles w0) as Hr1.
  destruct (updateDateTimeDisplay config oracles w0) as [r1 w2] eqn:Edate.
  cbn [fst snd] in Hk1, Hr1. subst r1. unfold quoteFields in Hk1.
  injection Hk1 as Hq1 Ha1 Ht1 Hqs1.
  assert (Hrun : updateQuote config oracles w
                 = (Returned tt,
                    snd (setTimeout
                           (CbShowQuote
                              (find (fun q =>
                                       String.eqb (time q)
                                         (formatTime (hours t) (minutes t)))
                                 (quotes w)))
                           (fadeOutDuration config)
                           (snd (updateDocument (onAuthorEl (withOpacity "0"))
                                   (snd (updateDocument
                                           (onQuoteEl (withOpacity "0"))
                                           w2))))))).
  { unfold updateQuote, findQuoteForCurrentTime, bind, get, ret.
    rewrite Htime. rewrite Hqs0, Hq0, Ha0, Hq, Ha. now rewrite Edate. }
  rewrite Hrun. cbn [fst snd].
  unfold setTimeout, updateDocument, modify.
  cbn [fst snd timers setTimers setDocument document quotes onQuoteEl
       onAuthorEl quoteEl authorEl option_map].
  rewrite Ht1, Ht0, Hq1, Hq0, Hq, Ha1, Ha0, Ha, Hqs1, Hqs0.
  repeat split.
Qed.

(** X16: one refresh.  With the time resolved and the quote and author
    elements on the page, [updateQuote] hides both elements, keeps their
    text, and sets one timer of [fadeOutDuration] that carries the first
    quote filed under the resolved "HH:MM"; when that timer fires for a quote
    that was found, the quote element holds the fitted and marked quote in
    quotation marks, the author element holds title and author, and both are
    shown again. *)
Theorem refresh_shows_quote w t w0 qe ae :
  getCurrentTime config oracles w = (Returned t, w0) ->
  quoteEl (document w) = Some qe ->
  authorEl (document w) = Some ae ->
  let matchedQuote :=
    find (fun q => String.eqb (time q) (formatTime (hours t) (minutes t)))
      (quotes w) in
  let w1 := snd (updateQuote config oracles w) in
  fst (updateQuote config oracles w) = Returned tt /\
  timers w1
  = (timers w ++ [{| repeating := false; delay := fadeOutDuration config;
                     callback := CbShowQuote matchedQuote |}])%list /\
  quoteEl (document w1) = Some {| content := content qe; opacity := "0" |} /\
  authorEl (document w1) = Some {| content := content ae; opacity := "0" |} /\
  forall q,
    matchedQuote = Some q ->
    let w2 := snd (runCallback config oracles (CbShowQuote matchedQuote) w1) in
    quoteEl (document w2)
    = Some {| content := dquote
                         ++ highlightTimeString
                              (smartTruncateQuote (quote q) (timeString q))
                              (timeString q)
                         ++ dquote;
              opacity := "1" |} /\
    authorEl (document w2)
    = Some {| content := title q ++ " – " ++ author q; opacity := "1" |}.
Proof.
  intros Htime Hq Ha. cbv zeta.
  destruct (updateQuote_hides w t w0 qe ae Htime Hq Ha)
    as (Hret & Htimers & Hqe & Hae & _).
  split; [exact Hret |]. split; [exact Htimers |].
  split; [exact Hqe |]. split; [exact Hae |].
  intros q Hfound. rewrite Hfound.
  cbn [runCallback]. unfold unawaited. cbn [snd].
  rewrite showQuote_found. cbn [snd document setDocument].
  unfold onAuthorEl, onQuoteEl.
  cbn [quoteEl authorEl]. rewrite Hqe, Hae. now split.
Qed.

(** X17: the end of the fade when no quote was found.  The time is resolved
    anew: when it resolves, the quote element holds the notice with that time
    in [<strong>], the author element holds the no-source notice, and both
    are shown; when it does not, the callback throws before anything is
    written and the page stays as it was, the two elements hidden. *)
Theorem showQuote_none w :
  (forall t w0,
      getCurrentTime config oracles w = (Returned t, w0) ->
      document (snd (showQuote config oracles None w))
      = onAuthorEl (fun e => {| content := noSource (messages config);
                                opacity := "1" |})
          (onQuoteEl
             (fun e => {| content :=
                            dquote ++ noQuote (messages config)
                            ++ " <strong>"
                            ++ formatTime (hours t) (minutes t)
                            ++ "</strong>..." ++ dquote;
                          opacity := "1" |})
             (document w))) /\
  (forall e w0,
      getCurrentTime config oracles w = (Thrown e, w0) ->
      fst (showQuote config oracles None w) = Thrown e /\
      document (snd (showQuote config oracles None w)) = document w).
Proof.
  pose proof (getCurrentTime_frame config oracles w) as (_ & Hdoc & _).
  split.
  - intros t w0 Htime. rewrite Htime in Hdoc. cbn [snd] in Hdoc.
    unfold showQuote, bind, updateDocument, modify. rewrite Htime.
    cbn [fst snd document setDocument]. rewrite Hdoc.
    destruct (document w) as [[qe |] [ae |] ce de we]; reflexivity.
  - intros e w0 Htime. rewrite Htime in Hdoc. cbn [snd] in Hdoc.
    unfold showQuote, bind. rewrite Htime. now split.
Qed.

End Refresh.

(** ** A startup that succeeds *)

Section Startup.
Variable config : Config.
Variable oracles : Oracles.

Lemma updateQuote_returns w :
  timeAlwaysResolves config ->
  fst (updateQuote config oracles w) = Returned tt.
Proof.
  intros Hpolicy.
  destruct (getCurrentTime_resolves config oracles w Hpolicy) as [t Ht].
  destruct (getCurrentTime config oracles w) as [r w0] eqn:Etime.
  cbn [fst] in Ht. subst r.
  unfold updateQuote, findQuoteForCurrentTime, bind, get, ret.
  rewrite Etime.
  destruct (quoteEl (document w0)) as [qe |]; [| reflexivity].
  destruct (authorEl (document w0)) as [ae |]; [| reflexivity].
  pose proof (updateDateTimeDisplay_never_throws config oracles w0) as Hr.
  destruct (updateDateTimeDisplay config oracles w0) as [r1 w2].
  cbn [fst] in Hr. now subst r1.
Qed.

Lemma pendingAlignments_in w t :
  In t (timers w) -> callback t = CbStartMinuteCycle ->
  (1 <= pendingAlignments w)%nat.
Proof.
  intros Hin Hcb. unfold pendingAlignments.
  assert (Hf : In t (filter (fun t0 => match callback t0 with
                                       | CbStartMinuteCycle => true
                                       | _ => false
                                       end) (timers w)))
    by (apply filter_In; split; [exact Hin | now rewrite Hcb]).
  destruct (filter _ (timers w)); [contradiction | cbn; lia].
Qed.

(** X18: a startup that succeeds.  When the dataset is delivered and the
    policy always resolves the time, [init] shows no error banner and, once
    it and the two calls it does not await have run, the page holds the
    delivered quotes after one request and these timers, in whatever order
    they were registered: the keep-awake interval, the weather interval, the
    fade of the first quote if there is one, and one alignment to the next
    minute.  The delay of the alignment is [(60 - seconds) * 1000] for the
    seconds of the time that [getCurrentTime] resolves behind the first
    quote. *)
Theorem init_starts_cycle doc qs :
  datasetDelivered (datasetService oracles 0) = Some qs ->
  timeAlwaysResolves config ->
  let w := snd (init config oracles (initialWorld doc)) in
  let keepAwake := {| repeating := true;
                      delay := wakeLockFallbackInterval config;
                      callback := CbKeepAwake |} in
  let weather := {| repeating := true;
                    delay := weatherUpdateInterval config;
                    callback := CbUpdateWeather |} in
  fst (init config oracles (initialWorld doc)) = Returned tt /\
  quotes w = qs /\ datasetFetches w = 1%nat /\
  quoteContainerEl (document w) = quoteContainerEl doc /\
  In keepAwake (timers w) /\
  In weather (timers w) /\
  pendingAlignments w = 1%nat /\
  exists t w',
    getCurrentTime config oracles (worldBeforeAlignment config oracles doc)
    = (Returned t, w') /\
    let alignment := {| repeating := false;
                        delay := (60 - seconds t) * 1000;
                        callback := CbStartMinuteCycle |} in
    In alignment (timers w) /\
    forall timer,
      In timer (timers w) ->
      timer = keepAwake \/ timer = weather \/ timer = alignment \/
      isFadeTimer config timer.
Proof.
  intros Hdata Hpolicy. cbv zeta.
  set (w0 := initialWorld doc).
  (* the dataset *)
  assert (Hload : loadQuotes oracles w0
                  = (Returned tt, setQuotes qs (tickDatasetFetch w0))).
  { unfold loadQuotes, tryCatch. unfold datasetDelivered in Hdata.
    change (datasetFetches w0) with 0%nat.
    destruct (datasetService oracles 0) as [| status [qs' |]];
      try discriminate.
    destruct ((200 <=? status) && (status <=? 299)); [| discriminate].
    now injection Hdata as ->. }
  set (w1 := setQuotes qs (tickDatasetFetch w0)) in *.
  set (keepAwake := {| repeating := true;
                       delay := wakeLockFallbackInterval config;
                       callback := CbKeepAwake |}).
  set (w2 := setTimers (timers w1 ++ [keepAwake])%list w1).
  (* the date field *)
  pose proof (updateDateTimeDisplay_never_throws config oracles w2) as Hr3.
  pose proof (updateDateTimeDisplay_keeps_startup config oracles w2) as Hs3.
  pose proof (updateDateTimeDisplay_keeps_timers config oracles w2) as Ht3.
  destruct (updateDateTimeDisplay config oracles w2) as [r3 w3] eqn:E3.
  cbn [fst snd] in Hr3, Hs3, Ht3. subst r3.
  (* the weather field *)
  pose proof (updateWeatherDisplay_keeps_startup config oracles w3) as Hs4.
  pose proof (updateWeatherDisplay_keeps_timers config oracles w3) as Ht4.
  set (w4 := snd (updateWeatherDisplay config oracles w3)) in *.
  (* the first quote *)
  pose proof (updateQuote_returns w4 Hpolicy) as Hr5.
  pose proof (updateQuote_keeps_startup config oracles w4) as Hs5.
  assert (Ht5 : exists extra,
             timers (snd (updateQuote config oracles w4))
             = (timers w4 ++ extra)%list /\
             Forall (isFadeTimer config) extra).
  { destruct (updateQuote_timers config oracles w4) as [H | (fade & Hf & H)];
      rewrite H; [exists []; now rewrite app_nil_r | eauto]. }
  assert (Hbefore : worldBeforeAlignment config oracles doc
                    = snd (updateQuote config oracles w4)).
  { unfold worldBeforeAlignment. fold w0. unfold bind at 1. rewrite Hload.
    unfold bind at 1, setupFallbackKeepAwake, setInterval at 1, modify at 1.
    fold keepAwake. fold w2.
    unfold bind at 1. rewrite E3.
    unfold bind at 1, unawaited at 1. reflexivity. }
  destruct (updateQuote config oracles w4) as [r5 w5] eqn:E5.
  cbn [fst snd] in Hr5, Hs5, Ht5, Hbefore. subst r5.
  destruct Ht5 as (extra & Ht5 & Hfades).
  (* the alignment *)
  destruct (getCurrentTime_resolves config oracles w5 Hpolicy) as [t Ht].
  pose proof (getCurrentTime_keeps_startup config oracles w5) as Hs6.
  pose proof (getCurrentTime_keeps_timers config oracles w5) as Ht6.
  destruct (getCurrentTime config oracles w5) as [r6 w6] eqn:E6.
  cbn [fst snd] in Ht, Hs6, Ht6. subst r6.
  set (align := {| repeating := false; delay := (60 - seconds t) * 1000;
                   callback := CbStartMinuteCycle |}).
  set (weather := {| repeating := true;
                     delay := weatherUpdateInterval config;
                     callback := CbUpdateWeather |}).
  assert (Hinit : init config oracles w0
                  = (Returned tt,
                     setTimers ((timers w6 ++ [align]) ++ [weather])%list w6)).
  { unfold init, tryCatch, bind at 1. rewrite Hload.
    unfold bind at 1, setupFallbackKeepAwake, setInterval at 1, modify at 1.
    fold keepAwake. fold w2.
    unfold bind at 1. rewrite E3.
    unfold bind at 1, unawaited at 1. fold w4.
    unfold bind at 1. rewrite E5.
    unfold bind at 1, unawaited at 1, setupPreciseMinuteTiming, bind at 1.
    rewrite E6. reflexivity. }
  rewrite Hinit. cbn [fst snd].
  assert (Hstart : startupState w6 = startupState w1)
    by (now rewrite Hs6, Hs5, Hs4, Hs3).
  unfold startupState in Hstart. injection Hstart as Hq Hd Hc.
  assert (Htimers : timers w6 = ([keepAwake] ++ extra)%list)
    by (now rewrite Ht6, Ht5, Ht4, Ht3).
  split; [reflexivity |]. split; [exact Hq |]. split; [exact Hd |].
  split; [exact Hc |].
  cbn [timers setTimers]. rewrite Htimers.
  split; [now left |].
  split; [apply in_or_app; right; now left |].
  split.
  - apply Nat.le_antisymm.
    + pose proof (init_aligns config oracles w0) as Hle.
      fold w0 in Hinit. rewrite Hinit in Hle. cbn [snd] in Hle.
      unfold pendingAlignments in Hle at 2. cbn in Hle.
      unfold pendingAlignments in *. cbn [timers setTimers] in *.
      rewrite Htimers in Hle. exact Hle.
    + apply (pendingAlignments_in
               (setTimers
                  ((([keepAwake] ++ extra) ++ [align]) ++ [weather])%list w6)
               align); [| reflexivity].
      cbn [timers setTimers]. apply in_or_app; left.
      apply in_or_app; right. now left.
  - exists t, w6. rewrite Hbefore. split; [exact E6 |].
    split; [apply in_or_app; left; apply in_or_app; right; now left |].
    intros timer Hin.
    apply in_app_or in Hin as [Hin | [<- | []]]; [| now (right; left)].
    apply in_app_or in Hin as [Hin | [<- | []]]; [| now (right; right; left)].
    apply in_app_or in Hin as [[<- | []] | Hin]; [now left |].
    right; right; right. rewrite Forall_forall in Hfades. now apply Hfades.
Qed.

End Startup.

(** ** One refresh cycle, never two *)

Section OneCycle.
Variable config : Config.
Variable oracles : Oracles.

(** What running a callback adds to the timers: fades, and the refresh
    interval when the callback is the alignment. *)
Lemma runCallback_adds cb w :
  exists extra,
    timers (snd (runCallback config oracles cb w)) = (timers w ++ extra)%list /\
    Forall (fun t => callback t <> CbStartMinuteCycle) extra /\
    List.length
      (filter (fun t => repeating t
                        && match callback t with
                           | CbUpdateQuote => true
                           | _ => false
                           end) extra)
    = match cb with CbStartMinuteCycle => 1%nat | _ => 0%nat end.
Proof.
  assert (Hfade : forall fade, isFadeTimer config fade ->
                    callback fade <> CbStartMinuteCycle /\
                    repeating fade = false).
  { intros fade (Hrep & _ & mq & Hcb). split; [rewrite Hcb |]; easy. }
  destruct cb as [| | | matchedQuote |]; cbn [runCallback].
  - exists []. rewrite app_nil_r. repeat split. constructor.
  - unfold bind, unawaited, setInterval, modify. cbn [snd timers setTimers].
    destruct (updateQuote_timers config oracles w) as [H | (fade & Hf & H)];
      rewrite H.
    + eexists. split; [reflexivity |]. split; [| reflexivity].
      repeat constructor. cbn. discriminate.
    + rewrite <- app_assoc. eexists. split; [reflexivity |].
      destruct (Hfade fade Hf) as [Hcb Hrep].
      split; [repeat constructor; [exact Hcb | cbn; discriminate] |].
      cbn [app filter]. now rewrite Hrep.
  - unfold unawaited. cbn [snd].
    destruct (updateQuote_timers config oracles w) as [H | (fade & Hf & H)];
      rewrite H.
    + exists []. rewrite app_nil_r. repeat split. constructor.
    + eexists. split; [reflexivity |].
      destruct (Hfade fade Hf) as [Hcb Hrep].
      split; [repeat constructor; exact Hcb |].
      cbn [filter]. now rewrite Hrep.
  - exists []. rewrite app_nil_r. unfold unawaited. cbn [snd].
    rewrite showQuote_keeps_timers. repeat split. constructor.
  - exists []. rewrite app_nil_r. unfold unawaited. cbn [snd].
    rewrite updateWeatherDisplay_keeps_timers. repeat split. constructor.
Qed.

Lemma refreshIntervals_app w w' extra :
  timers w' = (timers w ++ extra)%list ->
  refreshIntervals w'
  = (refreshIntervals w
     + List.length
         (filter (fun t => repeating t
                           && match callback t with
                              | CbUpdateQuote => true
                              | _ => false
                              end) extra))%nat.
Proof.
  intros H. unfold refreshIntervals. now rewrite H, filter_app, length_app.
Qed.

Lemma alignmentsOneShot_app w w' extra :
  timers w' = (timers w ++ extra)%list ->
  Forall (fun t => callback t <> CbStartMinuteCycle) extra ->
  alignmentsOneShot w -> alignmentsOneShot w'.
Proof.
  intros H Hextra Hw t Hin Hcb. rewrite H in Hin.
  apply in_app_or in Hin as [Hin | Hin]; [now apply Hw |].
  rewrite Forall_forall in Hextra. now apply Hextra in Hin.
Qed.

(** A firing moves an alignment into a refresh interval, or leaves both
    counts as they are. *)
Lemma fires_one_cycle w w' :
  fires config oracles w w' -> alignmentsOneShot w ->
  alignmentsOneShot w' /\
  (pendingAlignments w' + refreshIntervals w'
   = pendingAlignments w + refreshIntervals w)%nat.
Proof.
  intros [before t after w0 Ht Hrep | t w0 Hin Hrep] Hone.
  - set (w1 := setTimers (before ++ after)%list w0).
    destruct (runCallback_adds (callback t) w1)
      as (extra & Htimers & Hextra & Hcount).
    assert (Hone1 : alignmentsOneShot w1).
    { intros t0 Hin0. apply Hone. rewrite Ht. cbn [timers setTimers w1] in Hin0.
      apply in_app_or in Hin0 as [H | H]; apply in_or_app;
        [now left | right; now right]. }
    split; [exact (alignmentsOneShot_app w1 _ extra Htimers Hextra Hone1) |].
    rewrite (pendingAlignments_app extra w1 _ Htimers Hextra).
    rewrite (refreshIntervals_app w1 _ extra Htimers), Hcount.
    unfold pendingAlignments, refreshIntervals, w1. cbn [timers setTimers].
    rewrite Ht, !filter_app, !length_app. cbn [filter]. rewrite Hrep.
    cbn [andb]. destruct (callback t); cbn [List.length]; lia.
  - destruct (runCallback_adds (callback t) w0)
      as (extra & Htimers & Hextra & Hcount).
    split; [exact (alignmentsOneShot_app w0 _ extra Htimers Hextra Hone) |].
    rewrite (pendingAlignments_app extra w0 _ Htimers Hextra).
    rewrite (refreshIntervals_app w0 _ extra Htimers), Hcount.
    destruct (callback t) eqn:Ecb; try lia.
    rewrite (Hone t Hin Ecb) in Hrep. discriminate.
Qed.

(** X19: the page runs one refresh cycle and never two.  From a world in
    which every alignment to the minute is a one-shot timer, whatever timers
    fire, the pending alignments and the refresh intervals together stay as
    many as they were: each alignment that fires becomes one interval of
    [updateQuote], and nothing else makes or removes one. *)
Theorem reachable_one_cycle w w' :
  alignmentsOneShot w -> reachable config oracles w w' ->
  (pendingAlignments w' + refreshIntervals w'
   = pendingAlignments w + refreshIntervals w)%nat.
Proof.
  intros Hone Hreach.
  assert (H : alignmentsOneShot w' /\
              (pendingAlignments w' + refreshIntervals w'
               = pendingAlignments w + refreshIntervals w)%nat).
  { induction Hreach as [| w1 w2 _ IH Hstep]; [now split |].
    destruct IH as [Hone1 Hsum].
    destruct (fires_one_cycle w1 w2 Hstep Hone1) as [Hone2 Hstep_sum].
    split; [exact Hone2 | lia]. }
  apply H.
Qed.

(** X20: when the quote container is missing, a startup that fails is
    silent: [init] returns, no banner is shown anywhere, the document is as
    it was and no timer is registered. *)
Theorem init_failure_without_container doc :
  datasetFails (datasetService oracles 0) ->
  quoteContainerEl doc = None ->
  fst (init config oracles (initialWorld doc)) = Returned tt /\
  document (snd (init config oracles (initialWorld doc))) = doc /\
  timers (snd (init config oracles (initialWorld doc))) = [].
Proof.
  intros Hfail Hnone.
  destruct (loadQuotes_fails oracles (initialWorld doc) Hfail) as [e He].
  remember (init config oracles (initialWorld doc)) as r eqn:Hr.
  unfold init, tryCatch, bind at 1 in Hr. rewrite He in Hr. subst r.
  unfold displayError, updateDocument, modify.
  cbn [fst snd document timers setDocument tickDatasetFetch initialWorld].
  split; [reflexivity |]. split; [| reflexivity].
  destruct doc as [qe ae ce de we]. cbn in Hnone. subst ce. reflexivity.
Qed.

End OneCycle.

(** ** The fitter by measurement *)

Section ThreeLinesFacts.
Import Js JsFacts.
Variable offsetHeight : string -> Z.

Lemma fitWords_measured timeString maxHeight words truncatedText :
  (truncatedText = "" \/
   offsetHeight
     (dquote ++ highlightTimeString (truncatedText ++ "...") timeString
      ++ dquote) <= maxHeight) ->
  let kept := fitWords offsetHeight timeString maxHeight words truncatedText in
  kept = "" \/
  offsetHeight
    (dquote ++ highlightTimeString (kept ++ "...") timeString ++ dquote)
  <= maxHeight.
Proof.
  revert truncatedText; induction words as [| word rest IH];
    intros truncatedText Hinv; cbn [fitWords]; [exact Hinv |].
  cbv zeta.
  destruct (Z.gtb_spec
              (offsetHeight
                 (dquote
                  ++ highlightTimeString
                       ((truncatedText
                         ++ (if (truncatedText =? "")%string then ""
                             else " ") ++ word) ++ "...") timeString
                  ++ dquote)) maxHeight) as [Hover | Hfits];
    [exact Hinv |].
  apply IH. right. exact Hfits.
Qed.

(** X21: [truncateQuoteToThreeLines] gives the text back unchanged when the
    page has no quote element; otherwise what it returns, marked and put in
    quotation marks, measures at most three lines, unless it is the bare
    marker "...", which is returned when not even the first word fits. *)
Theorem truncateQuoteToThreeLines_measured doc quoteText timeString :
  let fitted :=
    truncateQuoteToThreeLines offsetHeight doc quoteText timeString in
  (quoteEl doc = None -> fitted = quoteText) /\
  (forall el,
      quoteEl doc = Some el ->
      fitted = "..." \/
      offsetHeight
        (dquote ++ highlightTimeString fitted timeString ++ dquote)
      <= offsetHeight "Test line" * 3).
Proof.
  cbv zeta. unfold truncateQuoteToThreeLines.
  destruct (quoteEl doc) as [el0 |]; [| split; [reflexivity | discriminate]].
  split; [discriminate |]. intros el _. cbv zeta.
  destruct (Z.leb_spec
              (offsetHeight
                 (dquote ++ highlightTimeString quoteText timeString
                  ++ dquote))
              (offsetHeight "Test line" * 3)) as [Hfits | Hover].
  - right. exact Hfits.
  - destruct (fitWords_measured timeString (offsetHeight "Test line" * 3)
                (splitOn " " quoteText) "" (or_introl eq_refl)) as [H | H].
    + left. now rewrite H.
    + right. exact H.
Qed.

Lemma splitOn_spaced s :
  exists word words,
    splitOn " " s = word :: words /\ s = word ++ spacedWords words /\
    (startsWith " " s = false -> s <> "" -> word <> "").
Proof.
  induction s as [| c s (word & words & Hsplit & Hs & _)].
  - exists "", []. repeat split. congruence.
  - cbn [splitOn]. destruct (Ascii.eqb_spec c " ") as [-> | Hc].
    + exists "", (word :: words). rewrite Hsplit.
      split; [reflexivity |]. split; [cbn; now rewrite <- Hs |].
      cbn. discriminate.
    + rewrite Hsplit. exists (String c word), words.
      split; [reflexivity |]. split; [cbn; now rewrite <- Hs |].
      discriminate.
Qed.

Lemma fitWords_boundary timeString maxHeight words truncatedText :
  truncatedText <> "" ->
  exists rest,
    truncatedText ++ spacedWords words
    = fitWords offsetHeight timeString maxHeight words truncatedText ++ rest /\
    (rest = "" \/ startsWith " " rest = true).
Proof.
  revert truncatedText; induction words as [| word rest IH];
    intros truncatedText Hne; cbn [fitWords spacedWords].
  - exists "". split; [reflexivity | now left].
  - cbv zeta. destruct (String.eqb_spec truncatedText "") as [E | _];
      [contradiction |].
    destruct (_ >? _).
    + eexists. split; [reflexivity | now right].
    + destruct (IH (truncatedText ++ " " ++ word)) as (rest' & Heq & Hrest).
      { destruct truncatedText; [contradiction | discriminate]. }
      exists rest'. split; [| exact Hrest].
      rewrite <- Heq. now rewrite !append_assoc.
Qed.

(** X22: when the text does not start with a space, what
    [truncateQuoteToThreeLines] returns is the text itself, or a beginning of
    the text with "..." behind it; that beginning is empty, or the whole
    text, or ends right before a space: words are kept whole and in
    order. *)
Theorem truncateQuoteToThreeLines_whole_words doc quoteText timeString :
  startsWith " " quoteText = false ->
  let fitted :=
    truncateQuoteToThreeLines offsetHeight doc quoteText timeString in
  fitted = quoteText \/
  exists kept rest,
    quoteText = kept ++ rest /\ fitted = kept ++ "..." /\
    (kept = "" \/ rest = "" \/ startsWith " " rest = true).
Proof.
  intros Hlead. cbv zeta. unfold truncateQuoteToThreeLines.
  destruct (quoteEl doc) as [el |]; [| now left]. cbv zeta.
  destruct (_ <=? _); [now left |]. right.
  destruct (splitOn_spaced quoteText) as (word & words & Hsplit & Hq & Hword).
  rewrite Hsplit. cbn [fitWords]. cbv zeta. cbn [String.eqb append].
  destruct (_ >? _).
  - exists "", quoteText. repeat split. now left.
  - destruct word as [| c word].
    + (* the text is empty *)
      destruct quoteText as [| c' q'].
      * exists "", "". split; [reflexivity |]. split; [| now left].
        destruct words as [| w ws]; [reflexivity | discriminate Hq].
      * exfalso. now apply (Hword Hlead).
    + destruct (fitWords_boundary timeString (offsetHeight "Test line" * 3)
                  words (String c word) ltac:(discriminate))
        as (rest & Heq & Hrest).
      exists (fitWords offsetHeight timeString (offsetHeight "Test line" * 3)
                words (String c word)), rest.
      split; [now rewrite Hq, Heq |]. split; [reflexivity |].
      right. exact Hrest.
Qed.

End ThreeLinesFacts.

Lemma truncateQuoteToThreeLines_measured_witness :
  truncateQuoteToThreeLines sampleHeight fullDocument aprilQuote
    "striking thirteen"
  = "It was a bright cold day in April, and the clocks were striking thirteen. Winston Smith, his chin..." /\
  sampleHeight
    (dquote
     ++ highlightTimeString
          (truncateQuoteToThreeLines sampleHeight fullDocument aprilQuote
             "striking thirteen") "striking thirteen"
     ++ dquote)
  <= sampleHeight "Test line" * 3.
Proof.
  split; [vm_compute; reflexivity |].
  destruct (truncateQuoteToThreeLines_measured sampleHeight fullDocument
              aprilQuote "striking thirteen") as [_ Hfit].
  destruct (Hfit blankElement eq_refl) as [H | H]; [| exact H].
  apply (f_equal String.length) in H. vm_compute in H. discriminate H.
Defined.

Lemma truncateQuoteToThreeLines_whole_words_witness :
  truncateQuoteToThreeLines sampleHeight fullDocument aprilQuote
    "striking thirteen" = aprilQuote \/
  exists kept rest,
    aprilQuote = kept ++ rest /\
    truncateQuoteToThreeLines sampleHeight fullDocument aprilQuote
      "striking thirteen" = kept ++ "..." /\
    (kept = "" \/ rest = "" \/ Js.startsWith " " rest = true).
Proof.
  apply (truncateQuoteToThreeLines_whole_words sampleHeight fullDocument
           aprilQuote "striking thirteen").
  reflexivity.
Defined.

(** ** The sample startup, checked against the statements above *)

Lemma startedWorld_timers :
  timers startedWorld
  = ([{| repeating := true; delay := 30000; callback := CbKeepAwake |};
      {| repeating := false; delay := 1000;
         callback := CbShowQuote (nth_error sampleQuotes 0) |}]
     ++ {| repeating := false; delay := 53000;
           callback := CbStartMinuteCycle |}
     :: [{| repeating := true; delay := 600000;
            callback := CbUpdateWeather |}])%list.
Proof. vm_compute. reflexivity. Qed.

Lemma alignedWorld_reachable :
  reachable defaultConfig deliveringOracles startedWorld alignedWorld.
Proof.
  apply (reachable_step defaultConfig deliveringOracles startedWorld
           startedWorld alignedWorld (reachable_here _ _ _)).
  exact (fires_timeout defaultConfig deliveringOracles _
           {| repeating := false; delay := 53000;
              callback := CbStartMinuteCycle |} _
           startedWorld startedWorld_timers eq_refl).
Qed.

Lemma startedWorld_oneShot : alignmentsOneShot startedWorld.
Proof.
  intros t Hin Hcb. rewrite startedWorld_timers in Hin.
  cbn [app] in Hin.
  destruct Hin as [<- | [<- | [<- | [<- | []]]]]; try reflexivity;
    discriminate Hcb.
Qed.

Lemma reachable_keeps_startup_witness :
  quotes alignedWorld = quotes startedWorld /\
  datasetFetches alignedWorld = datasetFetches startedWorld /\
  quoteContainerEl (document alignedWorld)
  = quoteContainerEl (document startedWorld).
Proof.
  exact (reachable_keeps_startup defaultConfig deliveringOracles
           startedWorld alignedWorld alignedWorld_reachable).
Defined.

Lemma reachable_keeps_intervals_witness :
  In {| repeating := true; delay := 30000; callback := CbKeepAwake |}
    (timers alignedWorld).
Proof.
  apply (reachable_keeps_intervals defaultConfig deliveringOracles
           startedWorld alignedWorld _ alignedWorld_reachable);
    [| reflexivity].
  rewrite startedWorld_timers. now left.
Defined.

Lemma reachable_one_cycle_witness :
  (pendingAlignments alignedWorld + refreshIntervals alignedWorld
   = pendingAlignments startedWorld + refreshIntervals startedWorld)%nat.
Proof.
  exact (reachable_one_cycle defaultConfig deliveringOracles
           startedWorld alignedWorld startedWorld_oneShot
           alignedWorld_reachable).
Defined.

Lemma init_starts_cycle_witness :
  fst (init defaultConfig deliveringOracles (initialWorld fullDocument))
  = Returned tt /\
  quotes startedWorld = sampleQuotes /\
  pendingAlignments startedWorld = 1%nat /\
  exists t w',
    getCurrentTime defaultConfig deliveringOracles
      (worldBeforeAlignment defaultConfig deliveringOracles fullDocument)
    = (Returned t, w') /\
    In {| repeating := false; delay := (60 - seconds t) * 1000;
          callback := CbStartMinuteCycle |} (timers startedWorld).
Proof.
  destruct (init_starts_cycle defaultConfig deliveringOracles fullDocument
              sampleQuotes eq_refl (or_introl eq_refl))
    as (Hret & Hquotes & _ & _ & _ & _ & Halign & t & w' & Htime & Hin & _).
  split; [exact Hret |]. split; [exact Hquotes |]. split; [exact Halign |].
  exists t, w'. split; [exact Htime | exact Hin].
Defined.

Lemma init_failure_without_container_witness :
  document
    (snd (init defaultConfig
            (steadyOracles (clockTime 9 41 7) TimeFetchFailed
               (DatasetResponded 404 None))
            (initialWorld
               {| quoteEl := Some blankElement;
                  authorEl := Some blankElement;
                  quoteContainerEl := None;
                  datetimeEl := Some blankElement;
                  weatherEl := Some blankElement |})))
  = {| quoteEl := Some blankElement;
       authorEl := Some blankElement;
       quoteContainerEl := None;
       datetimeEl := Some blankElement;
       weatherEl := Some blankElement |}.
Proof.
  apply (init_failure_without_container defaultConfig
           (steadyOracles (clockTime 9 41 7) TimeFetchFailed
              (DatasetResponded 404 None))).
  - left. lia.
  - reflexivity.
Defined.

Lemma refresh_shows_quote_witness :
  let w := setQuotes sampleQuotes (initialWorld fullDocument) in
  let w1 := snd (updateQuote defaultConfig deliveringOracles w) in
  timers w1
  = [{| repeating := false; delay := 1000;
        callback := CbShowQuote (nth_error sampleQuotes 0) |}] /\
  quoteEl (document
             (snd (runCallback defaultConfig deliveringOracles
                     (CbShowQuote (nth_error sampleQuotes 0)) w1)))
  = Some {| content :=
              dquote
              ++ "A man who dares to waste one hour of time has not discovered the value of life at 0<strong>9:41</strong>"
              ++ dquote;
            opacity := "1" |}.
Proof.
  cbv zeta.
  destruct (refresh_shows_quote defaultConfig deliveringOracles
              (setQuotes sampleQuotes (initialWorld fullDocument))
              (clockTime 9 41 7)
              (tickClock (setQuotes sampleQuotes (initialWorld fullDocument)))
              blankElement blankElement eq_refl eq_refl eq_refl)
    as (_ & Htimers & _ & _ & Hshown).
  split; [exact Htimers |].
  destruct (Hshown _ eq_refl) as [Hq _]. exact Hq.
Defined.

Lemma showQuote_none_witness :
  fst (showQuote (configWith true false 30) deliveringOracles None
         (initialWorld fullDocument))
  = Thrown TimeUnavailable /\
  document (snd (showQuote (configWith true false 30) deliveringOracles None
                   (initialWorld fullDocument)))
  = fullDocument /\
  quoteEl (document (snd (showQuote defaultConfig deliveringOracles None
                            (initialWorld fullDocument))))
  = Some {| content := dquote
                       ++ "No quote found for <strong>09:41</strong>..."
                       ++ dquote;
            opacity := "1" |}.
Proof.
  destruct (showQuote_none (configWith true false 30) deliveringOracles
              (initialWorld fullDocument)) as [_ Hfail].
  destruct (Hfail TimeUnavailable
              (tickTimeFetch (tickClock (initialWorld fullDocument)))
              eq_refl) as [Hthrown Hdoc].
  destruct (showQuote_none defaultConfig deliveringOracles
              (initialWorld fullDocument)) as [Hok _].
  specialize (Hok (clockTime 9 41 7) (tickClock (initialWorld fullDocument))
                eq_refl).
  split; [exact Hthrown |]. split; [exact Hdoc |].
  now rewrite Hok.
Defined.
